(** * WiX schema extraction: XSD parser, relationship resolver and merge

    A shallow embedding of [src/core/wix-data/scripts/update-from-xsd.py]
    and of the sibling extractor [scripts/extract-xsd.py], with the
    properties of the element descriptors they produce.

    Conventions of the embedding
    - Python [str] is [string], read as the UTF-8 encoding of the text;
      the order used by [sorted] is the code-point order, which on these
      byte strings is [String.le].  [str.split()] separates at the white
      space of Unicode, recognised on its encodings.  [str.lower] follows
      the case tables of Unicode, which are not part of the program: it is
      a parameter, [PyStr.lower], and every result holds for any such
      function; the samples use the one of ASCII text.
    - A Python [dict] whose iteration order is observable (the [elements]
      table, an [attributes] mapping) is an association list kept free of
      duplicate keys by [PyDict.set]; the [types] and [groups] tables are
      only ever looked up and are finite maps.
    - An [xml.etree] element is a finite tree; the outcome of [ET.parse] is
      either a tree or a parse error.
    - An element descriptor is a record: the keys the scripts read with
      [.get] are optional fields, the ["name"] key, which [write_element]
      indexes, is always there.  A file of the elements directory holds
      such a descriptor, or some other JSON value, or no JSON at all; a
      JSON object that has a string ["name"] but an entry of another type
      than a descriptor's is not represented.
    - [merge_element] mutates the objects it is handed, so it runs on an
      explicit store of attribute mappings and attribute definitions;
      [merged_descriptor_tree] relates it to a function of trees.
    - The file system answers each attempt to write a file: the write
      succeeds, or [open] fails and the file is as it was, or the write
      fails after [open] and the file is left with a part of the text or,
      when it fails at the very end, with all of it.  The answer depends
      on the file, not on the moment.  Files that exist can
      be read.  The console is left out. *)

From Stdlib Require Import Ascii.
From stdpp Require Import sorting gmap strings functions list.

Local Open Scope string_scope.
Local Open Scope list_scope.

(** ** Python strings *)

Module PyStr.

(** [bool(s)] for a string that may be absent ([None]) *)
Definition truthy (o : option string) : bool :=
  match o with
  | Some s => negb (String.eqb s "")
  | None => false
  end.

(** [a or b] on an optional string and a fallback *)
Definition or_else (o : option string) (d : string) : string :=
  match o with
  | Some s => if String.eqb s "" then d else s
  | None => d
  end.

(** [s.lower()]: the case mapping of Unicode, a parameter of the
    development *)
Class CaseMapping : Type := { lower : string → string }.

(** the case mapping of ASCII text, for the samples *)
Definition lower_ascii (c : ascii) : ascii :=
  let n := nat_of_ascii c in
  if (65 <=? n)%nat && (n <=? 90)%nat then ascii_of_nat (n + 32) else c.

Fixpoint ascii_lower (s : string) : string :=
  match s with
  | EmptyString => EmptyString
  | String c s' => String (lower_ascii c) (ascii_lower s')
  end.

Definition ascii_case : CaseMapping := {| lower := ascii_lower |}.

(** The characters [str.split()], [str.strip()] and the pattern [\s]
    treat as white space, by their encodings: U+0009 to U+000D, U+001C to
    U+0020 in one byte; U+0085 and U+00A0 in two; U+1680, U+2000 to U+200A,
    U+2028, U+2029, U+202F, U+205F and U+3000 in three. *)
Definition is_space1 (c : ascii) : bool :=
  let n := nat_of_ascii c in
  ((9 <=? n)%nat && (n <=? 13)%nat) || ((28 <=? n)%nat && (n <=? 32)%nat).

Definition is_space2 (c1 c2 : ascii) : bool :=
  Ascii.eqb c1 "194" && (Ascii.eqb c2 "133" || Ascii.eqb c2 "160").

Definition is_space3 (c1 c2 c3 : ascii) : bool :=
  let n := nat_of_ascii c3 in
  (Ascii.eqb c1 "225" && Ascii.eqb c2 "154" && Ascii.eqb c3 "128")
  || (Ascii.eqb c1 "226" && Ascii.eqb c2 "128"
      && (((128 <=? n)%nat && (n <=? 138)%nat)
          || Ascii.eqb c3 "168" || Ascii.eqb c3 "169" || Ascii.eqb c3 "175"))
  || (Ascii.eqb c1 "226" && Ascii.eqb c2 "129" && Ascii.eqb c3 "159")
  || (Ascii.eqb c1 "227" && Ascii.eqb c2 "128" && Ascii.eqb c3 "128").

(** the text after the white-space character [s] starts with, if it starts
    with one *)
Definition skip_space (s : string) : option string :=
  match s with
  | String c1 s1 =>
      if is_space1 c1 then Some s1 else
      match s1 with
      | String c2 s2 =>
          if is_space2 c1 c2 then Some s2 else
          match s2 with
          | String c3 s3 => if is_space3 c1 c2 c3 then Some s3 else None
          | EmptyString => None
          end
      | EmptyString => None
      end
  | EmptyString => None
  end.

Definition flush (cur : string) : list string :=
  if String.eqb cur "" then [] else [cur].

(** the words of [s], after the word [cur] read so far *)
Fixpoint split_go (cur : string) (s : string) : list string :=
  match s with
  | EmptyString => flush cur
  | String c1 s1 =>
      if is_space1 c1 then flush cur ++ split_go "" s1 else
      match s1 with
      | String c2 s2 =>
          if is_space2 c1 c2 then flush cur ++ split_go "" s2 else
          match s2 with
          | String c3 s3 =>
              if is_space3 c1 c2 c3 then flush cur ++ split_go "" s3
              else split_go (cur +:+ String c1 "") s1
          | EmptyString => split_go (cur +:+ String c1 "") s1
          end
      | EmptyString => split_go (cur +:+ String c1 "") s1
      end
  end.

(** [s.split()] *)
Definition split (s : string) : list string := split_go "" s.

(** [" ".join(s.split())] *)
Definition collapse_ws (s : string) : string := String.concat " " (split s).

Fixpoint last_segment_go (cur : string) (s : string) : string :=
  match s with
  | EmptyString => cur
  | String c s' =>
      if Ascii.eqb c ":" then last_segment_go "" s'
      else last_segment_go (cur +:+ String c "") s'
  end.

(** [s.split(":")[-1]] *)
Definition last_segment (s : string) : string := last_segment_go "" s.

(** [sorted(xs)] on strings *)
Definition sorted (xs : list string) : list string := merge_sort String.le xs.

End PyStr.

(** ** Insertion-ordered dictionaries *)

Module PyDict.
Section Dict.
Context {V : Type}.

Definition dict := list (string * V).

(** [d.get(k)] *)
Fixpoint get (k : string) (d : dict) : option V :=
  match d with
  | [] => None
  | (k', v) :: d' => if String.eqb k k' then Some v else get k d'
  end.

(** [d[k] = v]: an existing key keeps its position, a new key goes last *)
Fixpoint set (k : string) (v : V) (d : dict) : dict :=
  match d with
  | [] => [(k, v)]
  | (k', v') :: d' =>
      if String.eqb k k' then (k, v) :: d' else (k', v') :: set k v d'
  end.

Definition keys (d : dict) : list string := d.*1.

End Dict.
Arguments dict V : clear implicits.
End PyDict.

(** ** XML trees *)

#[warnings="-register-all"]
Inductive xml : Type :=
  Node (tag : string) (attrib : list (string * string))
       (text tail : option string) (kids : list xml).

Definition tag_of (x : xml) : string := let 'Node t _ _ _ _ := x in t.
Definition attrib_of (x : xml) : list (string * string) := let 'Node _ a _ _ _ := x in a.
Definition text_of (x : xml) : option string := let 'Node _ _ t _ _ := x in t.
Definition tail_of (x : xml) : option string := let 'Node _ _ _ t _ := x in t.
Definition kids_of (x : xml) : list xml := let 'Node _ _ _ _ k := x in k.

(** the outcome of [ET.parse] / [ET.fromstring] *)
Inductive parsed : Type :=
  | ParseError
  | Document (root : xml).

Module ET.

(** [elem.get(key)] *)
Definition get (key : string) (x : xml) : option string :=
  PyDict.get key (attrib_of x).

(** [elem.get(key, default)] *)
Definition get_or (key : string) (d : string) (x : xml) : string :=
  default d (get key x).

(** [elem.iter()]: the node and its descendants in document order *)
Fixpoint iter (x : xml) : list xml :=
  match x with
  | Node _ _ _ _ ks => x :: flat_map iter ks
  end.

(** ["".join(elem.itertext())]: the text of the node, then for each child
    its inner text followed by its tail *)
Fixpoint itertext (x : xml) : string :=
  match x with
  | Node _ _ txt _ ks =>
      default "" txt
      +:+ String.concat "" (List.map (fun k => itertext k +:+ default "" (tail_of k)) ks)
  end.

(** the proper descendants, in document order *)
Definition descendants (x : xml) : list xml := flat_map iter (kids_of x).

Definition has_tag (t : string) (x : xml) : bool := String.eqb (tag_of x) t.

(** [elem.findall("./t")] *)
Definition children (t : string) (x : xml) : list xml :=
  List.filter (has_tag t) (kids_of x).

(** [elem.findall(".//t")] *)
Definition findall (t : string) (x : xml) : list xml :=
  List.filter (has_tag t) (descendants x).

(** [elem.findall(".//t[@name]")] *)
Definition findall_named (t : string) (x : xml) : list xml :=
  List.filter (fun e => bool_decide (is_Some (get "name" e))) (findall t x).

(** [elem.findall(".//c/t")] *)
Definition findall_under (c t : string) (x : xml) : list xml :=
  flat_map (children t) (findall c x).

(** [elem.find("./t")] *)
Definition find_child (t : string) (x : xml) : option xml := head (children t x).

(** [elem.find(".//t")] *)
Definition find (t : string) (x : xml) : option xml := head (findall t x).

End ET.

(** ** Data model *)

(** One attribute definition: the dictionary built by [_parse_attribute]
    (and read back from a descriptor file, where any key may be missing). *)
Record AttrDef : Type := mkAttrDef {
  attr_type : option string;
  attr_required : option bool;
  attr_description : option string;
  attr_default : option string;
  attr_values : option (list string)
}.

(** One element descriptor. [A] is what the ["attributes"] key holds: the
    mapping itself in a descriptor file, a reference to it for a live
    object. *)
Record Element (A : Type) : Type := mkElement {
  name : string;
  namespace : option string;
  since : option string;
  description : option string;
  documentation : option string;
  parents : option (list string);
  children : option (list string);
  attributes : option A
}.
Arguments mkElement {A}.
Arguments name {A}.
Arguments namespace {A}.
Arguments since {A}.
Arguments description {A}.
Arguments documentation {A}.
Arguments parents {A}.
Arguments children {A}.
Arguments attributes {A}.

Definition Descriptor : Type := Element (PyDict.dict AttrDef).

Definition set_description {A} (v : option string) (e : Element A) : Element A :=
  mkElement (name e) (namespace e) (since e) v (documentation e)
            (parents e) (children e) (attributes e).
Definition set_parents {A} (v : option (list string)) (e : Element A) : Element A :=
  mkElement (name e) (namespace e) (since e) (description e) (documentation e)
            v (children e) (attributes e).
Definition set_children {A} (v : option (list string)) (e : Element A) : Element A :=
  mkElement (name e) (namespace e) (since e) (description e) (documentation e)
            (parents e) v (attributes e).
Definition set_attributes {A B} (v : option B) (e : Element A) : Element B :=
  mkElement (name e) (namespace e) (since e) (description e) (documentation e)
            (parents e) (children e) v.

(** An entry of [XsdParser.types]: the result of [_parse_complex_type] or of
    [_parse_simple_type]. *)
Inductive TypeInfo : Type :=
  | ComplexType (attrs : PyDict.dict AttrDef) (childs : list string)
  | SimpleType (kind : string) (values : option (list string)).

(** [type_info.get("attributes", {})] *)
Definition type_attributes (ti : TypeInfo) : PyDict.dict AttrDef :=
  match ti with ComplexType a _ => a | SimpleType _ _ => [] end.
(** [type_info.get("children", [])] *)
Definition type_children (ti : TypeInfo) : list string :=
  match ti with ComplexType _ c => c | SimpleType _ _ => [] end.
(** [type_info.get("type")] *)
Definition type_kind (ti : TypeInfo) : option string :=
  match ti with ComplexType _ _ => None | SimpleType k _ => Some k end.
(** [type_info.get("values", [])] *)
Definition type_values (ti : TypeInfo) : list string :=
  match ti with ComplexType _ _ => [] | SimpleType _ v => default [] v end.

(** ** update-from-xsd.py: the parser *)

Module XsdParser.
Section Parser.
Context {tables : PyStr.CaseMapping}.

Definition XS : string := "{http://www.w3.org/2001/XMLSchema}".

(** the parser object: [self.elements], [self.types], [self.groups] *)
Record t : Type := mk {
  elements : PyDict.dict Descriptor;
  types : gmap string TypeInfo;
  groups : gmap string (list string)
}.

(** [XsdParser()] *)
Definition init : t := mk [] ∅ ∅.

(** [_get_documentation] *)
Definition _get_documentation (elem : xml) : option string :=
  match ET.find (XS +:+ "documentation") elem with
  | Some doc_elem =>
      if PyStr.truthy (text_of doc_elem)
      then PyStr.collapse_ws <$> text_of doc_elem
      else None
  | None => None
  end.

Definition type_mapping : PyDict.dict string :=
  [ ("xs:string", "string");
    ("xs:boolean", "yesno");
    ("xs:integer", "integer");
    ("xs:int", "integer");
    ("xs:positiveInteger", "integer");
    ("xs:nonNegativeInteger", "integer");
    ("YesNoType", "yesno");
    ("Guid", "guid");
    ("VersionType", "version") ].

(** the semantic kind [_parse_attribute] gives to a declared type *)
Definition mapped_type (tys : gmap string TypeInfo) (attr_type : string) : string :=
  let mapped := default "string" (PyDict.get attr_type type_mapping) in
  match tys !! attr_type with
  | Some type_info =>
      if bool_decide (type_kind type_info = Some "enum") then "enum" else mapped
  | None => mapped
  end.

(** [_parse_attribute]: [None] for an attribute without a name, otherwise
    its name and definition *)
Definition _parse_attribute (tys : gmap string TypeInfo) (attr_elem : xml)
  : option (string * AttrDef) :=
  match ET.get "name" attr_elem with
  | None => None
  | Some name =>
      if String.eqb name "" then None else
      let doc := _get_documentation attr_elem in
      let attr_type := ET.get_or "type" "string" attr_elem in
      let use := ET.get_or "use" "optional" attr_elem in
      let dflt := ET.get "default" attr_elem in
      let mapped := mapped_type tys attr_type in
      Some (name,
            {| attr_type := Some mapped;
               attr_required := Some (String.eqb use "required");
               attr_description :=
                 Some (PyStr.or_else doc ("The " +:+ name +:+ " attribute."));
               attr_default := if PyStr.truthy dflt then dflt else None;
               attr_values :=
                 if String.eqb mapped "enum"
                 then type_values <$> tys !! attr_type
                 else None |})
  end.

(** the references ([ref] attributes, when non-empty) of a list of nodes *)
Definition refs (l : list xml) : list string :=
  omap (fun e => match ET.get "ref" e with
                 | Some r => if String.eqb r "" then None else Some r
                 | None => None
                 end) l.

(** the child elements found in the sequence, choice and all containers
    of a complex type *)
Definition direct_children (type_elem : xml) : list string :=
  flat_map (fun container =>
              refs (ET.findall_under container (XS +:+ "element") type_elem))
           [XS +:+ "sequence"; XS +:+ "choice"; XS +:+ "all"].

(** the members of the known groups a complex type refers to *)
Definition group_children (grps : gmap string (list string)) (type_elem : xml)
  : list string :=
  flat_map (fun ref => default [] (grps !! ref))
           (refs (ET.findall (XS +:+ "group") type_elem)).

(** [_parse_complex_type] *)
Definition _parse_complex_type (self : t) (type_elem : xml) : TypeInfo :=
  let attrs :=
    foldl (fun acc attr =>
             match _parse_attribute (types self) attr with
             | Some (n, d) => PyDict.set n d acc
             | None => acc
             end)
          [] (ET.findall (XS +:+ "attribute") type_elem) in
  ComplexType attrs
              (direct_children type_elem ++ group_children (groups self) type_elem).

(** [_parse_simple_type] *)
Definition _parse_simple_type (type_elem : xml) : TypeInfo :=
  let enum_values :=
    omap (fun enum => match ET.get "value" enum with
                      | Some v => if String.eqb v "" then None else Some v
                      | None => None
                      end)
         (ET.findall (XS +:+ "enumeration") type_elem) in
  match enum_values with
  | [] => SimpleType "string" None
  | _ => SimpleType "enum" (Some enum_values)
  end.

(** [_parse_group] *)
Definition _parse_group (group_elem : xml) : list string :=
  refs (ET.findall (XS +:+ "element") group_elem).

(** [_parse_element] *)
Definition _parse_element (self : t) (elem : xml) (ns : string)
  : option Descriptor :=
  match ET.get "name" elem with
  | None => None
  | Some name =>
      if String.eqb name "" then None else
      let doc := _get_documentation elem in
      let type_info :=
        match ET.get "type" elem with
        | Some type_name =>
            if String.eqb type_name "" then None else types self !! type_name
        | None => None
        end in
      let type_info :=
        match type_info with
        | Some ti => Some ti
        | None =>
            _parse_complex_type self <$> ET.find_child (XS +:+ "complexType") elem
        end in
      Some {| name := name;
              namespace := Some ns;
              since := Some "v4";
              description :=
                Some (PyStr.or_else doc ("The " +:+ name +:+ " element."));
              documentation :=
                Some ("https://wixtoolset.org/docs/schema/wxs/"
                        +:+ PyStr.lower name +:+ "/");
              parents := Some [];
              children := Some (from_option type_children [] type_info);
              attributes := Some (from_option type_attributes [] type_info) |}
  end.

Definition name_of (e : xml) : string := default "" (ET.get "name" e).

Definition set_elements (v : PyDict.dict Descriptor) (self : t) : t :=
  mk v (types self) (groups self).
Definition set_types (v : gmap string TypeInfo) (self : t) : t :=
  mk (elements self) v (groups self).
Definition set_groups (v : gmap string (list string)) (self : t) : t :=
  mk (elements self) (types self) v.

(** [parse_file], on the outcome of [ET.parse(xsd_path)].  A parse error is
    reported and the call returns with the parser unchanged. *)
Definition parse_file (self : t) (doc : parsed) (ns : string) : t :=
  match doc with
  | ParseError => self
  | Document root =>
      (* first pass: collect all types and groups *)
      let self :=
        foldl (fun self type_elem =>
                 set_types (<[name_of type_elem :=
                                _parse_complex_type self type_elem]> (types self)) self)
              self (ET.findall_named (XS +:+ "complexType") root) in
      let self :=
        foldl (fun self type_elem =>
                 set_types (<[name_of type_elem :=
                                _parse_simple_type type_elem]> (types self)) self)
              self (ET.findall_named (XS +:+ "simpleType") root) in
      let self :=
        foldl (fun self group_elem =>
                 set_groups (<[name_of group_elem :=
                                 _parse_group group_elem]> (groups self)) self)
              self (ET.findall_named (XS +:+ "group") root) in
      (* second pass: extract elements *)
      foldl (fun self elem =>
               match _parse_element self elem ns with
               | Some element_def =>
                   set_elements (PyDict.set (name element_def) element_def
                                            (elements self)) self
               | None => self
               end)
            self (ET.children (XS +:+ "element") root)
  end.

(** one step of the inner loop of [resolve_relationships] *)
Definition add_parent (name child_name : string) (els : PyDict.dict Descriptor)
  : PyDict.dict Descriptor :=
  match PyDict.get child_name els with
  | Some child =>
      let ps := default [] (parents child) in
      if bool_decide (name ∈ ps) then els
      else PyDict.set child_name (set_parents (Some (ps ++ [name])) child) els
  | None => els
  end.

(** the body of the outer loop, for the entry [name] *)
Definition resolve_one (els : PyDict.dict Descriptor) (name : string)
  : PyDict.dict Descriptor :=
  match PyDict.get name els with
  | Some element =>
      foldl (fun els child_name => add_parent name child_name els)
            els (default [] (children element))
  | None => els
  end.

(** [resolve_relationships] *)
Definition resolve_relationships (self : t) : t :=
  set_elements (foldl resolve_one (elements self) (PyDict.keys (elements self))) self.

End Parser.
End XsdParser.

(** ** update-from-xsd.py: merging into an existing descriptor *)

(** The objects [merge_element] reads and writes through references: the
    attribute mappings (name to reference of a definition) and the attribute
    definitions.  [next] is the first unused reference. *)
Module Store.

Definition loc : Type := nat.

Record t : Type := mk {
  attr_maps : loc → PyDict.dict loc;
  attr_defs : loc → AttrDef;
  next : loc
}.

Definition empty : t :=
  mk (fun _ => []) (fun _ => mkAttrDef None None None None None) 0.

Definition set_map (a : loc) (m : PyDict.dict loc) (σ : t) : t :=
  mk (<[a := m]> (attr_maps σ)) (attr_defs σ) (next σ).

Definition set_def (l : loc) (d : AttrDef) (σ : t) : t :=
  mk (attr_maps σ) (<[l := d]> (attr_defs σ)) (next σ).

(** a new mapping object *)
Definition alloc_map (m : PyDict.dict loc) (σ : t) : t * loc :=
  (mk (<[next σ := m]> (attr_maps σ)) (attr_defs σ) (S (next σ)), next σ).

(** a new definition object *)
Definition alloc_def (d : AttrDef) (σ : t) : t * loc :=
  (mk (attr_maps σ) (<[next σ := d]> (attr_defs σ)) (S (next σ)), next σ).

End Store.

(** a live element dictionary: ["attributes"] holds a reference *)
Definition ElementObj : Type := Element Store.loc.

Definition set_attr_description (v : option string) (d : AttrDef) : AttrDef :=
  mkAttrDef (attr_type d) (attr_required d) v (attr_default d) (attr_values d).

(** the body of the attribute loop of [merge_element], for one item of
    [extracted["attributes"]] *)
Definition merge_attr (existing_attrs : Store.loc) (σ : Store.t)
    (item : string * Store.loc) : Store.t :=
  let '(attr_name, attr_def) := item in
  match PyDict.get attr_name (Store.attr_maps σ existing_attrs) with
  | None =>
      Store.set_map existing_attrs
        (PyDict.set attr_name attr_def (Store.attr_maps σ existing_attrs)) σ
  | Some d =>
      if PyStr.truthy (attr_description (Store.attr_defs σ d)) then σ
      else Store.set_def d
             (set_attr_description
                (Some (default "" (attr_description (Store.attr_defs σ attr_def))))
                (Store.attr_defs σ d)) σ
  end.

(** [sorted(set(xs) | set(ys))], built the way the source does: a set from
    the first list, the members of the second added one by one *)
Definition sorted_union (xs ys : list string) : list string :=
  let s : gset string := list_to_set xs in
  let s := foldl (fun s y => {[y]} ∪ s) s ys in
  PyStr.sorted (elements s).

(** [merge_element] *)
Definition merge_element (σ : Store.t) (existing extracted : ElementObj)
  : Store.t * ElementObj :=
  (* result = existing.copy() *)
  let result := existing in
  let result :=
    if bool_decide (is_Some (description extracted))
       && negb (PyStr.truthy (description existing))
    then set_description (description extracted) result
    else result in
  (* existing_attrs = existing.get("attributes", {}) *)
  let '(σ, existing_attrs) :=
    match attributes existing with
    | Some a => (σ, a)
    | None => Store.alloc_map [] σ
    end in
  let items :=
    match attributes extracted with
    | Some b => Store.attr_maps σ b
    | None => []
    end in
  let σ := foldl (merge_attr existing_attrs) σ items in
  let result := set_attributes (Some existing_attrs) result in
  let result :=
    set_children
      (Some (sorted_union (default [] (children existing))
                          (default [] (children extracted)))) result in
  let result :=
    set_parents
      (Some (sorted_union (default [] (parents existing))
                          (default [] (parents extracted)))) result in
  (σ, result).

(** ** Descriptor files *)

(** [json.load]: the descriptor becomes a graph of new objects, one
    definition object per attribute and one mapping object *)
Fixpoint load_defs (σ : Store.t) (m : PyDict.dict AttrDef)
  : Store.t * PyDict.dict Store.loc :=
  match m with
  | [] => (σ, [])
  | (n, d) :: m' =>
      let '(σ, l) := Store.alloc_def d σ in
      let '(σ, refs) := load_defs σ m' in
      (σ, (n, l) :: refs)
  end.

Definition load_attrs (σ : Store.t) (m : PyDict.dict AttrDef) : Store.t * Store.loc :=
  let '(σ, refs) := load_defs σ m in
  Store.alloc_map refs σ.

Definition load_object (σ : Store.t) (d : Descriptor) : Store.t * ElementObj :=
  match attributes d with
  | Some m => let '(σ, a) := load_attrs σ m in (σ, set_attributes (Some a) d)
  | None => (σ, set_attributes None d)
  end.

(** [json.dumps]: the object graph is written out as a tree *)
Definition dump_items (σ : Store.t) (items : PyDict.dict Store.loc)
  : PyDict.dict AttrDef :=
  (fun '(n, l) => (n, Store.attr_defs σ l)) <$> items.

Definition dump_attrs (σ : Store.t) (a : Store.loc) : PyDict.dict AttrDef :=
  dump_items σ (Store.attr_maps σ a).

Definition dump_object (σ : Store.t) (o : ElementObj) : Descriptor :=
  set_attributes (dump_attrs σ <$> attributes o) o.

(** the content of a file of the elements directory: something that is
    not JSON, a descriptor, or another JSON value (anything but an object
    with a string ["name"]), of which the scripts only ever use the truth
    value *)
Inductive file : Type :=
  | NotJson
  | JsonDescriptor (d : Descriptor)
  | JsonOther (truthy : bool).

(** the elements directory: file name to content *)
Abbreviation files := (gmap string file).

(** what [json.load] returns *)
Inductive loaded : Type :=
  | Loaded (d : Descriptor)
  | LoadedOther (truthy : bool).

(** the answer of the file system to an attempt to write a file: the
    content is written; [open] raises and the file is as it was; the write
    raises after [open] has emptied the file, which is left with a part of
    the text, no JSON document; or it raises when the whole document is in
    the file already, at the last line break or on closing *)
Inductive write_outcome : Type :=
  | Written
  | Refused
  | Torn
  | Late.

Definition is_written (o : write_outcome) : bool :=
  match o with
  | Written => true
  | Refused | Torn | Late => false
  end.

(** the file system of a run: its answer for each file *)
Abbreviation disk := (string → write_outcome).

(** how a run, or a part of one, ends: it is done, with a result and the
    elements directory it leaves, or an exception that nothing catches
    ends it, and the directory is as it was then *)
Inductive run (R : Type) : Type :=
  | Done (r : R) (dir : files)
  | Raised (dir : files).
Arguments Done {R}.
Arguments Raised {R}.

Section Files.
Context {tables : PyStr.CaseMapping}.

Definition element_path (name : string) : string := PyStr.lower name +:+ ".json".

(** [load_existing_element]: [None] when the file is missing or is not JSON *)
Definition load_existing_element (dir : files) (name : string) : option loaded :=
  match dir !! element_path name with
  | Some (JsonDescriptor d) => Some (Loaded d)
  | Some (JsonOther b) => Some (LoadedOther b)
  | Some NotJson | None => None
  end.

(** [write_element]: the directory after the call and the value returned.
    The [IOError] of a failed write is caught and answered with [False].
    The fixed ["$schema"] entry the file starts with is left implicit. *)
Definition write_element (fs : disk) (dir : files) (element : Descriptor)
    (dry_run : bool) : files * bool :=
  let file_path := element_path (name element) in
  if dry_run then (dir, true) else
  match fs file_path with
  | Written => (<[file_path := JsonDescriptor element]> dir, true)
  | Refused => (dir, false)
  | Torn => (<[file_path := NotJson]> dir, false)
  | Late => (<[file_path := JsonDescriptor element]> dir, false)
  end.

End Files.

(** what [main] writes for an existing descriptor under [--force]:
    [merge_element(existing, element)] on the loaded objects, serialised *)
Definition merged_descriptor (existing element : Descriptor) : Descriptor :=
  let '(σ, ex) := load_object Store.empty existing in
  let '(σ, el) := load_object σ element in
  let '(σ, merged) := merge_element σ ex el in
  dump_object σ merged.

(** [merge_element] seen from outside, on an existing descriptor and an
    extraction that share no object: the body of the attribute loop and the
    whole function, from trees to a tree *)
Definition merge_attr_tree (acc : PyDict.dict AttrDef) (item : string * AttrDef)
  : PyDict.dict AttrDef :=
  let '(attr_name, attr_def) := item in
  match PyDict.get attr_name acc with
  | None => PyDict.set attr_name attr_def acc
  | Some d =>
      if PyStr.truthy (attr_description d) then acc
      else PyDict.set attr_name
             (set_attr_description
                (Some (default "" (attr_description attr_def))) d) acc
  end.

Definition merge_element_tree (existing extracted : Descriptor) : Descriptor :=
  let result :=
    if bool_decide (is_Some (description extracted))
       && negb (PyStr.truthy (description existing))
    then set_description (description extracted) existing
    else existing in
  let result :=
    set_attributes
      (Some (foldl merge_attr_tree (default [] (attributes existing))
                   (default [] (attributes extracted)))) result in
  let result :=
    set_children
      (Some (sorted_union (default [] (children existing))
                          (default [] (children extracted)))) result in
  set_parents
    (Some (sorted_union (default [] (parents existing))
                        (default [] (parents extracted)))) result.

(** ** update-from-xsd.py: [main] *)

Record Args : Type := mkArgs { force : bool; dry_run : bool }.

Record Summary : Type := mkSummary { created : nat; updated : nat; skipped : nat }.

(** [sorted(xsd_parser.elements.items())]: the keys are distinct, so the
    items are ordered by key *)
Definition sorted_items (els : PyDict.dict Descriptor) : list (string * Descriptor) :=
  merge_sort (fun x y => String.le x.1 y.1) els.

Section Main.
Context {tables : PyStr.CaseMapping}.

(** The body of the "Processing elements" loop.  A loaded value that is
    true but no descriptor is skipped without [--force]; with it,
    [merge_element] or the first line of [write_element] raises on it,
    before anything is written. *)
Definition process (args : Args) (fs : disk) (st : run Summary)
    (item : string * Descriptor) : run Summary :=
  match st with
  | Raised dir => Raised dir
  | Done sm dir =>
      let '(name, element) := item in
      match load_existing_element dir name with
      | Some (Loaded existing) =>
          if force args then
            let merged := merged_descriptor existing element in
            let '(dir, ok) := write_element fs dir merged (dry_run args) in
            Done (if ok then mkSummary (created sm) (S (updated sm)) (skipped sm)
                  else sm) dir
          else Done (mkSummary (created sm) (updated sm) (S (skipped sm))) dir
      | Some (LoadedOther true) =>
          if force args then Raised dir
          else Done (mkSummary (created sm) (updated sm) (S (skipped sm))) dir
      | Some (LoadedOther false) | None =>
          let '(dir, ok) := write_element fs dir element (dry_run args) in
          Done (if ok then mkSummary (S (created sm)) (updated sm) (skipped sm)
                else sm) dir
      end
  end.

(** the documents of a run, after download and cache lookup: what
    [parse_file] is called on, in order, each with its namespace *)
Definition parse_all (docs : list (parsed * string)) : XsdParser.t :=
  foldl (fun self '(doc, ns) => XsdParser.parse_file self doc ns) XsdParser.init docs.

(** [main] from "Resolve relationships" on, for the parser the first half
    has filled: the exit status and the counts, and the elements
    directory *)
Definition process_elements (args : Args) (fs : disk) (xsd_parser : XsdParser.t)
    (dir : files) : run (nat * Summary) :=
  let xsd_parser := XsdParser.resolve_relationships xsd_parser in
  match XsdParser.elements xsd_parser with
  | [] => Done (1, mkSummary 0 0 0) dir
  | els =>
      match foldl (process args fs) (Done (mkSummary 0 0 0) dir) (sorted_items els) with
      | Done sm dir => Done (0, sm) dir
      | Raised dir => Raised dir
      end
  end.

(** [main], from the parse loop on *)
Definition main (args : Args) (fs : disk) (docs : list (parsed * string))
    (dir : files) : run (nat * Summary) :=
  process_elements args fs (parse_all docs) dir.

End Main.

(** ** extract-xsd.py *)

Module ExtractXsd.
Section Extract.
Context {tables : PyStr.CaseMapping}.

Definition XS_NS : string := "{http://www.w3.org/2001/XMLSchema}".

(** [parse_documentation]: [strip()] and then [re.sub] of every run of
    white space by a blank, which is the words of the text joined by
    blanks; [strip], [split] and the class [\s] agree on what white space
    is *)
Definition parse_documentation (element : xml) : string :=
  match ET.find_child (XS_NS +:+ "annotation") element with
  | Some annotation =>
      match ET.find_child (XS_NS +:+ "documentation") annotation with
      | Some documentation => PyStr.collapse_ws (ET.itertext documentation)
      | None => ""
      end
  | None => ""
  end.

Definition type_map : PyDict.dict string :=
  [ ("string", "string");
    ("NMTOKEN", "string");
    ("NMTOKENS", "string");
    ("token", "string");
    ("normalizedString", "string");
    ("integer", "integer");
    ("int", "integer");
    ("positiveInteger", "integer");
    ("nonNegativeInteger", "integer");
    ("long", "integer");
    ("short", "integer");
    ("boolean", "yesno");
    ("Guid", "guid");
    ("GuidType", "guid");
    ("ComponentGuid", "guid");
    ("AutogenGuid", "guid");
    ("YesNoType", "yesno");
    ("YesNoDefaultType", "yesno");
    ("YesNoButtonType", "yesno");
    ("VersionType", "version");
    ("LocalizableInteger", "integer") ].

(** [parse_type_name] *)
Definition parse_type_name (type_str : option string) : string :=
  match type_str with
  | None => "string"
  | Some type_str =>
      default "string" (PyDict.get (PyStr.last_segment type_str) type_map)
  end.

(** [parse_enum_values] *)
Definition parse_enum_values (simple_type : xml) : list string :=
  match ET.find_child (XS_NS +:+ "restriction") simple_type with
  | Some restriction =>
      omap (fun enum => match ET.get "value" enum with
                        | Some v => if String.eqb v "" then None else Some v
                        | None => None
                        end)
           (ET.children (XS_NS +:+ "enumeration") restriction)
  | None => []
  end.

(** [parse_attribute] *)
Definition parse_attribute (attr_elem : xml) (simple_types : gmap string (list string))
  : AttrDef :=
  let attr_type := ET.get_or "type" "string" attr_elem in
  let use := ET.get_or "use" "optional" attr_elem in
  let dflt := ET.get "default" attr_elem in
  let base := (parse_type_name (Some attr_type), @None (list string)) in
  let type_name := PyStr.last_segment attr_type in
  let named :=
    if String.eqb type_name "" then base else
    match simple_types !! type_name with
    | Some ((_ :: _) as values) => ("enum", Some values)
    | _ => base
    end in
  let inline :=
    match ET.find_child (XS_NS +:+ "simpleType") attr_elem with
    | Some inline_type =>
        match parse_enum_values inline_type with
        | [] => named
        | values => ("enum", Some values)
        end
    | None => named
    end in
  {| attr_type := Some inline.1;
     attr_required := Some (String.eqb use "required");
     attr_description := Some (parse_documentation attr_elem);
     attr_default := if PyStr.truthy dflt then dflt else None;
     attr_values := inline.2 |}.

(** the name of a child reference: [ref] or else [name], without prefix *)
Definition child_name (child_ref : xml) : option string :=
  let n := match ET.get "ref" child_ref with
           | Some r => if String.eqb r "" then ET.get "name" child_ref else Some r
           | None => ET.get "name" child_ref
           end in
  match n with
  | Some n => if String.eqb n "" then None else Some (PyStr.last_segment n)
  | None => None
  end.

(** the loop that fills [element_def["children"]] *)
Definition collect_children (complex_type : xml) : list string :=
  foldl (fun acc child_ref =>
           match child_name child_ref with
           | Some n => if bool_decide (n ∈ acc) then acc else acc ++ [n]
           | None => acc
           end)
        [] (ET.findall (XS_NS +:+ "element") complex_type).

(** [parse_element] *)
Definition parse_element (elem : xml) (simple_types : gmap string (list string))
    (all_elements : gmap string xml) : option Descriptor :=
  match ET.get "name" elem with
  | None => None
  | Some name =>
      if String.eqb name "" then None else
      let complex_type :=
        match ET.find_child (XS_NS +:+ "complexType") elem with
        | Some ct => Some ct
        | None =>
            match ET.get "type" elem with
            | Some type_ref =>
                if String.eqb type_ref "" then None
                else all_elements !! ("type:" +:+ PyStr.last_segment type_ref)
            | None => None
            end
        end in
      let attrs :=
        match complex_type with
        | Some ct =>
            foldl (fun acc attr =>
                     match ET.get "name" attr with
                     | Some attr_name =>
                         if String.eqb attr_name "" then acc
                         else PyDict.set attr_name (parse_attribute attr simple_types) acc
                     | None => acc
                     end)
                  [] (ET.findall (XS_NS +:+ "attribute") ct)
        | None => []
        end in
      Some {| name := name;
              namespace := Some "wix";
              since := Some "v4";
              description := Some (parse_documentation elem);
              documentation :=
                Some ("https://wixtoolset.org/docs/schema/wxs/"
                        +:+ PyStr.lower name +:+ "/");
              parents := Some [];
              children := Some (from_option collect_children [] complex_type);
              attributes := Some attrs |}
  end.

(** [extract_simple_types] *)
Definition extract_simple_types (root : xml) : gmap string (list string) :=
  foldl (fun acc simple_type =>
           match ET.get "name" simple_type with
           | Some name =>
               if String.eqb name "" then acc else
               match parse_enum_values simple_type with
               | [] => acc
               | values => <[name := values]> acc
               end
           | None => acc
           end)
        ∅ (ET.findall (XS_NS +:+ "simpleType") root).

(** [extract_elements] *)
Definition extract_elements (root : xml) (simple_types : gmap string (list string))
  : list Descriptor :=
  let all_elements :=
    foldl (fun acc complex_type =>
             match ET.get "name" complex_type with
             | Some name =>
                 if String.eqb name "" then acc
                 else <["type:" +:+ name := complex_type]> acc
             | None => acc
             end)
          (∅ : gmap string xml) (ET.children (XS_NS +:+ "complexType") root) in
  omap (fun elem => parse_element elem simple_types all_elements)
       (ET.children (XS_NS +:+ "element") root).

(** [save_element], as a step of the loop of [main]: nothing catches the
    exception of a failed write, which ends the run *)
Definition save_element (fs : disk) (st : run unit) (element_def : Descriptor)
  : run unit :=
  match st with
  | Raised dir => Raised dir
  | Done _ dir =>
      let output_path := element_path (name element_def) in
      match fs output_path with
      | Written => Done tt (<[output_path := JsonDescriptor element_def]> dir)
      | Refused => Raised dir
      | Torn => Raised (<[output_path := NotJson]> dir)
      | Late => Raised (<[output_path := JsonDescriptor element_def]> dir)
      end
  end.

(** [main], from [ET.fromstring] on: nothing catches the parse error, which
    is raised before the output directory is touched *)
Definition main (fs : disk) (doc : parsed) (dir : files) : run unit :=
  match doc with
  | ParseError => Raised dir
  | Document root =>
      let simple_types := extract_simple_types root in
      let elements := extract_elements root simple_types in
      foldl (save_element fs) (Done tt dir) elements
  end.

End Extract.
End ExtractXsd.

(** ** Sample schemas *)

Module Sample.
Import XsdParser.

Definition xs (t : string) (attrs : list (string * string)) (ks : list xml) : xml :=
  Node (XS +:+ t) attrs None None ks.

(** [Outer] declares its type inline; the type refers to group [G], which
    holds a reference to [Inner] *)
Definition inline_group : xml :=
  xs "schema" []
     [ xs "element" [("name", "Outer")]
          [ xs "complexType" []
               [ xs "sequence" [] [ xs "group" [("ref", "G")] [] ] ] ];
       xs "group" [("name", "G")]
          [ xs "choice" [] [ xs "element" [("ref", "Inner")] [] ] ];
       xs "element" [("name", "Inner")] [] ].

(** the same content model, declared as the named type [OuterType] *)
Definition named_group : xml :=
  xs "schema" []
     [ xs "complexType" [("name", "OuterType")]
          [ xs "sequence" [] [ xs "group" [("ref", "G")] [] ] ];
       xs "group" [("name", "G")]
          [ xs "choice" [] [ xs "element" [("ref", "Inner")] [] ] ];
       xs "element" [("name", "Outer"); ("type", "OuterType")] [];
       xs "element" [("name", "Inner")] [] ].

(** [Outer] mentions [A] directly and once more through group [G] *)
Definition repeated_child : xml :=
  xs "schema" []
     [ xs "element" [("name", "Outer")]
          [ xs "complexType" []
               [ xs "choice" []
                    [ xs "element" [("ref", "A")] [];
                      xs "group" [("ref", "G")] [] ] ] ];
       xs "group" [("name", "G")]
          [ xs "choice" [] [ xs "element" [("ref", "A")] [] ] ];
       xs "element" [("name", "A")] [] ].

(** [Outer] lists [A] twice in one sequence *)
Definition doubled_child : xml :=
  xs "schema" []
     [ xs "element" [("name", "Outer")]
          [ xs "complexType" []
               [ xs "sequence" []
                    [ xs "element" [("ref", "A")] [];
                      xs "element" [("ref", "A")] [] ] ] ];
       xs "element" [("name", "A")] [] ].

(** [Orphan] declares a type that the document never defines *)
Definition undefined_type : xml :=
  xs "schema" []
     [ xs "element" [("name", "Orphan"); ("type", "MissingType")] [] ].

(** a curated descriptor as found on disk: hand-written prose, one
    attribute without description, one child listed by hand *)
Definition existing : Descriptor :=
  {| name := "Component";
     namespace := Some "wix";
     since := Some "v4";
     description := Some "Hand-written element text.";
     documentation := Some "https://wixtoolset.org/docs/schema/wxs/component/";
     parents := Some ["Directory"];
     children := Some ["File"; "Custom"];
     attributes :=
       Some [ ("Id", mkAttrDef (Some "string") (Some false)
                               (Some "Hand-written text.") None None);
              ("Guid", mkAttrDef (Some "string") (Some false) (Some "") None None) ] |}.

(** what a later extraction yields for the same element *)
Definition extracted : Descriptor :=
  {| name := "Component";
     namespace := Some "wix";
     since := Some "v4";
     description := Some "The Component element.";
     documentation := Some "https://wixtoolset.org/docs/schema/wxs/component/";
     parents := Some ["Fragment"; "Directory"];
     children := Some ["File"; "RegistryKey"];
     attributes :=
       Some [ ("Id", mkAttrDef (Some "guid") (Some true)
                               (Some "The Id attribute.") (Some "x") None);
              ("Guid", mkAttrDef (Some "guid") (Some false)
                                 (Some "The Guid attribute.") None None);
              ("Location", mkAttrDef (Some "string") (Some false)
                                     (Some "The Location attribute.") None None) ] |}.

(** both loaded as objects: the arguments of a call of [merge_element] *)
Definition existing_obj : ElementObj := (load_object Store.empty existing).2.
Definition extracted_obj : ElementObj :=
  (load_object (load_object Store.empty existing).1 extracted).2.
Definition store : Store.t :=
  (load_object (load_object Store.empty existing).1 extracted).1.

(** the descriptor written for [Outer] of [doubled_child] *)
Definition doubled_outer : Descriptor :=
  {| name := "Outer";
     namespace := Some "wix";
     since := Some "v4";
     description := Some "The Outer element.";
     documentation := Some "https://wixtoolset.org/docs/schema/wxs/outer/";
     parents := Some [];
     children := Some ["A"; "A"];
     attributes := Some [] |}.

(** a hand-edited descriptor file for [Outer], written before the schema
    gave it a child *)
Definition curated_outer : Descriptor :=
  {| name := "Outer";
     namespace := Some "wix";
     since := Some "v4";
     description := Some "Hand-written text about Outer.";
     documentation := Some "https://wixtoolset.org/docs/schema/wxs/outer/";
     parents := Some [];
     children := Some [];
     attributes := Some [] |}.

Definition curated_dir : files := {[ "outer.json" := JsonDescriptor curated_outer ]}.

End Sample.

(** ** Specification vocabulary for the resolver *)

Definition dparents {A} (e : Element A) : list string := default [] (parents e).
Definition dchildren {A} (e : Element A) : list string := default [] (children e).

(** what a step of the resolver may do to one entry: only add parents *)
Definition grows (e e' : Descriptor) : Prop :=
  name e' = name e ∧ children e' = children e ∧ attributes e' = attributes e
  ∧ description e' = description e ∧ dparents e ⊆ dparents e'.

(** ... and to the table: the known names stay the same *)
Definition extends (els els' : PyDict.dict Descriptor) : Prop :=
  ∀ k, option_Forall2 grows (PyDict.get k els) (PyDict.get k els').

(** the entry [n] has been recorded with each of its known children *)
Definition recorded (n : string) (els : PyDict.dict Descriptor) : Prop :=
  ∀ P c C, PyDict.get n els = Some P → c ∈ dchildren P →
           PyDict.get c els = Some C → n ∈ dparents C.

(** every entry of the table is stored under its own name *)
Definition keyed (els : PyDict.dict Descriptor) : Prop :=
  ∀ n e, PyDict.get n els = Some e → name e = n.

(** ** Specification vocabulary for the merge *)

(** [l] is the sorted set union of [xs] and [ys]: ascending, without
    repetition, and with exactly the members of the two lists *)
Definition is_sorted_union (xs ys l : list string) : Prop :=
  StronglySorted String.le l ∧ NoDup l ∧ ∀ x, x ∈ l ↔ x ∈ xs ∨ x ∈ ys.

(** the items of [extracted.get("attributes", {})] *)
Definition extracted_items (σ : Store.t) (extracted : ElementObj) : PyDict.dict Store.loc :=
  match attributes extracted with
  | Some b => Store.attr_maps σ b
  | None => []
  end.

(** from [σ] to [σ'] no definition object changes anything but an empty
    description, and no mapping loses or redirects an entry *)
Definition keeps_prose (σ σ' : Store.t) : Prop :=
  (∀ l, attr_type (Store.attr_defs σ' l) = attr_type (Store.attr_defs σ l)
        ∧ attr_required (Store.attr_defs σ' l) = attr_required (Store.attr_defs σ l)
        ∧ attr_default (Store.attr_defs σ' l) = attr_default (Store.attr_defs σ l)
        ∧ attr_values (Store.attr_defs σ' l) = attr_values (Store.attr_defs σ l)
        ∧ (PyStr.truthy (attr_description (Store.attr_defs σ l)) = true →
           attr_description (Store.attr_defs σ' l) = attr_description (Store.attr_defs σ l)))
  ∧ (∀ a n d, PyDict.get n (Store.attr_maps σ a) = Some d →
              PyDict.get n (Store.attr_maps σ' a) = Some d).

(** the object graphs of the two arguments are trees that share nothing:
    the extracted mapping has one item per name, the existing mapping holds
    each definition object once, and no definition object is in both *)
Definition separated (σ : Store.t) (a : Store.loc) (items : PyDict.dict Store.loc) : Prop :=
  NoDup (PyDict.keys items)
  ∧ NoDup (Store.attr_maps σ a).*2
  ∧ Forall (fun d => d ∉ (Store.attr_maps σ a).*2) items.*2.

(** the conditions of [separated], in the form the attribute loop keeps
    true of the items still to be processed *)
Definition loop_separated (σ : Store.t) (a : Store.loc) (items : PyDict.dict Store.loc)
  : Prop :=
  NoDup (PyDict.keys items)
  ∧ (∀ n1 n2 d, PyDict.get n1 (Store.attr_maps σ a) = Some d →
                PyDict.get n2 (Store.attr_maps σ a) = Some d →
                n1 ∈ PyDict.keys items → n2 ∈ PyDict.keys items → n1 = n2)
  ∧ (∀ n d n' d', PyDict.get n (Store.attr_maps σ a) = Some d →
                  n ∈ PyDict.keys items → (n', d') ∈ items → d ≠ d').

(** the effect of the attribute loop on the store, from [σ] to [σ'] *)
Definition loop_effect (a : Store.loc) (items : PyDict.dict Store.loc)
    (σ σ' : Store.t) : Prop :=
  (∀ n, PyDict.get n (Store.attr_maps σ' a)
        = match PyDict.get n (Store.attr_maps σ a) with
          | Some d0 => Some d0
          | None => PyDict.get n items
          end)
  ∧ (∀ n d0 d,
       PyDict.get n (Store.attr_maps σ a) = Some d0 →
       PyDict.get n items = Some d →
       attr_description (Store.attr_defs σ' d0)
       = if PyStr.truthy (attr_description (Store.attr_defs σ d0))
         then attr_description (Store.attr_defs σ d0)
         else Some (default "" (attr_description (Store.attr_defs σ d))))
  ∧ (∀ l, (∀ n, n ∈ PyDict.keys items →
                PyDict.get n (Store.attr_maps σ a) ≠ Some l) →
          Store.attr_defs σ' l = Store.attr_defs σ l).

(** ** Specification vocabulary for a run *)

(** the document reached [parse_file] as a tree *)
Definition is_document (d : parsed * string) : bool :=
  match d.1 with
  | Document _ => true
  | ParseError => false
  end.

Section RunVocabulary.
Context {tables : PyStr.CaseMapping}.

(** every descriptor file of the directory is the file of the name it
    carries *)
Definition stored_by_name (dir : files) : Prop :=
  ∀ p d, dir !! p = Some (JsonDescriptor d) → element_path (name d) = p.

(** the file names of a list of items *)
Definition item_paths (items : list (string * Descriptor)) : list string :=
  (fun item => element_path item.1) <$> items.

(** what an attempt to write [d] to the file [p] leaves there *)
Definition after_write (fs : disk) (dry : bool) (dir : files) (p : string)
    (d : Descriptor) : option file :=
  if dry then dir !! p else
  match fs p with
  | Written => Some (JsonDescriptor d)
  | Refused => dir !! p
  | Torn => Some NotJson
  | Late => Some (JsonDescriptor d)
  end.

(** What the file of element [n] holds after the run, given the directory
    before it.  When a descriptor can be loaded: the outcome of writing the
    merge under [--force], the old content without it.  When a JSON value
    that is true but no descriptor is loaded: the old content.  When
    nothing, or a JSON value that is false, is loaded: the outcome of
    writing the extracted descriptor. *)
Definition expected_file (args : Args) (fs : disk) (dir : files) (n : string)
    (e : Descriptor) : option file :=
  match load_existing_element dir n with
  | Some (Loaded existing) =>
      if force args
      then after_write fs (dry_run args) dir (element_path n)
                       (merged_descriptor existing e)
      else dir !! element_path n
  | Some (LoadedOther true) => dir !! element_path n
  | Some (LoadedOther false) | None =>
      after_write fs (dry_run args) dir (element_path n) e
  end.

(** the counters of the summary *)
Inductive counter : Type :=
  | Created
  | Updated
  | Skipped.

(** an attempt to write the file [p] is counted: it is a dry run, or the
    write succeeds *)
Definition write_counts (fs : disk) (dry : bool) (p : string) : bool :=
  dry || is_written (fs p).

(** the counter the run increments for element [n], given the directory
    before the run; none when the write of its file fails *)
Definition counted (args : Args) (fs : disk) (dir : files) (n : string)
  : option counter :=
  match load_existing_element dir n with
  | Some (Loaded _) =>
      if force args
      then if write_counts fs (dry_run args) (element_path n) then Some Updated
           else None
      else Some Skipped
  | Some (LoadedOther true) => if force args then None else Some Skipped
  | Some (LoadedOther false) | None =>
      if write_counts fs (dry_run args) (element_path n) then Some Created
      else None
  end.

Definition counts (k : counter) (c : option counter) : bool :=
  match k, c with
  | Created, Some Created | Updated, Some Updated | Skipped, Some Skipped => true
  | _, _ => false
  end.

(** the number of elements for which the counter [k] is incremented *)
Definition tally (k : counter) (args : Args) (fs : disk) (dir : files)
    (els : PyDict.dict Descriptor) : nat :=
  length (List.filter (fun item => counts k (counted args fs dir item.1)) els).

(** under [--force] no file of an element holds a JSON value that is true
    but no descriptor: the run does not raise *)
Definition mergeable (args : Args) (dir : files) (els : PyDict.dict Descriptor) : Prop :=
  force args = true →
  ∀ n, n ∈ PyDict.keys els → dir !! element_path n ≠ Some (JsonOther true).

End RunVocabulary.

(** the elements directory a run leaves *)
Definition final_dir {R} (r : run R) : files :=
  match r with
  | Done _ dir => dir
  | Raised dir => dir
  end.

(** what a run returns, if it does *)
Definition returned {R} (r : run R) : option R :=
  match r with
  | Done x _ => Some x
  | Raised _ => None
  end.

(** the name carried by a descriptor file, if it is one *)
Definition name_of_file (f : option file) : option string :=
  match f with
  | Some (JsonDescriptor d) => Some (name d)
  | _ => None
  end.

(** [merged] has the hand-written text of [existing]: its non-empty
    description, and every attribute that has a non-empty description,
    unchanged *)
Definition keeps_hand_written (existing merged : Descriptor) : Prop :=
  (∀ s, description existing = Some s → s ≠ "" → description merged = Some s)
  ∧ (∀ n d s,
       PyDict.get n (default [] (attributes existing)) = Some d →
       attr_description d = Some s → s ≠ "" →
       PyDict.get n (default [] (attributes merged)) = Some d).

(** [merged] takes in the extraction [e]: its children and parents are the
    sorted set unions, an attribute only the extraction has is there as
    extracted, an attribute of [existing] without description has the
    extracted one, and so has the element itself *)
Definition takes_extraction (existing e merged : Descriptor) : Prop :=
  is_sorted_union (dchildren existing) (dchildren e) (dchildren merged)
  ∧ is_sorted_union (dparents existing) (dparents e) (dparents merged)
  ∧ (∀ k, PyDict.get k (default [] (attributes existing)) = None →
          PyDict.get k (default [] (attributes merged))
          = PyDict.get k (default [] (attributes e)))
  ∧ (∀ k d0 d,
       PyDict.get k (default [] (attributes existing)) = Some d0 →
       PyStr.truthy (attr_description d0) = false →
       PyDict.get k (default [] (attributes e)) = Some d →
       ∃ d', PyDict.get k (default [] (attributes merged)) = Some d'
             ∧ attr_description d' = Some (default "" (attr_description d)))
  ∧ (PyStr.truthy (description existing) = false →
     is_Some (description e) →
     description merged = description e).
(** ** update-from-xsd.py: fetching the schemas *)

(** The schemas come from the network or from the cache directory.  The
    network is a function from a URL to the bytes served and stored, or
    nothing when the request or the write of the cache file fails; the
    cache directory and the local files are maps from a name to the bytes
    stored; [parse] is [ET.parse] on those bytes. *)

Definition WIX_XSD_URLS : PyDict.dict string :=
  [ ("wxs", "https://raw.githubusercontent.com/wixtoolset/wix/main/src/xsd/wix.xsd");
    ("bal", "https://raw.githubusercontent.com/wixtoolset/wix/main/src/xsd/bal.xsd");
    ("util", "https://raw.githubusercontent.com/wixtoolset/wix/main/src/xsd/util.xsd");
    ("netfx", "https://raw.githubusercontent.com/wixtoolset/wix/main/src/xsd/netfx.xsd");
    ("ui", "https://raw.githubusercontent.com/wixtoolset/wix/main/src/xsd/ui.xsd") ].

Definition WIX_XSD_URLS_ALT : PyDict.dict string :=
  [ ("wxs", "https://wixtoolset.org/schemas/v4/wxs/wix.xsd") ].

Fixpoint url_filename_go (cur : string) (s : string) : string :=
  match s with
  | EmptyString => cur
  | String c s' =>
      if Ascii.eqb c "/" then url_filename_go "" s'
      else url_filename_go (cur +:+ String c "") s'
  end.

(** [url.split("/")[-1]] *)
Definition url_filename (url : string) : string := url_filename_go "" url.

Abbreviation cache_dir := (gmap string string).

(** [download_xsd]: the cache after the call and the path returned, a file
    name of the cache directory, or [None] *)
Definition download_xsd (net : string → option string) (url : string)
    (cache : cache_dir) : cache_dir * option string :=
  let filename := url_filename url in
  match cache !! filename with
  | Some _ => (cache, Some filename)
  | None =>
      match net url with
      | Some content => (<[filename := content]> cache, Some filename)
      | None => (cache, None)
      end
  end.

Section FetchStage.
Context {tables : PyStr.CaseMapping}.

(** [xsd_parser.parse_file(xsd_path, namespace)] for a path of the cache
    directory *)
Definition parse_cached (parse : string → parsed) (cache : cache_dir)
    (xsd_path : string) (ns : string) (xsd_parser : XsdParser.t) : XsdParser.t :=
  match cache !! xsd_path with
  | Some content => XsdParser.parse_file xsd_parser (parse content) ns
  | None => xsd_parser
  end.

(** the body of the loop over [WIX_XSD_URLS.items()] *)
Definition fetch_step (offline : bool) (parse : string → parsed)
    (net : string → option string)
    (st : cache_dir * XsdParser.t) (item : string * string)
  : cache_dir * XsdParser.t :=
  let '(cache, xsd_parser) := st in
  let '(namespace, url) := item in
  if offline then
    let xsd_path := url_filename url in
    match cache !! xsd_path with
    | None => (cache, xsd_parser)
    | Some _ => (cache, parse_cached parse cache xsd_path namespace xsd_parser)
    end
  else
    let '(cache, xsd_path) := download_xsd net url cache in
    let '(cache, xsd_path) :=
      match xsd_path with
      | Some p => (cache, Some p)
      | None =>
          match PyDict.get namespace WIX_XSD_URLS_ALT with
          | Some alt => download_xsd net alt cache
          | None => (cache, None)
          end
      end in
    match xsd_path with
    | Some p => (cache, parse_cached parse cache p namespace xsd_parser)
    | None => (cache, xsd_parser)
    end.

(** the command line: [--force], [--dry-run], [--offline], [--xsd PATH] *)
Record Cli : Type := mkCli {
  cli_force : bool;
  cli_dry_run : bool;
  cli_offline : bool;
  cli_xsd : option string
}.

(** [main] as a whole: the cache directory it leaves, and how it ends, with
    the exit status and the counts, and the elements directory.  [local]
    holds the files a [--xsd] path may name. *)
Definition main_cli (parse : string → parsed) (net : string → option string)
    (fs : disk) (args : Cli) (local : gmap string string) (cache : cache_dir)
    (dir : files) : cache_dir * run (nat * Summary) :=
  let flags := mkArgs (cli_force args) (cli_dry_run args) in
  match cli_xsd args with
  | Some path =>
      match local !! path with
      | Some content =>
          let xsd_parser := XsdParser.parse_file XsdParser.init (parse content) "wix" in
          (cache, process_elements flags fs xsd_parser dir)
      | None => (cache, Done (1, mkSummary 0 0 0) dir)
      end
  | None =>
      let '(cache, xsd_parser) :=
        foldl (fetch_step (cli_offline args) parse net)
              (cache, XsdParser.init) WIX_XSD_URLS in
      (cache, process_elements flags fs xsd_parser dir)
  end.

End FetchStage.

(** ** Specification vocabulary for the further properties *)

Section FurtherVocabulary.
Context {tables : PyStr.CaseMapping}.

(** the first pass of [parse_file]: the type and group tables of the
    document, added to those of the parser *)
Definition first_pass (self : XsdParser.t) (root : xml) : XsdParser.t :=
  let self :=
    foldl (fun self type_elem =>
             XsdParser.set_types
               (<[XsdParser.name_of type_elem :=
                    XsdParser._parse_complex_type self type_elem]>
                  (XsdParser.types self)) self)
          self (ET.findall_named (XsdParser.XS +:+ "complexType") root) in
  let self :=
    foldl (fun self type_elem =>
             XsdParser.set_types
               (<[XsdParser.name_of type_elem :=
                    XsdParser._parse_simple_type type_elem]>
                  (XsdParser.types self)) self)
          self (ET.findall_named (XsdParser.XS +:+ "simpleType") root) in
  foldl (fun self group_elem =>
           XsdParser.set_groups
             (<[XsdParser.name_of group_elem :=
                  XsdParser._parse_group group_elem]>
                (XsdParser.groups self)) self)
        self (ET.findall_named (XsdParser.XS +:+ "group") root).

(** the body of the second pass of [parse_file] *)
Definition second_pass_step (ns : string) (self : XsdParser.t) (elem : xml)
  : XsdParser.t :=
  match XsdParser._parse_element self elem ns with
  | Some element_def =>
      XsdParser.set_elements
        (PyDict.set (name element_def) element_def (XsdParser.elements self)) self
  | None => self
  end.

(** the top-level element declarations of a document *)
Definition top_elements (root : xml) : list xml :=
  ET.children (XsdParser.XS +:+ "element") root.

(** [elem] declares an element named [n] *)
Definition declares (n : string) (elem : xml) : bool :=
  bool_decide (ET.get "name" elem = Some n) && negb (String.eqb n "").

(** [e'] is [e] with another parents list *)
Definition only_parents_differ (e e' : Descriptor) : Prop :=
  e' = set_parents (parents e') e.

(** every listed parent is a known element that lists the entry as a child,
    and no parent is listed twice *)
Definition parents_sound (els : PyDict.dict Descriptor) : Prop :=
  ∀ c C, PyDict.get c els = Some C →
    NoDup (dparents C)
    ∧ ∀ p, p ∈ dparents C → ∃ P, PyDict.get p els = Some P ∧ c ∈ dchildren P.


(** the semantic kinds of an attribute *)
Definition kinds : list string :=
  ["string"; "yesno"; "integer"; "guid"; "version"; "enum"].

(** an attribute definition as [_parse_attribute] builds it: a kind, a
    required flag, a non-empty description, a default that is non-empty
    when there is one, and values exactly for an enum, at least one and
    none of them empty *)
Definition attr_well_formed (d : AttrDef) : Prop :=
  (∃ k, attr_type d = Some k ∧ k ∈ kinds)
  ∧ is_Some (attr_required d)
  ∧ PyStr.truthy (attr_description d) = true
  ∧ (∀ v, attr_default d = Some v → v ≠ "")
  ∧ (attr_type d = Some "enum" ↔ is_Some (attr_values d))
  ∧ (∀ vs, attr_values d = Some vs → vs ≠ [] ∧ "" ∉ vs).

Definition attrs_well_formed (attrs : PyDict.dict AttrDef) : Prop :=
  NoDup (PyDict.keys attrs)
  ∧ ∀ k d, PyDict.get k attrs = Some d → k ≠ "" ∧ attr_well_formed d.

Definition type_well_formed (ti : TypeInfo) : Prop :=
  match ti with
  | ComplexType attrs cs => attrs_well_formed attrs ∧ "" ∉ cs
  | SimpleType k vs =>
      (k = "enum" ∧ ∃ l, vs = Some l ∧ l ≠ [] ∧ "" ∉ l) ∨ (k = "string" ∧ vs = None)
  end.

(** a descriptor as [_parse_element] builds it, stored under [n] *)
Definition descriptor_well_formed (n : string) (e : Descriptor) : Prop :=
  name e = n ∧ n ≠ ""
  ∧ is_Some (namespace e)
  ∧ since e = Some "v4"
  ∧ documentation e
    = Some ("https://wixtoolset.org/docs/schema/wxs/" +:+ PyStr.lower n +:+ "/")
  ∧ PyStr.truthy (description e) = true
  ∧ is_Some (parents e)
  ∧ (∃ cs, children e = Some cs ∧ "" ∉ cs)
  ∧ (∃ attrs, attributes e = Some attrs ∧ attrs_well_formed attrs).

Definition parser_well_formed (s : XsdParser.t) : Prop :=
  (∀ tn ti, XsdParser.types s !! tn = Some ti → type_well_formed ti)
  ∧ (∀ g l, XsdParser.groups s !! g = Some l → "" ∉ l)
  ∧ (∀ n e, PyDict.get n (XsdParser.elements s) = Some e → descriptor_well_formed n e).

(** [x] is a named group called [G] *)
Definition names_group (G : string) (x : xml) : bool :=
  String.eqb (XsdParser.name_of x) G.

(** the file [p] holds what a run takes for an existing element: a
    descriptor, or another JSON value that is true *)
Definition held (dir : files) (p : string) : bool :=
  match dir !! p with
  | Some (JsonDescriptor _) | Some (JsonOther true) => true
  | Some (JsonOther false) | Some NotJson | None => false
  end.

(** the file system writes the file of every element of the table *)
Definition writable (fs : disk) (els : PyDict.dict Descriptor) : Prop :=
  ∀ n, n ∈ PyDict.keys els → fs (element_path n) = Written.

(** the type names a document defines, and those a run has seen *)
Definition type_names (root : xml) : list string :=
  XsdParser.name_of
    <$> (ET.findall_named (XsdParser.XS +:+ "complexType") root
         ++ ET.findall_named (XsdParser.XS +:+ "simpleType") root).

Definition group_names (root : xml) : list string :=
  XsdParser.name_of <$> ET.findall_named (XsdParser.XS +:+ "group") root.

Definition defined_types (docs : list (parsed * string)) : list string :=
  flat_map (fun d => match d.1 with
                     | Document root => type_names root
                     | ParseError => []
                     end) docs.

Definition defined_groups (docs : list (parsed * string)) : list string :=
  flat_map (fun d => match d.1 with
                     | Document root => group_names root
                     | ParseError => []
                     end) docs.

(** [x] is an attribute declaration named [a] *)
Definition declares_attribute (a : string) (x : xml) : bool :=
  bool_decide (ET.get "name" x = Some a) && negb (String.eqb a "").

(** the document [d] of a run declares an element named [n] *)
Definition declared_in (n : string) (d : parsed * string) : bool :=
  match d.1 with
  | Document root => existsb (declares n) (top_elements root)
  | ParseError => false
  end.

(** the names extract-xsd.py can resolve a type reference to: those of the
    complex types at the top level of the document *)
Definition top_type_names (root : xml) : list string :=
  omap (ET.get "name") (ET.children (ExtractXsd.XS_NS +:+ "complexType") root).

(** the names of the simple types of a document *)
Definition simple_type_names (root : xml) : list string :=
  omap (ET.get "name") (ET.findall (ExtractXsd.XS_NS +:+ "simpleType") root).

(** the documents an offline run reads: for each entry of the URL table
    whose file is in the cache, in table order, the parse of the cached
    bytes with the entry's namespace *)
Definition cached_docs (parse : string → parsed) (cache : cache_dir)
    (items : PyDict.dict string) : list (parsed * string) :=
  omap (fun item : string * string =>
          (fun content => (parse content, item.1)) <$> cache !! url_filename item.2)
       items.

(** the file names of the URL table *)
Definition url_filenames (items : PyDict.dict string) : list string :=
  (fun item : string * string => url_filename item.2) <$> items.

(** the alternative URL of a namespace names the same file as its URL *)
Definition alt_same_file (item : string * string) : Prop :=
  match PyDict.get item.1 WIX_XSD_URLS_ALT with
  | Some alt => url_filename alt = url_filename item.2
  | None => True
  end.

(** [content] is what the network serves for the entry: at its URL, or at
    the alternative URL of its namespace when the first request fails *)
Definition served (net : string → option string) (item : string * string)
    (content : string) : Prop :=
  net item.2 = Some content
  ∨ (net item.2 = None
     ∧ ∃ alt, PyDict.get item.1 WIX_XSD_URLS_ALT = Some alt ∧ net alt = Some content).

(** ** Specification vocabulary for extract-xsd.py *)

(** the kinds [parse_type_name] maps a declared type to *)
Definition base_kinds : list string :=
  ["string"; "integer"; "yesno"; "guid"; "version"].

(** an enumeration table as [extract_simple_types] builds it from [root]:
    every entry has a non-empty name, at least one value and no empty one,
    and is the value list of a simple type of that name in the document *)
Definition enum_table_of (root : xml) (simple_types : gmap string (list string)) : Prop :=
  ∀ n vs, simple_types !! n = Some vs →
    n ≠ "" ∧ vs ≠ [] ∧ ("" ∉ vs)
    ∧ ∃ st, st ∈ ET.findall (ExtractXsd.XS_NS +:+ "simpleType") root
            ∧ ET.get "name" st = Some n
            ∧ ExtractXsd.parse_enum_values st = vs.

(** a kind and the values that go with it *)
Definition kind_ok (kv : string * option (list string)) : Prop :=
  (kv.1 ∈ base_kinds ∨ kv.1 = "enum")
  ∧ (kv.1 = "enum" ↔ is_Some kv.2)
  ∧ ∀ vs, kv.2 = Some vs → vs ≠ [] ∧ "" ∉ vs.

(** an enumeration table whose entries have at least one value and no
    empty one *)
Definition enum_table_well_formed (simple_types : gmap string (list string)) : Prop :=
  ∀ n vs, simple_types !! n = Some vs → vs ≠ [] ∧ "" ∉ vs.

(** an attribute definition as [parse_attribute] builds it *)
Definition extract_attr_well_formed (d : AttrDef) : Prop :=
  (∃ k, attr_type d = Some k ∧ (k ∈ base_kinds ∨ k = "enum"))
  ∧ is_Some (attr_required d)
  ∧ is_Some (attr_description d)
  ∧ (∀ v, attr_default d = Some v → v ≠ "")
  ∧ (attr_type d = Some "enum" ↔ is_Some (attr_values d))
  ∧ (∀ vs, attr_values d = Some vs → vs ≠ [] ∧ "" ∉ vs).

(** a descriptor as [parse_element] of extract-xsd.py builds it *)
Definition extract_descriptor_well_formed (e : Descriptor) : Prop :=
  name e ≠ ""
  ∧ namespace e = Some "wix"
  ∧ since e = Some "v4"
  ∧ is_Some (description e)
  ∧ documentation e
    = Some ("https://wixtoolset.org/docs/schema/wxs/" +:+ PyStr.lower (name e) +:+ "/")
  ∧ parents e = Some []
  ∧ (∃ cs, children e = Some cs ∧ NoDup cs)
  ∧ (∃ attrs, attributes e = Some attrs
              ∧ NoDup (PyDict.keys attrs)
              ∧ ∀ k d, PyDict.get k attrs = Some d →
                       k ≠ "" ∧ extract_attr_well_formed d).

(** the descriptor is saved in the file [p] *)
Definition saved_in (p : string) (e : Descriptor) : bool :=
  bool_decide (element_path (name e) = p).

(** the descriptors extract-xsd.py extracts from a document *)
Definition extracted_from (root : xml) : list Descriptor :=
  ExtractXsd.extract_elements root (ExtractXsd.extract_simple_types root).

(** the extracted table writes each element to a file of its own *)
Definition distinct_files (els : PyDict.dict Descriptor) : Prop :=
  NoDup (element_path <$> PyDict.keys els).

End FurtherVocabulary.

(** ** Specification vocabulary for documentation text *)

Definition is_some {A} (o : option A) : bool :=
  match o with
  | Some _ => true
  | None => false
  end.

(** no white-space character starts anywhere in [w] when [s] follows it *)
Fixpoint clear (w s : string) : bool :=
  match w with
  | EmptyString => true
  | String c w' => negb (is_some (PyStr.skip_space (w +:+ s))) && clear w' s
  end.

(** a word of [s.split()]: not empty, no white space in it *)
Definition is_word (w : string) : Prop := w ≠ "" ∧ clear w "" = true.

(** ** Further samples *)

Module Sample2.

(** one element [Foo] with a required string attribute [Bar] and an
    attribute [Baz] of the enumerated type [BazType] *)
Definition foo_schema : xml :=
  Sample.xs "schema" []
    [ Sample.xs "simpleType" [("name", "BazType")]
        [ Sample.xs "restriction" [("base", "xs:string")]
            [ Sample.xs "enumeration" [("value", "a")] [];
              Sample.xs "enumeration" [("value", "b")] [] ] ];
      Sample.xs "element" [("name", "Foo")]
        [ Sample.xs "complexType" []
            [ Sample.xs "attribute"
                [("name", "Bar"); ("type", "xs:string"); ("use", "required")] [];
              Sample.xs "attribute" [("name", "Baz"); ("type", "BazType")] [] ] ] ].

(** an element [Foo] documented with text that has line breaks and runs of
    blanks *)
Definition documented : xml :=
  Sample.xs "schema" []
    [ Sample.xs "element" [("name", "Foo")]
        [ Sample.xs "annotation" []
            [ Node (XsdParser.XS +:+ "documentation") []
                   (Some "  The   Foo
   element. ") None [] ] ] ].

(** documentation that begins with markup: the text of the element itself
    is absent, its words are in a child and in the tail of the child, and
    an ideographic space is between two of them *)
Definition marked_up : xml :=
  Sample.xs "element" [("name", "Foo")]
    [ Sample.xs "annotation" []
        [ Node (XsdParser.XS +:+ "documentation") [] None None
            [ Node "{http://www.w3.org/1999/xhtml}b" [] (Some "bold　text")
                   (Some "  tail ") [] ] ] ].

(** the type [T] of [Orphan] is defined in an earlier document of the run,
    not in the document that declares [Orphan] *)
Definition defines_type : xml :=
  Sample.xs "schema" []
    [ Sample.xs "complexType" [("name", "T")]
        [ Sample.xs "sequence" [] [ Sample.xs "element" [("ref", "Kid")] [] ];
          Sample.xs "attribute" [("name", "Id")] [] ] ].

Definition uses_type : xml :=
  Sample.xs "schema" []
    [ Sample.xs "element" [("name", "Orphan"); ("type", "T")] [] ].

(** an element with an inline type that has an attribute of a type no one
    defines and a reference to a group no one defines *)
Definition loose : xml :=
  Sample.xs "element" [("name", "Loose")]
    [ Sample.xs "complexType" []
        [ Sample.xs "sequence" []
            [ Sample.xs "element" [("ref", "Kid")] [];
              Sample.xs "group" [("ref", "NoGroup")] [] ];
          Sample.xs "attribute" [("name", "Odd"); ("type", "NoType")] [] ] ].

Definition unknown_parts : xml := Sample.xs "schema" [] [loose].

(** the declaration of [Orphan] in [Sample.undefined_type] *)
Definition orphan : xml :=
  Sample.xs "element" [("name", "Orphan"); ("type", "MissingType")] [].

(** a file system that refuses the file of [Inner] *)
Definition refuses_inner : disk :=
  fun p => if String.eqb p "inner.json" then Refused else Written.

(** a file system on which every write succeeds *)
Definition sound_disk : disk := fun _ => Written.

End Sample2.
(** * Properties *)

(** ** Dictionaries *)

Section DictFacts.
Context {V : Type}.
Implicit Types (d : PyDict.dict V) (k : string) (v : V).

Lemma dict_get_set k k' v d :
  PyDict.get k (PyDict.set k' v d) = if String.eqb k k' then Some v else PyDict.get k d.
Proof.
  induction d as [|[k0 v0] d IH]; simpl.
  - destruct (String.eqb_spec k k'); reflexivity.
  - destruct (String.eqb_spec k' k0) as [->|Hne]; simpl.
    + destruct (String.eqb_spec k k0); reflexivity.
    + rewrite IH. destruct (String.eqb_spec k k') as [->|]; [|reflexivity].
      destruct (String.eqb_spec k' k0); [contradiction|reflexivity].
Qed.

Lemma dict_get_set_eq k v d : PyDict.get k (PyDict.set k v d) = Some v.
Proof. rewrite dict_get_set, String.eqb_refl. reflexivity. Qed.

Lemma dict_get_set_ne k k' v d :
  k ≠ k' → PyDict.get k (PyDict.set k' v d) = PyDict.get k d.
Proof.
  intros Hne. rewrite dict_get_set.
  destruct (String.eqb_spec k k'); [contradiction|reflexivity].
Qed.

Lemma dict_get_Some_keys k v d : PyDict.get k d = Some v → k ∈ PyDict.keys d.
Proof.
  induction d as [|[k0 v0] d IH]; simpl; [discriminate|].
  destruct (String.eqb_spec k k0) as [->|]; intros H.
  - apply list_elem_of_here.
  - apply list_elem_of_further, IH, H.
Qed.

Lemma dict_keys_get k d : k ∈ PyDict.keys d → is_Some (PyDict.get k d).
Proof.
  induction d as [|[k0 v0] d IH]; simpl.
  - intros H. inversion H.
  - intros H. destruct (String.eqb_spec k k0); [eauto|].
    apply IH. inversion H; subst; [contradiction|assumption].
Qed.

End DictFacts.

(** ** Relationship resolution *)

Section Resolver.
Context {tables : PyStr.CaseMapping}.
Import XsdParser.
Implicit Types (els : PyDict.dict Descriptor) (n c k : string).

Lemma grows_refl e : grows e e.
Proof. repeat split; done. Qed.

Lemma grows_trans e1 e2 e3 : grows e1 e2 → grows e2 e3 → grows e1 e3.
Proof.
  intros (?&?&?&?&?) (?&?&?&?&?). repeat split; try congruence.
  etrans; eassumption.
Qed.

Lemma extends_refl els : extends els els.
Proof. intros k. destruct (PyDict.get k els); constructor. apply grows_refl. Qed.

Lemma extends_trans els1 els2 els3 :
  extends els1 els2 → extends els2 els3 → extends els1 els3.
Proof.
  intros H12 H23 k. specialize (H12 k). specialize (H23 k).
  destruct H12; inversion H23; subst; constructor.
  eapply grows_trans; eassumption.
Qed.

Lemma add_parent_extends n c els : extends els (add_parent n c els).
Proof.
  unfold add_parent. destruct (PyDict.get c els) as [child|] eqn:Hc;
    [|apply extends_refl].
  case_bool_decide; [apply extends_refl|].
  intros k. rewrite dict_get_set. destruct (String.eqb_spec k c) as [->|].
  - rewrite Hc. constructor. repeat split. unfold dparents; simpl.
    intros x Hx. apply elem_of_app. by left.
  - destruct (PyDict.get k els); constructor. apply grows_refl.
Qed.

Lemma add_parent_records n c els child :
  PyDict.get c (add_parent n c els) = Some child → n ∈ dparents child.
Proof.
  unfold add_parent. destruct (PyDict.get c els) as [child0|] eqn:Hc;
    [|congruence].
  case_bool_decide as Hin.
  - rewrite Hc. by intros [= <-].
  - rewrite dict_get_set_eq. intros [= <-]. unfold dparents; simpl.
    apply elem_of_app. right. apply list_elem_of_here.
Qed.

Lemma fold_add_parent_extends n cs els :
  extends els (foldl (fun els c => add_parent n c els) els cs).
Proof.
  revert els. induction cs as [|c cs IH]; intros els; simpl.
  - apply extends_refl.
  - eapply extends_trans; [apply add_parent_extends|apply IH].
Qed.

Lemma fold_add_parent_records n cs els c child :
  c ∈ cs →
  PyDict.get c (foldl (fun els c => add_parent n c els) els cs) = Some child →
  n ∈ dparents child.
Proof.
  revert els. induction cs as [|c0 cs IH]; intros els Hin Hget; simpl in *.
  - inversion Hin.
  - apply elem_of_cons in Hin as [->|Hin]; [|by eapply IH].
    pose proof (fold_add_parent_extends n cs (add_parent n c0 els) c0) as Hext.
    rewrite Hget in Hext. inversion Hext as [e0 e1 Hg Heq0 Heq1|]; subst.
    symmetry in Heq0. apply add_parent_records in Heq0.
    destruct Hg as (_&_&_&_&Hsub). by apply Hsub.
Qed.

Lemma resolve_one_extends els n : extends els (resolve_one els n).
Proof.
  unfold resolve_one. destruct (PyDict.get n els);
    [apply fold_add_parent_extends|apply extends_refl].
Qed.

Lemma recorded_extends n els els' : extends els els' → recorded n els → recorded n els'.
Proof.
  intros Hext Hrec P' c C' HP' Hc HC'.
  pose proof (Hext n) as Hn. rewrite HP' in Hn.
  inversion Hn as [P ? HgP HeqP|]; subst.
  pose proof (Hext c) as Hcc. rewrite HC' in Hcc.
  inversion Hcc as [C ? HgC HeqC|]; subst.
  destruct HgP as (_&Hch&_). destruct HgC as (_&_&_&_&Hsub).
  apply Hsub. eapply (Hrec P c C); try done.
  unfold dchildren in *. by rewrite <- Hch.
Qed.

Lemma resolve_one_recorded els n : recorded n (resolve_one els n).
Proof.
  intros P' c C' HP' Hc HC'.
  pose proof (resolve_one_extends els n n) as Hn. rewrite HP' in Hn.
  inversion Hn as [P ? HgP HeqP|]; subst. symmetry in HeqP.
  unfold resolve_one in HC'. rewrite HeqP in HC'.
  eapply fold_add_parent_records; [|exact HC'].
  destruct HgP as (_&Hch&_). unfold dchildren in Hc. by rewrite Hch in Hc.
Qed.

Lemma fold_resolve_extends ks els : extends els (foldl resolve_one els ks).
Proof.
  revert els. induction ks as [|k ks IH]; intros els; simpl.
  - apply extends_refl.
  - eapply extends_trans; [apply resolve_one_extends|apply IH].
Qed.

Lemma fold_resolve_recorded ks els n :
  n ∈ ks → recorded n (foldl resolve_one els ks).
Proof.
  revert els. induction ks as [|k ks IH]; intros els Hin; simpl.
  - inversion Hin.
  - apply elem_of_cons in Hin as [->|Hin]; [|by apply IH].
    eapply recorded_extends; [apply fold_resolve_extends|].
    apply resolve_one_recorded.
Qed.

(** The resolver on an arbitrary table, entries named by their keys. *)
Lemma resolve_relationships_inverse (self : XsdParser.t) n P c C :
  let els := elements (resolve_relationships self) in
  PyDict.get n els = Some P → c ∈ dchildren P →
  PyDict.get c els = Some C → n ∈ dparents C.
Proof.
  simpl. intros HP Hc HC.
  eapply (fold_resolve_recorded (PyDict.keys (elements self))); eauto.
  pose proof (fold_resolve_extends (PyDict.keys (elements self)) (elements self) n) as Hn.
  rewrite HP in Hn. inversion Hn as [P0 ? _ HeqP|]; subst.
  symmetry in HeqP. eapply dict_get_Some_keys, HeqP.
Qed.

Lemma foldl_invariant {S X} (I : S → Prop) (f : S → X → S) (l : list X) (s : S) :
  (∀ s x, I s → I (f s x)) → I s → I (foldl f s l).
Proof. intros Hstep. revert s. induction l; simpl; auto. Qed.

Lemma parse_file_keyed self doc ns :
  keyed (elements self) → keyed (elements (parse_file self doc ns)).
Proof.
  destruct doc as [|root]; [done|]. unfold parse_file. intros Hk.
  apply (foldl_invariant (fun s => keyed (elements s))).
  { intros s x Hs. destruct (_parse_element s x ns) as [d|]; [|done].
    simpl. intros n e. rewrite dict_get_set.
    destruct (String.eqb_spec n (name d)) as [->|]; [by intros [= <-]|apply Hs]. }
  repeat (apply (foldl_invariant (fun s => keyed (elements s))); [by intros|]).
  exact Hk.
Qed.

Lemma parse_all_keyed docs : keyed (elements (parse_all docs)).
Proof.
  unfold parse_all.
  apply (foldl_invariant (fun s => keyed (elements s))).
  - intros s [doc ns]. apply parse_file_keyed.
  - intros n e. discriminate.
Qed.

Lemma extends_keyed els els' : extends els els' → keyed els → keyed els'.
Proof.
  intros Hext Hk n e' He'. pose proof (Hext n) as Hn. rewrite He' in Hn.
  inversion Hn as [e ? (Hname&_) Heq|]; subst. rewrite Hname. by apply Hk.
Qed.

End Resolver.

(** C1. After relationship resolution over the descriptors of a parse run,
    every descriptor [P] of the table is stored under its own name, and for
    every name [c] among [P]'s children that is the name of a known
    descriptor [C], the name of [P] occurs in the parents of [C]. *)
Theorem parents_inverse_of_children {tables : PyStr.CaseMapping}
    (docs : list (parsed * string)) (n : string) (P : Descriptor)
    (c : string) (C : Descriptor) :
  let els := XsdParser.elements (XsdParser.resolve_relationships (parse_all docs)) in
  PyDict.get n els = Some P →
  c ∈ dchildren P →
  PyDict.get c els = Some C →
  name P = n ∧ name P ∈ dparents C.
Proof.
  intros els HP Hc HC.
  assert (name P = n) as Hn.
  { eapply (extends_keyed _ els); [apply fold_resolve_extends| |exact HP].
    apply parse_all_keyed. }
  split; [exact Hn|]. rewrite Hn.
  eapply resolve_relationships_inverse; eauto.
Qed.

Lemma parents_inverse_of_children_witness :
  let tables := PyStr.ascii_case in
  ∃ P C,
    let els := XsdParser.elements
                 (XsdParser.resolve_relationships
                    (parse_all [(Document Sample.inline_group, "wix")])) in
    PyDict.get "Outer" els = Some P ∧ PyDict.get "Inner" els = Some C
    ∧ name P = "Outer" ∧ name P ∈ dparents C.
Proof.
  intros tables.
  eexists _, _. split; [vm_compute; reflexivity|]. split; [vm_compute; reflexivity|].
  eapply (parents_inverse_of_children
            [(Document Sample.inline_group, "wix")] "Outer" _ "Inner" _).
  - vm_compute. reflexivity.
  - vm_compute. apply list_elem_of_here.
  - vm_compute. reflexivity.
Defined.

(** ** Sorted set union *)

Section SortedUnion.
Implicit Types (xs ys l : list string).

Lemma elem_of_fold_add (s : gset string) ys x :
  x ∈ foldl (fun s y => {[y]} ∪ s) s ys ↔ x ∈ s ∨ x ∈ ys.
Proof.
  revert s. induction ys as [|y ys IH]; intros s; simpl.
  - split; [by left|]. intros [?|H]; [done|inversion H].
  - rewrite IH, elem_of_union, elem_of_singleton, elem_of_cons. tauto.
Qed.

Lemma sorted_union_Permutation xs ys :
  sorted_union xs ys
    ≡ₚ elements (foldl (fun (s : gset string) y => {[y]} ∪ s) (list_to_set xs) ys).
Proof. apply merge_sort_Permutation. Qed.

Lemma elem_of_sorted_union xs ys x : x ∈ sorted_union xs ys ↔ x ∈ xs ∨ x ∈ ys.
Proof.
  rewrite sorted_union_Permutation, elem_of_elements, elem_of_fold_add.
  by rewrite elem_of_list_to_set.
Qed.

Lemma NoDup_sorted_union xs ys : NoDup (sorted_union xs ys).
Proof. rewrite sorted_union_Permutation. apply NoDup_elements. Qed.

Lemma sorted_union_spec xs ys : is_sorted_union xs ys (sorted_union xs ys).
Proof.
  split; [|split].
  - apply (StronglySorted_merge_sort String.le).
  - apply NoDup_sorted_union.
  - apply elem_of_sorted_union.
Qed.

(** the three conditions determine the list: the result does not depend on
    the order in which a set is iterated *)
Lemma is_sorted_union_unique xs ys l1 l2 :
  is_sorted_union xs ys l1 → is_sorted_union xs ys l2 → l1 = l2.
Proof.
  intros (Hs1&Hn1&Hm1) (Hs2&Hn2&Hm2).
  apply (StronglySorted_unique String.le); [done..|].
  apply NoDup_Permutation; [done..|]. intros x. by rewrite Hm1, Hm2.
Qed.

Lemma sorted_union_length_distinct xs ys :
  (length (remove_dups xs) ≤ length (sorted_union xs ys))%nat.
Proof.
  apply submseteq_length, NoDup_submseteq; [apply NoDup_remove_dups|].
  intros x Hx. apply elem_of_sorted_union. left. by apply elem_of_remove_dups.
Qed.

Lemma sorted_union_length_NoDup xs ys :
  NoDup xs → (length xs ≤ length (sorted_union xs ys))%nat.
Proof.
  intros Hnd. apply submseteq_length, NoDup_submseteq; [done|].
  intros x Hx. apply elem_of_sorted_union. by left.
Qed.

End SortedUnion.

(** ** The attribute loop of the merge *)

Section MergeFrame.
Implicit Types (σ : Store.t) (a l : Store.loc).

Lemma keeps_prose_refl σ : keeps_prose σ σ.
Proof. split; [intros l; repeat split|by intros]. Qed.

Lemma keeps_prose_trans σ1 σ2 σ3 :
  keeps_prose σ1 σ2 → keeps_prose σ2 σ3 → keeps_prose σ1 σ3.
Proof.
  intros [Hd12 Hm12] [Hd23 Hm23]. split.
  - intros l. destruct (Hd12 l) as (?&?&?&?&Hp12), (Hd23 l) as (?&?&?&?&Hp23).
    repeat split; try congruence.
    intros Ht. rewrite Hp23; [by apply Hp12|]. rewrite Hp12; done.
  - intros a n d H. by apply Hm23, Hm12.
Qed.

Lemma merge_attr_keeps_prose a σ item : keeps_prose σ (merge_attr a σ item).
Proof.
  destruct item as [n d]. unfold merge_attr.
  destruct (PyDict.get n (Store.attr_maps σ a)) as [d0|] eqn:Hget.
  - destruct (PyStr.truthy (attr_description (Store.attr_defs σ d0))) eqn:Ht;
      [apply keeps_prose_refl|].
    split; [|by intros]. intros l. simpl.
    destruct (decide (d0 = l)) as [->|Hne].
    + rewrite fn_lookup_insert. simpl. repeat split. congruence.
    + rewrite fn_lookup_insert_ne by done. repeat split.
  - split; [intros l; repeat split|]. intros a' n' d' H. simpl.
    destruct (decide (a = a')) as [->|Hne].
    + rewrite fn_lookup_insert, dict_get_set.
      destruct (String.eqb_spec n' n) as [->|]; [congruence|done].
    + by rewrite fn_lookup_insert_ne.
Qed.

Lemma fold_merge_attr_keeps_prose a items σ :
  keeps_prose σ (foldl (merge_attr a) σ items).
Proof.
  revert σ. induction items as [|item items IH]; intros σ; simpl.
  - apply keeps_prose_refl.
  - eapply keeps_prose_trans; [apply merge_attr_keeps_prose|apply IH].
Qed.

(** with an attributes mapping in the existing descriptor, the whole
    merge only runs the attribute loop on the store *)
Lemma merge_element_store σ existing extracted a :
  attributes existing = Some a →
  (merge_element σ existing extracted).1
    = foldl (merge_attr a) σ (extracted_items σ extracted)
  ∧ attributes (merge_element σ existing extracted).2 = Some a.
Proof. intros Ha. unfold merge_element. rewrite Ha. done. Qed.

Lemma merge_element_store_None σ existing extracted :
  attributes existing = None →
  (merge_element σ existing extracted).1
    = foldl (merge_attr (Store.next σ)) (Store.alloc_map [] σ).1
            (extracted_items (Store.alloc_map [] σ).1 extracted)
  ∧ attributes (merge_element σ existing extracted).2 = Some (Store.next σ).
Proof. intros Ha. unfold merge_element. rewrite Ha. done. Qed.

Lemma merge_element_defs_frame σ existing extracted l :
  let σ' := (merge_element σ existing extracted).1 in
  attr_type (Store.attr_defs σ' l) = attr_type (Store.attr_defs σ l)
  ∧ attr_required (Store.attr_defs σ' l) = attr_required (Store.attr_defs σ l)
  ∧ attr_default (Store.attr_defs σ' l) = attr_default (Store.attr_defs σ l)
  ∧ attr_values (Store.attr_defs σ' l) = attr_values (Store.attr_defs σ l)
  ∧ (PyStr.truthy (attr_description (Store.attr_defs σ l)) = true →
     attr_description (Store.attr_defs σ' l) = attr_description (Store.attr_defs σ l)).
Proof.
  unfold merge_element. destruct (attributes existing) as [a|]; simpl.
  - apply (fold_merge_attr_keeps_prose a).
  - match goal with |- context [foldl (merge_attr ?a) ?s ?i] =>
      apply (fold_merge_attr_keeps_prose a i s) end.
Qed.

End MergeFrame.

Lemma truthy_Some s : s ≠ "" → PyStr.truthy (Some s) = true.
Proof. intros Hs. simpl. by destruct (String.eqb_spec s ""). Qed.

(** C2. Merging extracted data into an existing descriptor never changes a
    non-empty description: the element's own description reaches the result
    unchanged, and every attribute of the existing descriptor is still,
    after the merge, the same definition object under the same name with
    the same description. *)
Theorem merge_keeps_descriptions (σ : Store.t) (existing extracted : ElementObj) :
  let σ' := (merge_element σ existing extracted).1 in
  let result := (merge_element σ existing extracted).2 in
  (∀ s, description existing = Some s → s ≠ "" → description result = Some s)
  ∧ (∀ a n d s,
       attributes existing = Some a →
       PyDict.get n (Store.attr_maps σ a) = Some d →
       attr_description (Store.attr_defs σ d) = Some s → s ≠ "" →
       attributes result = Some a
       ∧ PyDict.get n (Store.attr_maps σ' a) = Some d
       ∧ attr_description (Store.attr_defs σ' d) = Some s).
Proof.
  split.
  - intros s Hd Hs. unfold merge_element.
    destruct (attributes existing); simpl; rewrite Hd, (truthy_Some s Hs);
      rewrite andb_false_r; exact Hd.
  - intros a n d s Ha Hn Hd Hs.
    destruct (merge_element_store σ existing extracted a Ha) as [Hσ Hattr].
    split; [exact Hattr|]. rewrite Hσ.
    destruct (fold_merge_attr_keeps_prose a (extracted_items σ extracted) σ)
      as [Hdefs Hmaps].
    split; [by apply Hmaps|].
    destruct (Hdefs d) as (_&_&_&_&Hp). rewrite Hp; [done|].
    rewrite Hd. by apply truthy_Some.
Qed.

Lemma merge_keeps_descriptions_witness :
  let r := merge_element Sample.store Sample.existing_obj Sample.extracted_obj in
  description r.2 = Some "Hand-written element text."
  ∧ attributes r.2 = Some 2
  ∧ PyDict.get "Id" (Store.attr_maps r.1 2) = Some 0
  ∧ attr_description (Store.attr_defs r.1 0) = Some "Hand-written text.".
Proof.
  destruct (merge_keeps_descriptions
              Sample.store Sample.existing_obj Sample.extracted_obj) as [He Ha].
  split.
  - apply He; [vm_compute; reflexivity|discriminate].
  - apply (Ha 2 "Id" 0 "Hand-written text."); [vm_compute; reflexivity..|discriminate].
Defined.

(** C6. The merged children are the sorted set union of the existing and the
    extracted children, and likewise the parents.  No name is dropped: the
    merged list is at least as long as the list of distinct existing names,
    hence as the existing list itself when that has no repetition. *)
Theorem merge_unions_children_and_parents
    (σ : Store.t) (existing extracted : ElementObj) :
  let result := (merge_element σ existing extracted).2 in
  ∃ cs ps,
    children result = Some cs ∧ parents result = Some ps
    ∧ is_sorted_union (dchildren existing) (dchildren extracted) cs
    ∧ is_sorted_union (dparents existing) (dparents extracted) ps
    ∧ (length (remove_dups (dchildren existing)) ≤ length cs)%nat
    ∧ (length (remove_dups (dparents existing)) ≤ length ps)%nat
    ∧ (NoDup (dchildren existing) → (length (dchildren existing) ≤ length cs)%nat)
    ∧ (NoDup (dparents existing) → (length (dparents existing) ≤ length ps)%nat).
Proof.
  exists (sorted_union (dchildren existing) (dchildren extracted)),
         (sorted_union (dparents existing) (dparents extracted)).
  split; [unfold merge_element; by destruct (attributes existing)|].
  split; [unfold merge_element; by destruct (attributes existing)|].
  split; [apply sorted_union_spec|]. split; [apply sorted_union_spec|].
  split; [apply sorted_union_length_distinct|].
  split; [apply sorted_union_length_distinct|].
  split; apply sorted_union_length_NoDup.
Qed.

Lemma merge_unions_children_and_parents_witness :
  let result := (merge_element Sample.store Sample.existing_obj Sample.extracted_obj).2 in
  ∃ cs ps,
    children result = Some cs ∧ parents result = Some ps
    ∧ is_sorted_union ["File"; "Custom"] ["File"; "RegistryKey"] cs
    ∧ is_sorted_union ["Directory"] ["Fragment"; "Directory"] ps
    ∧ (2 ≤ length cs)%nat ∧ (1 ≤ length ps)%nat.
Proof.
  destruct (merge_unions_children_and_parents
              Sample.store Sample.existing_obj Sample.extracted_obj)
    as (cs & ps & Hc & Hp & Hcs & Hps & _ & _ & Hlc & Hlp).
  exists cs, ps. repeat split; try assumption; try apply Hcs; try apply Hps.
  - apply Hlc. compute_done.
  - apply Hlp. compute_done.
Defined.

(** C6, as stated, fails on a list with a repeated name: merging the
    descriptor written for [Outer] of [Sample.doubled_child], whose
    children are [A; A], with a new extraction of the same element leaves
    one child where there were two. *)
Lemma merge_shrinks_repeated_children :
  let ex := (load_object Store.empty Sample.doubled_outer).2 in
  let σ := (load_object (load_object Store.empty Sample.doubled_outer).1
                        Sample.doubled_outer).1 in
  let el := (load_object (load_object Store.empty Sample.doubled_outer).1
                         Sample.doubled_outer).2 in
  dchildren ex = ["A"; "A"]
  ∧ dchildren (merge_element σ ex el).2 = ["A"]
  ∧ ¬ (length (dchildren ex) ≤ length (dchildren (merge_element σ ex el).2))%nat.
Proof. vm_compute. repeat split. lia. Qed.

(** ** The attribute loop on separated arguments *)

Section MergeLoop.
Variable a : Store.loc.
Implicit Types (σ : Store.t) (items : PyDict.dict Store.loc).

Lemma dict_get_elem {V} k (v : V) (d : PyDict.dict V) :
  PyDict.get k d = Some v → (k, v) ∈ d.
Proof.
  induction d as [|[k0 v0] d IH]; simpl; [discriminate|].
  destruct (String.eqb_spec k k0) as [->|]; intros H.
  - injection H as ->. apply list_elem_of_here.
  - apply list_elem_of_further, IH, H.
Qed.

Lemma dict_elem_get {V} k (v : V) (d : PyDict.dict V) :
  NoDup (PyDict.keys d) → (k, v) ∈ d → PyDict.get k d = Some v.
Proof.
  induction d as [|[k0 v0] d IH]; simpl; intros Hnd Hin; [inversion Hin|].
  apply NoDup_cons in Hnd as [Hk0 Hnd].
  apply elem_of_cons in Hin as [[= -> ->]|Hin].
  - by rewrite String.eqb_refl.
  - destruct (String.eqb_spec k k0) as [->|]; [|by apply IH].
    exfalso. apply Hk0. apply list_elem_of_fmap. by exists (k0, v).
Qed.

Lemma NoDup_snd_elem {K V} (l : list (K * V)) k1 k2 v :
  NoDup l.*2 → (k1, v) ∈ l → (k2, v) ∈ l → k1 = k2.
Proof.
  induction l as [|[k0 v0] l IH]; simpl; intros Hnd H1 H2; [inversion H1|].
  apply NoDup_cons in Hnd as [Hv0 Hnd].
  assert (∀ k, (k, v0) ∈ l → False) as Hno.
  { intros k Hk. apply Hv0. apply list_elem_of_fmap. by exists (k, v0). }
  apply elem_of_cons in H1 as [H1|H1]; apply elem_of_cons in H2 as [H2|H2];
    simplify_eq; try done; try (exfalso; by eauto).
  by apply IH.
Qed.

Lemma separated_loop σ items : separated σ a items → loop_separated σ a items.
Proof.
  intros (Hnd & Hinj & Hdisj). split; [done|]. split.
  - intros n1 n2 d H1 H2 _ _.
    eapply NoDup_snd_elem; [exact Hinj|by apply dict_get_elem..].
  - intros n d n' d' Hn _ Hin ->.
    rewrite Forall_forall in Hdisj. apply (Hdisj d').
    + apply list_elem_of_fmap. by exists (n', d').
    + apply list_elem_of_fmap. exists (n, d'). split; [done|by apply dict_get_elem].
Qed.

Lemma loop_separated_tail σ σ1 n d items :
  loop_separated σ a ((n, d) :: items) →
  (∀ k, k ≠ n → PyDict.get k (Store.attr_maps σ1 a) = PyDict.get k (Store.attr_maps σ a)) →
  loop_separated σ1 a items.
Proof.
  intros (Hnd & Hinj & Hdisj) Hsame.
  apply NoDup_cons in Hnd as [Hn Hnd].
  assert (∀ k, k ∈ PyDict.keys items → k ≠ n) as Hne by (intros k Hk ->; done).
  split; [done|]. split.
  - intros n1 n2 d0 H1 H2 Hk1 Hk2.
    rewrite Hsame in H1 by auto. rewrite Hsame in H2 by auto.
    eapply Hinj; eauto; by apply list_elem_of_further.
  - intros k d0 k' d' Hk Hin Hin'. rewrite Hsame in Hk by auto.
    eapply Hdisj; eauto; by apply list_elem_of_further.
Qed.

Lemma fold_merge_attr_effect items σ :
  loop_separated σ a items → loop_effect a items σ (foldl (merge_attr a) σ items).
Proof.
  revert σ. induction items as [|[n d] items IH]; intros σ Hsep.
  { repeat split; simpl; [|discriminate].
    intros k. by destruct (PyDict.get k (Store.attr_maps σ a)). }
  pose proof Hsep as (Hnd & Hinj & Hdisj).
  apply NoDup_cons in Hnd as [Hn Hnd].
  assert (∀ k, k ∈ PyDict.keys items → k ≠ n) as Hne by (intros k Hk ->; done).
  assert (n ∈ PyDict.keys ((n, d) :: items)) as Hnin by apply list_elem_of_here.
  change (foldl (merge_attr a) σ ((n, d) :: items))
    with (foldl (merge_attr a) (merge_attr a σ (n, d)) items).
  set (σ1 := merge_attr a σ (n, d)).
  (* what the step for [(n, d)] does *)
  assert (∀ k, k ≠ n →
               PyDict.get k (Store.attr_maps σ1 a) = PyDict.get k (Store.attr_maps σ a))
    as Hmap_ne.
  { intros k Hk. unfold σ1, merge_attr.
    destruct (PyDict.get n (Store.attr_maps σ a)) as [d0|].
    - by destruct (PyStr.truthy _).
    - simpl. rewrite fn_lookup_insert. by apply dict_get_set_ne. }
  destruct (IH σ1 (loop_separated_tail σ σ1 n d items Hsep Hmap_ne))
    as (Hi & Hii & Hiii).
  destruct (PyDict.get n (Store.attr_maps σ a)) as [d0|] eqn:Hget.
  - (* the name is known: the mapping stays, [d0] may get a description *)
    assert (Store.attr_maps σ1 a = Store.attr_maps σ a) as Hmap.
    { unfold σ1, merge_attr. rewrite Hget. by destruct (PyStr.truthy _). }
    assert (∀ l, l ≠ d0 → Store.attr_defs σ1 l = Store.attr_defs σ l) as Hdef_ne.
    { intros l Hl. unfold σ1, merge_attr. rewrite Hget.
      destruct (PyStr.truthy _); [done|]. simpl. by rewrite fn_lookup_insert_ne. }
    assert (attr_description (Store.attr_defs σ1 d0)
            = if PyStr.truthy (attr_description (Store.attr_defs σ d0))
              then attr_description (Store.attr_defs σ d0)
              else Some (default "" (attr_description (Store.attr_defs σ d))))
      as Hdef_eq.
    { unfold σ1, merge_attr. rewrite Hget.
      destruct (PyStr.truthy _); [done|]. simpl. by rewrite fn_lookup_insert. }
    assert (∀ k, k ∈ PyDict.keys items →
                 PyDict.get k (Store.attr_maps σ1 a) ≠ Some d0) as Hd0_done.
    { intros k Hk Hkd. rewrite Hmap in Hkd. apply (Hne k Hk).
      eapply Hinj; eauto. by apply list_elem_of_further. }
    split; [|split].
    + intros k. rewrite Hi, Hmap. simpl.
      destruct (String.eqb_spec k n) as [->|]; [by rewrite Hget|done].
    + intros k d0' d' Hk Hk'. simpl in Hk'.
      destruct (String.eqb_spec k n) as [->|Hkn].
      * injection Hk' as ->. rewrite Hget in Hk. injection Hk as <-.
        rewrite (Hiii d0 Hd0_done). exact Hdef_eq.
      * assert (k ∈ PyDict.keys items) as Hkin by (by eapply dict_get_Some_keys).
        rewrite (Hii k d0' d'); [|by rewrite Hmap|done].
        assert (d0' ≠ d0) as Hd0'.
        { intros ->. apply Hkn. eapply Hinj; eauto. by apply list_elem_of_further. }
        assert (d' ≠ d0) as Hd'.
        { intros ->. eapply (Hdisj n d0 k d0); eauto.
          apply list_elem_of_further. by apply dict_get_elem. }
        by rewrite !Hdef_ne.
    + intros l Hl. rewrite Hiii.
      * apply Hdef_ne. intros ->. by apply (Hl n).
      * intros k Hk. rewrite Hmap. apply Hl. by apply list_elem_of_further.
  - (* a new name: the mapping gains [(n, d)], the definitions stay *)
    assert (Store.attr_defs σ1 = Store.attr_defs σ) as Hdef.
    { unfold σ1, merge_attr. by rewrite Hget. }
    assert (PyDict.get n (Store.attr_maps σ1 a) = Some d) as Hmap_eq.
    { unfold σ1, merge_attr. rewrite Hget. simpl.
      rewrite fn_lookup_insert. apply dict_get_set_eq. }
    split; [|split].
    + intros k. rewrite Hi. simpl.
      destruct (String.eqb_spec k n) as [->|Hkn].
      * by rewrite Hmap_eq, Hget.
      * by rewrite Hmap_ne.
    + intros k d0' d' Hk Hk'. simpl in Hk'.
      destruct (String.eqb_spec k n) as [->|Hkn]; [congruence|].
      rewrite (Hii k d0' d'); [|by rewrite Hmap_ne|done]. by rewrite Hdef.
    + intros l Hl. rewrite Hiii, Hdef; [done|].
      intros k Hk. rewrite Hmap_ne by auto. apply Hl. by apply list_elem_of_further.
Qed.

End MergeLoop.

Lemma dict_get_dump σ a n :
  PyDict.get n (dump_attrs σ a) = Store.attr_defs σ <$> PyDict.get n (Store.attr_maps σ a).
Proof.
  unfold dump_attrs, dump_items.
  induction (Store.attr_maps σ a) as [|[k l] m IH]; simpl; [done|].
  by destruct (String.eqb n k).
Qed.

(** C10. [merge_element] works on the caller's objects.  When the existing
    descriptor has an attributes mapping, the result holds that very
    mapping; after the call the mapping has every extracted attribute it
    lacked (sharing the extracted definition object), and every definition
    it had without description has the extracted one; so existing
    descriptor and result show the same attributes, and the existing
    descriptor no longer reads as it did before the call whenever an
    attribute was added or a description filled in. *)
Theorem merge_mutates_existing
    (σ : Store.t) (existing extracted : ElementObj) (a : Store.loc) :
  attributes existing = Some a →
  separated σ a (extracted_items σ extracted) →
  let σ' := (merge_element σ existing extracted).1 in
  let result := (merge_element σ existing extracted).2 in
  let items := extracted_items σ extracted in
  attributes result = attributes existing
  ∧ attributes (dump_object σ' result) = attributes (dump_object σ' existing)
  ∧ (∀ n, PyDict.get n (Store.attr_maps σ' a)
          = match PyDict.get n (Store.attr_maps σ a) with
            | Some d0 => Some d0
            | None => PyDict.get n items
            end)
  ∧ (∀ n d0 d,
       PyDict.get n (Store.attr_maps σ a) = Some d0 →
       PyDict.get n items = Some d →
       attr_description (Store.attr_defs σ' d0)
       = if PyStr.truthy (attr_description (Store.attr_defs σ d0))
         then attr_description (Store.attr_defs σ d0)
         else Some (default "" (attr_description (Store.attr_defs σ d))))
  ∧ (∀ n d,
       PyDict.get n (Store.attr_maps σ a) = None →
       PyDict.get n items = Some d →
       dump_object σ' existing ≠ dump_object σ existing)
  ∧ (∀ n d0 d,
       PyDict.get n (Store.attr_maps σ a) = Some d0 →
       PyDict.get n items = Some d →
       PyStr.truthy (attr_description (Store.attr_defs σ d0)) = false →
       PyStr.truthy (attr_description (Store.attr_defs σ d)) = true →
       dump_object σ' existing ≠ dump_object σ existing).
Proof.
  intros Ha Hsep σ' result items.
  destruct (merge_element_store σ existing extracted a Ha) as [Hσ Hattr].
  destruct (fold_merge_attr_effect a items σ (separated_loop a σ items Hsep))
    as (Hi & Hii & _).
  fold items in Hσ. fold σ' in Hσ. rewrite <- Hσ in Hi, Hii.
  assert (∀ n, PyDict.get n (dump_attrs σ' a) ≠ PyDict.get n (dump_attrs σ a) →
               dump_object σ' existing ≠ dump_object σ existing) as Hdiff.
  { intros n Hn Heq. apply Hn. unfold dump_object in Heq. rewrite Ha in Heq.
    simpl in Heq. by injection Heq as ->. }
  split; [unfold result; by rewrite Hattr, Ha|].
  split; [unfold dump_object, result; by rewrite Hattr, Ha|].
  split; [exact Hi|]. split; [exact Hii|]. split.
  - intros n d Hn Hd. apply (Hdiff n). rewrite !dict_get_dump, Hi, Hn, Hd. done.
  - intros n d0 d Hn Hd Hempty Hfull. apply (Hdiff n).
    rewrite !dict_get_dump, Hi, Hn. simpl. intros [= Heq].
    pose proof (Hii n d0 d Hn Hd) as Hdesc. rewrite Hempty, Heq in Hdesc.
    rewrite Hdesc in Hempty. simpl in Hempty.
    destruct (attr_description (Store.attr_defs σ d)) as [s|]; simpl in *; congruence.
Qed.

Lemma merge_mutates_existing_witness :
  let r := merge_element Sample.store Sample.existing_obj Sample.extracted_obj in
  attributes r.2 = attributes Sample.existing_obj
  ∧ PyDict.get "Location" (Store.attr_maps Sample.store 2) = None
  ∧ PyDict.get "Location" (Store.attr_maps r.1 2) = Some 5
  ∧ attr_description (Store.attr_defs Sample.store 1) = Some ""
  ∧ attr_description (Store.attr_defs r.1 1) = Some "The Guid attribute."
  ∧ dump_object r.1 Sample.existing_obj ≠ dump_object Sample.store Sample.existing_obj.
Proof.
  assert (separated Sample.store 2
            (extracted_items Sample.store Sample.extracted_obj)) as Hsep
    by (split; [|split]; compute_done).
  destruct (merge_mutates_existing
              Sample.store Sample.existing_obj Sample.extracted_obj 2
              eq_refl Hsep) as (Hres & _ & Hmap & Hdesc & Hnew & _).
  split; [exact Hres|]. split; [vm_compute; reflexivity|].
  split; [exact (Hmap "Location")|].
  split; [vm_compute; reflexivity|].
  split; [exact (Hdesc "Guid" 1 4 eq_refl eq_refl)|].
  exact (Hnew "Location" 5 eq_refl eq_refl).
Defined.

(** ** The merge on loaded descriptors, as a function of trees *)

Section TreeView.
Implicit Types (σ : Store.t) (m items : PyDict.dict Store.loc) (l a : Store.loc).

Lemma dict_get_dump_items σ items n :
  PyDict.get n (dump_items σ items) = Store.attr_defs σ <$> PyDict.get n items.
Proof.
  unfold dump_items. induction items as [|[k l] items IH]; simpl; [done|].
  by destruct (String.eqb n k).
Qed.

Lemma dump_items_set σ m n l :
  dump_items σ (PyDict.set n l m) = PyDict.set n (Store.attr_defs σ l) (dump_items σ m).
Proof.
  unfold dump_items. induction m as [|[k l'] m IH]; csimpl; [done|].
  destruct (String.eqb n k); csimpl; [done|]. by rewrite IH.
Qed.

Lemma dump_items_ext σ σ' items :
  (∀ l, l ∈ items.*2 → Store.attr_defs σ' l = Store.attr_defs σ l) →
  dump_items σ' items = dump_items σ items.
Proof.
  unfold dump_items. induction items as [|[k l] items IH]; csimpl; intros H; [done|].
  rewrite (H l), IH; [done| |apply list_elem_of_here].
  intros l' Hl'. apply H. by apply list_elem_of_further.
Qed.

Lemma dict_get_loc_elem {V} n (v : V) (d : PyDict.dict V) :
  PyDict.get n d = Some v → v ∈ d.*2.
Proof.
  intros H. apply list_elem_of_fmap. exists (n, v). split; [done|].
  by apply dict_get_elem.
Qed.

Lemma dict_set_new_values {V} n (v : V) (d : PyDict.dict V) :
  PyDict.get n d = None → (PyDict.set n v d).*2 = d.*2 ++ [v].
Proof.
  induction d as [|[k v'] d IH]; csimpl; [done|].
  destruct (String.eqb n k); [done|]. intros H. csimpl. by rewrite IH.
Qed.

(** writing a definition object shows in the tree at the one name that
    holds it *)
Lemma dump_items_set_def σ m n l d :
  NoDup m.*2 → PyDict.get n m = Some l →
  dump_items (Store.set_def l d σ) m = PyDict.set n d (dump_items σ m).
Proof.
  induction m as [|[k l'] m IH]; csimpl; [done|]. intros Hnd Hget.
  apply NoDup_cons in Hnd as [Hl' Hnd].
  change (dump_items ?s ((k, l') :: m))
    with ((k, Store.attr_defs s l') :: dump_items s m).
  simpl PyDict.set.
  destruct (String.eqb_spec n k) as [->|Hne].
  - injection Hget as ->. simpl. rewrite fn_lookup_insert. f_equal.
    apply (dump_items_ext σ (Store.set_def l d σ) m).
    intros l0 Hl0. simpl. rewrite fn_lookup_insert_ne; [done|]. by intros ->.
  - simpl Store.attr_defs. rewrite fn_lookup_insert_ne.
    + f_equal. by apply IH.
    + intros ->. apply Hl'. by eapply dict_get_loc_elem.
Qed.

Lemma merge_attr_tree_step a σ n l :
  NoDup (Store.attr_maps σ a).*2 →
  l ∉ (Store.attr_maps σ a).*2 →
  let σ1 := merge_attr a σ (n, l) in
  dump_attrs σ1 a = merge_attr_tree (dump_attrs σ a) (n, Store.attr_defs σ l)
  ∧ NoDup (Store.attr_maps σ1 a).*2
  ∧ (∀ l', l' ∈ (Store.attr_maps σ1 a).*2 → l' = l ∨ l' ∈ (Store.attr_maps σ a).*2)
  ∧ (∀ l', l' ∉ (Store.attr_maps σ a).*2 →
           Store.attr_defs σ1 l' = Store.attr_defs σ l').
Proof.
  intros Hnd Hl. unfold merge_attr, merge_attr_tree, dump_attrs.
  rewrite dict_get_dump_items.
  destruct (PyDict.get n (Store.attr_maps σ a)) as [l0|] eqn:Hget; simpl.
  - destruct (PyStr.truthy (attr_description (Store.attr_defs σ l0))) eqn:Ht;
      [by eauto|]. simpl.
    split; [by apply dump_items_set_def|]. split; [done|]. split; [by eauto|].
    intros l' Hl'. rewrite fn_lookup_insert_ne; [done|].
    intros ->. apply Hl'. by eapply dict_get_loc_elem.
  - rewrite fn_lookup_insert.
    split; [exact (dump_items_set σ (Store.attr_maps σ a) n l)|].
    rewrite dict_set_new_values by done. split.
    + apply NoDup_app. split; [done|]. split; [|apply NoDup_singleton].
      intros x Hx Hx'. apply list_elem_of_singleton in Hx'. by subst.
    + split; [|done]. intros l' [?|Hl']%elem_of_app; [by right|].
      apply list_elem_of_singleton in Hl'. by left.
Qed.

Lemma merge_loop_tree a items :
  ∀ σ,
    NoDup (Store.attr_maps σ a).*2 → NoDup items.*2 →
    (∀ l, l ∈ items.*2 → l ∉ (Store.attr_maps σ a).*2) →
    dump_attrs (foldl (merge_attr a) σ items) a
    = foldl merge_attr_tree (dump_attrs σ a) (dump_items σ items).
Proof.
  induction items as [|[n l] items IH]; intros σ Hnd Hitems Hdisj; [done|].
  simpl in Hitems. apply NoDup_cons in Hitems as [Hl Hitems].
  destruct (merge_attr_tree_step a σ n l Hnd) as (Hdump & Hnd1 & Hlocs & Hdefs).
  { apply Hdisj, list_elem_of_here. }
  change (foldl (merge_attr a) σ ((n, l) :: items))
    with (foldl (merge_attr a) (merge_attr a σ (n, l)) items).
  rewrite IH; [|done..|].
  - rewrite Hdump. simpl. f_equal. apply dump_items_ext.
    intros l' Hl'. apply Hdefs, Hdisj. by apply list_elem_of_further.
  - intros l' Hl' [->|Hin]%Hlocs; [done|].
    by apply (Hdisj l'); [apply list_elem_of_further|].
Qed.

(** what [json.load] leaves in the store *)
Lemma load_defs_spec (mt : PyDict.dict AttrDef) :
  ∀ σ,
    let σ' := (load_defs σ mt).1 in
    let refs := (load_defs σ mt).2 in
    Store.next σ' = Store.next σ + length mt
    ∧ Store.attr_maps σ' = Store.attr_maps σ
    ∧ (∀ l, l < Store.next σ → Store.attr_defs σ' l = Store.attr_defs σ l)
    ∧ refs.*2 = seq (Store.next σ) (length mt)
    ∧ dump_items σ' refs = mt.
Proof.
  induction mt as [|[n d] mt IH]; intros σ; simpl.
  { repeat split; try done; lia. }
  specialize (IH (Store.alloc_def d σ).1). simpl in IH.
  destruct (load_defs _ mt) as [σ' refs]. simpl in *.
  destruct IH as (Hnext & Hmaps & Hdefs & Hrefs & Hdump).
  split; [lia|]. split; [done|]. split.
  { intros l Hl. rewrite Hdefs by lia. apply fn_lookup_insert_ne. lia. }
  split; [f_equal; exact Hrefs|].
  rewrite Hdump, Hdefs by lia. by rewrite fn_lookup_insert.
Qed.

Lemma load_attrs_spec (mt : PyDict.dict AttrDef) σ :
  let σ' := (load_attrs σ mt).1 in
  let a := (load_attrs σ mt).2 in
  (Store.next σ ≤ a)%nat ∧ Store.next σ' = S a
  ∧ dump_attrs σ' a = mt
  ∧ NoDup (Store.attr_maps σ' a).*2
  ∧ (∀ l, l ∈ (Store.attr_maps σ' a).*2 → (Store.next σ ≤ l < a)%nat)
  ∧ (∀ a', a' ≠ a → Store.attr_maps σ' a' = Store.attr_maps σ a')
  ∧ (∀ l, l < Store.next σ → Store.attr_defs σ' l = Store.attr_defs σ l).
Proof.
  unfold load_attrs. pose proof (load_defs_spec mt σ) as Hspec.
  destruct (load_defs σ mt) as [σ1 refs]. simpl in *.
  destruct Hspec as (Hnext & Hmaps & Hdefs & Hrefs & Hdump).
  unfold dump_attrs. simpl. rewrite fn_lookup_insert.
  split; [lia|]. split; [done|]. split; [done|]. split.
  { rewrite Hrefs. apply NoDup_seq. }
  split.
  { intros l Hl. rewrite Hrefs in Hl. apply elem_of_seq in Hl. lia. }
  split; [|done].
  intros a' Ha'. rewrite fn_lookup_insert_ne by done. by rewrite Hmaps.
Qed.

Lemma merge_element_tree_view σ (existing element : Descriptor)
    (oa ob : option Store.loc) :
  attributes existing = dump_attrs σ <$> oa →
  attributes element = dump_attrs σ <$> ob →
  let items := from_option (Store.attr_maps σ) [] ob in
  NoDup items.*2 →
  (∀ a, oa = Some a →
        NoDup (Store.attr_maps σ a).*2
        ∧ ∀ l, l ∈ items.*2 → l ∉ (Store.attr_maps σ a).*2) →
  (∀ b, ob = Some b → b < Store.next σ) →
  let r := merge_element σ (set_attributes oa existing) (set_attributes ob element) in
  dump_object r.1 r.2 = merge_element_tree existing element.
Proof.
  intros Hex Hel items Hitems Hsep Hbound r.
  assert (dump_items σ items = default [] (attributes element)) as Hdump_items.
  { rewrite Hel. unfold items. by destruct ob. }
  assert (attributes (dump_object r.1 r.2)
          = Some (foldl merge_attr_tree (default [] (attributes existing))
                        (default [] (attributes element)))) as Hattrs.
  { change (attributes (dump_object r.1 r.2)) with (dump_attrs r.1 <$> attributes r.2).
    rewrite Hex, <- Hdump_items. unfold r. destruct oa as [a|].
    - destruct (merge_element_store σ (set_attributes (Some a) existing)
                  (set_attributes ob element) a eq_refl) as [-> ->].
      destruct (Hsep a eq_refl) as [Hnd Hdisj]. simpl. f_equal.
      by apply merge_loop_tree.
    - destruct (merge_element_store_None σ (set_attributes None existing)
                  (set_attributes ob element) eq_refl) as [-> ->].
      set (σ0 := (Store.alloc_map [] σ).1).
      assert (Store.attr_maps σ0 (Store.next σ) = []) as Hempty
        by (unfold σ0; simpl; apply fn_lookup_insert).
      assert (extracted_items σ0 (set_attributes ob element) = items) as ->.
      { unfold extracted_items, items. destruct ob as [b|]; [|done]. simpl.
        rewrite fn_lookup_insert_ne; [done|]. specialize (Hbound b eq_refl). lia. }
      simpl. f_equal. rewrite merge_loop_tree.
      + unfold dump_attrs. by rewrite Hempty.
      + rewrite Hempty. constructor.
      + done.
      + intros l _. rewrite Hempty. by intros ?%elem_of_nil. }
  revert Hattrs. unfold r, merge_element, merge_element_tree, dump_object.
  destruct existing, element; simpl.
  destruct oa; simpl; destruct (bool_decide _ && negb _); simpl;
    by intros ->.
Qed.

(** What [main] writes under [--force] is the merge of the two trees. *)
Lemma merged_descriptor_tree existing element :
  merged_descriptor existing element = merge_element_tree existing element.
Proof.
  unfold merged_descriptor, load_object.
  destruct (attributes existing) as [mex|] eqn:Hex.
  - pose proof (load_attrs_spec mex Store.empty) as Hl1.
    destruct (load_attrs Store.empty mex) as [σ1 a]. simpl in Hl1.
    destruct Hl1 as (_ & Hnext1 & Hdump1 & Hnd1 & Hlocs1 & _ & _).
    destruct (attributes element) as [mel|] eqn:Hel.
    + pose proof (load_attrs_spec mel σ1) as Hl2.
      destruct (load_attrs σ1 mel) as [σ2 b]. simpl in Hl2.
      destruct Hl2 as (Hb & Hnext2 & Hdump2 & Hnd2 & Hlocs2 & Hmaps2 & Hdefs2).
      assert (Store.attr_maps σ2 a = Store.attr_maps σ1 a) as Hma
        by (apply Hmaps2; lia).
      pose proof (merge_element_tree_view σ2 existing element (Some a) (Some b))
        as Hview. cbv zeta in Hview. revert Hview.
      destruct (merge_element σ2 _ _) as [σ3 merged]. intros Hview. apply Hview.
      * rewrite Hex. simpl. f_equal. rewrite <- Hdump1. unfold dump_attrs.
        rewrite Hma. symmetry. apply dump_items_ext.
        intros l Hl. apply Hdefs2. apply Hlocs1 in Hl. lia.
      * rewrite Hel. simpl. by rewrite Hdump2.
      * done.
      * intros ? [= <-]. rewrite Hma. split; [done|].
        intros l Hl Hl'. apply Hlocs2 in Hl. apply Hlocs1 in Hl'. lia.
      * intros ? [= <-]. lia.
    + pose proof (merge_element_tree_view σ1 existing element (Some a) None)
        as Hview. cbv zeta in Hview. revert Hview.
      destruct (merge_element σ1 _ _) as [σ3 merged]. intros Hview. apply Hview.
      * rewrite Hex. simpl. by rewrite Hdump1.
      * done.
      * constructor.
      * intros ? [= <-]. split; [done|]. by intros l ?%elem_of_nil.
      * done.
  - destruct (attributes element) as [mel|] eqn:Hel.
    + pose proof (load_attrs_spec mel Store.empty) as Hl2.
      destruct (load_attrs Store.empty mel) as [σ2 b]. simpl in Hl2.
      destruct Hl2 as (Hb & Hnext2 & Hdump2 & Hnd2 & Hlocs2 & Hmaps2 & Hdefs2).
      pose proof (merge_element_tree_view σ2 existing element None (Some b))
        as Hview. cbv zeta in Hview. revert Hview.
      destruct (merge_element σ2 _ _) as [σ3 merged]. intros Hview. apply Hview.
      * done.
      * rewrite Hel. simpl. by rewrite Hdump2.
      * done.
      * done.
      * intros ? [= <-]. lia.
    + pose proof (merge_element_tree_view Store.empty existing element None None)
        as Hview. cbv zeta in Hview. revert Hview.
      destruct (merge_element Store.empty _ _) as [σ3 merged]. intros Hview. apply Hview.
      * done.
      * done.
      * constructor.
      * done.
      * done.
Qed.

Lemma merge_attr_tree_kept acc item n d :
  PyDict.get n acc = Some d → PyStr.truthy (attr_description d) = true →
  PyDict.get n (merge_attr_tree acc item) = Some d.
Proof.
  intros Hn Ht. destruct item as [k v]. unfold merge_attr_tree.
  destruct (PyDict.get k acc) as [d0|] eqn:Hk.
  - destruct (PyStr.truthy (attr_description d0)) eqn:Ht0; [done|].
    rewrite dict_get_set. destruct (String.eqb_spec n k) as [->|]; [congruence|done].
  - rewrite dict_get_set. destruct (String.eqb_spec n k) as [->|]; [congruence|done].
Qed.

Lemma merge_attr_tree_structure acc item n d :
  PyDict.get n acc = Some d →
  ∃ d', PyDict.get n (merge_attr_tree acc item) = Some d'
        ∧ attr_type d' = attr_type d ∧ attr_required d' = attr_required d
        ∧ attr_default d' = attr_default d ∧ attr_values d' = attr_values d.
Proof.
  intros Hn. destruct item as [k v]. unfold merge_attr_tree.
  destruct (PyDict.get k acc) as [d0|] eqn:Hk.
  - destruct (PyStr.truthy (attr_description d0)) eqn:Ht0; [by eauto 10|].
    rewrite dict_get_set. destruct (String.eqb_spec n k) as [->|]; [|by eauto 10].
    rewrite Hn in Hk. injection Hk as <-. by eauto 10.
  - rewrite dict_get_set. destruct (String.eqb_spec n k) as [->|]; [congruence|].
    by eauto 10.
Qed.

Lemma fold_merge_attr_tree_kept (its : PyDict.dict AttrDef) acc n d :
  PyDict.get n acc = Some d → PyStr.truthy (attr_description d) = true →
  PyDict.get n (foldl merge_attr_tree acc its) = Some d.
Proof.
  revert acc. induction its as [|item its IH]; intros acc Hn Ht; simpl; [done|].
  apply IH; [|done]. by apply merge_attr_tree_kept.
Qed.

Lemma fold_merge_attr_tree_structure (its : PyDict.dict AttrDef) acc n d :
  PyDict.get n acc = Some d →
  ∃ d', PyDict.get n (foldl merge_attr_tree acc its) = Some d'
        ∧ attr_type d' = attr_type d ∧ attr_required d' = attr_required d
        ∧ attr_default d' = attr_default d ∧ attr_values d' = attr_values d.
Proof.
  revert acc d. induction its as [|item its IH]; intros acc d Hn; simpl;
    [by exists d|].
  destruct (merge_attr_tree_structure acc item n d Hn) as (d1 & Hd1 & ? & ? & ? & ?).
  destruct (IH _ d1 Hd1) as (d' & Hd' & ? & ? & ? & ?).
  exists d'. repeat split; congruence.
Qed.

(** an attribute of the existing descriptor with a non-empty description is
    in the merge exactly as it was *)
Lemma merged_descriptor_keeps existing element :
  keeps_hand_written existing (merged_descriptor existing element).
Proof.
  rewrite merged_descriptor_tree. split.
  - intros s Hd Hs. unfold merge_element_tree. simpl.
    rewrite Hd, (truthy_Some s Hs), andb_false_r. exact Hd.
  - intros n d s Hn Hd Hs. unfold merge_element_tree. simpl.
    apply fold_merge_attr_tree_kept; [done|]. rewrite Hd. by apply truthy_Some.
Qed.

(** every attribute of the existing descriptor keeps its type, its required
    flag, its default and its values through the merge, whatever the
    extraction says *)
Lemma merged_descriptor_structure existing element n d :
  PyDict.get n (default [] (attributes existing)) = Some d →
  ∃ d', PyDict.get n (default [] (attributes (merged_descriptor existing element)))
        = Some d'
        ∧ attr_type d' = attr_type d ∧ attr_required d' = attr_required d
        ∧ attr_default d' = attr_default d ∧ attr_values d' = attr_values d.
Proof.
  intros Hn. rewrite merged_descriptor_tree. unfold merge_element_tree. simpl.
  by apply fold_merge_attr_tree_structure.
Qed.

End TreeView.

(** C5 (what the code does at a descriptor and an extraction that disagree
    on an attribute's type, required flag and default).  The attribute [Id]
    is in both; the existing one says string, optional, no default, the
    extraction says guid, required, default [x]; the merged attribute keeps
    the existing description and also the existing type, flag and absent
    default, as [merged_descriptor_structure] shows it must. *)
Theorem merge_keeps_existing_structure :
  PyDict.get "Id" (default [] (attributes Sample.extracted))
    = Some (mkAttrDef (Some "guid") (Some true) (Some "The Id attribute.") (Some "x") None)
  ∧ PyDict.get "Id" (default [] (attributes Sample.existing))
    = Some (mkAttrDef (Some "string") (Some false) (Some "Hand-written text.") None None)
  ∧ PyDict.get "Id"
      (default [] (attributes (merged_descriptor Sample.existing Sample.extracted)))
    = Some (mkAttrDef (Some "string") (Some false) (Some "Hand-written text.") None None).
Proof. vm_compute. repeat split. Qed.

(** ** The parser *)

Section Parser.
Context {tables : PyStr.CaseMapping}.
Import XsdParser.

Lemma elem_of_refs r (l : list xml) :
  r ∈ refs l ↔ ∃ e, e ∈ l ∧ ET.get "ref" e = Some r ∧ r ≠ "".
Proof.
  unfold refs. rewrite list_elem_of_omap. split.
  - intros (e & He & Hr). exists e. split; [done|].
    destruct (ET.get "ref" e) as [r'|]; [|done].
    destruct (String.eqb_spec r' ""); [done|]. by injection Hr as ->.
  - intros (e & He & Hr & Hne). exists e. split; [done|]. rewrite Hr.
    by destruct (String.eqb_spec r "").
Qed.

Lemma elem_of_flat_map {X Y} (f : X → list Y) (l : list X) (y : Y) :
  y ∈ flat_map f l ↔ ∃ x, x ∈ l ∧ y ∈ f x.
Proof.
  rewrite list_elem_of_In, in_flat_map. split; intros (x & Hx & Hy); exists x;
    by rewrite ?list_elem_of_In in *.
Qed.

(** A group reference inside a complex type is expanded when the group is
    in the table at the time the type is parsed. *)
Lemma complex_type_expands_known_group self ct g G members inner :
  g ∈ ET.findall (XS +:+ "group") ct →
  ET.get "ref" g = Some G → G ≠ "" →
  groups self !! G = Some members → inner ∈ members →
  inner ∈ type_children (_parse_complex_type self ct).
Proof.
  intros Hg Href HG Hgroup Hin. unfold _parse_complex_type, group_children. simpl.
  apply elem_of_app. right. apply elem_of_flat_map. exists G. split.
  - apply elem_of_refs. by exists g.
  - by rewrite Hgroup.
Qed.

(** ... which is the case for the inline type of an element: elements are
    parsed after the groups of their document. *)
Lemma inline_type_expands_known_group self elem ns n ct g G members inner :
  ET.get "name" elem = Some n → n ≠ "" →
  ET.get "type" elem = None →
  ET.find_child (XS +:+ "complexType") elem = Some ct →
  g ∈ ET.findall (XS +:+ "group") ct →
  ET.get "ref" g = Some G → G ≠ "" →
  groups self !! G = Some members → inner ∈ members →
  ∃ d, _parse_element self elem ns = Some d ∧ inner ∈ dchildren d.
Proof.
  intros Hn Hne Ht Hct Hg Href HG Hgroup Hin. unfold _parse_element.
  rewrite Hn, Ht, Hct. destruct (String.eqb_spec n ""); [done|].
  eexists. split; [reflexivity|]. unfold dchildren. simpl.
  by eapply complex_type_expands_known_group.
Qed.

(** the children collected by extract-xsd.py never repeat a name *)
Lemma extract_children_NoDup ct : NoDup (ExtractXsd.collect_children ct).
Proof.
  unfold ExtractXsd.collect_children.
  apply (foldl_invariant (fun acc => NoDup acc)); [|constructor].
  intros acc x Hacc. destruct (ExtractXsd.child_name x) as [n|]; [|done].
  case_bool_decide; [done|].
  apply NoDup_app. split; [done|]. split; [|apply NoDup_singleton].
  intros y Hy Hy'. apply list_elem_of_singleton in Hy'. by subst.
Qed.

Lemma extract_element_children_NoDup elem simple_types all_elements d :
  ExtractXsd.parse_element elem simple_types all_elements = Some d →
  NoDup (dchildren d).
Proof.
  unfold ExtractXsd.parse_element. destruct (ET.get "name" elem) as [n|]; [|done].
  destruct (String.eqb n ""); [done|]. intros [= <-]. unfold dchildren. simpl.
  match goal with |- NoDup (from_option _ _ ?c) => destruct c end; simpl;
    [apply extract_children_NoDup|constructor].
Qed.

Lemma flat_map_nil {X Y} (f : X → list Y) (l : list X) :
  (∀ x, x ∈ l → f x = []) → flat_map f l = [].
Proof.
  induction l as [|x l IH]; simpl; intros H; [done|].
  rewrite (H x), IH; [done| |apply list_elem_of_here].
  intros y Hy. apply H. by apply list_elem_of_further.
Qed.

Lemma unknown_groups_no_children grps ct :
  (∀ g G, g ∈ ET.findall (XS +:+ "group") ct → ET.get "ref" g = Some G →
          grps !! G = None) →
  group_children grps ct = [].
Proof.
  intros Hunknown. unfold group_children. apply flat_map_nil.
  intros G HG. apply elem_of_refs in HG as (g & Hg & Href & _).
  by rewrite (Hunknown g G).
Qed.

Lemma foldl_invariant_elem {S X} (I : S → Prop) (f : S → X → S) (l : list X) (s : S) :
  (∀ s x, x ∈ l → I s → I (f s x)) → I s → I (foldl f s l).
Proof.
  revert s. induction l as [|x l IH]; simpl; intros s Hstep Hs; [done|].
  apply IH.
  - intros s' x' Hx'. apply Hstep. by apply list_elem_of_further.
  - apply Hstep; [apply list_elem_of_here|done].
Qed.

(** In the first document a parser reads, every named complex type is
    parsed while the group table is still empty: its children are the
    direct ones only, whatever groups it refers to. *)
Lemma first_document_types_ignore_groups root ns tn attrs cs :
  types (parse_file init (Document root) ns) !! tn = Some (ComplexType attrs cs) →
  ∃ te, te ∈ ET.findall_named (XS +:+ "complexType") root ∧ cs = direct_children te.
Proof.
  set (P := fun tys : gmap string TypeInfo =>
              ∀ tn attrs cs, tys !! tn = Some (ComplexType attrs cs) →
                ∃ te, te ∈ ET.findall_named (XS +:+ "complexType") root
                      ∧ cs = direct_children te).
  revert tn attrs cs. change (P (types (parse_file init (Document root) ns))).
  unfold parse_file.
  apply (foldl_invariant (fun s => P (types s))).
  { intros s x Hs. by destruct (_parse_element s x ns). }
  apply (foldl_invariant (fun s => P (types s))); [by intros|].
  apply (foldl_invariant (fun s => P (types s))).
  { intros s x Hs tn attrs cs. simpl.
    destruct (decide (name_of x = tn)) as [<-|Hne].
    - rewrite lookup_insert_eq. unfold _parse_simple_type.
      by destruct (omap _ _).
    - rewrite lookup_insert_ne by done. apply Hs. }
  apply (foldl_invariant_elem (fun s => groups s = ∅ ∧ P (types s))).
  - intros s te Hte [Hgroups Hs]. split; [done|].
    intros tn attrs cs. simpl.
    destruct (decide (name_of te = tn)) as [<-|Hne].
    + rewrite lookup_insert_eq. unfold _parse_complex_type. intros [= _ <-].
      exists te. split; [done|]. rewrite Hgroups.
      rewrite unknown_groups_no_children; [by rewrite app_nil_r|].
      intros g G _ _. apply lookup_empty.
    + rewrite lookup_insert_ne by done. apply Hs.
  - split; [done|]. intros tn attrs cs H. simpl in H. by rewrite lookup_empty in H.
Qed.

End Parser.

(** C7 (what the code does on a named type).  In [Sample.named_group] the
    content model of [Outer] is the named type [OuterType], which refers to
    group [G]; [G] holds a reference to [Inner] and is in the group table
    after the run; yet the descriptor of [Outer] has no child.  With the
    same content model declared inline ([Sample.inline_group]) the child is
    there. *)
Theorem named_type_group_not_expanded {tables : PyStr.CaseMapping} :
  let run := fun root =>
    XsdParser.resolve_relationships (parse_all [(Document root, "wix")]) in
  XsdParser.groups (run Sample.named_group) !! "G" = Some ["Inner"]
  ∧ dchildren <$> PyDict.get "Outer" (XsdParser.elements (run Sample.named_group))
    = Some []
  ∧ dchildren <$> PyDict.get "Outer" (XsdParser.elements (run Sample.inline_group))
    = Some ["Inner"].
Proof. vm_compute. repeat split. Qed.

(** C8 (what the code does on a repeated child).  update-from-xsd.py keeps
    every mention: [A] listed twice in a sequence, or once directly and once
    through a group, is twice among the children of [Outer]; extract-xsd.py
    on the same document lists it once. *)
Theorem parser_keeps_repeated_children {tables : PyStr.CaseMapping} :
  let run := fun root =>
    XsdParser.resolve_relationships (parse_all [(Document root, "wix")]) in
  dchildren <$> PyDict.get "Outer" (XsdParser.elements (run Sample.doubled_child))
    = Some ["A"; "A"]
  ∧ dchildren <$> PyDict.get "Outer" (XsdParser.elements (run Sample.repeated_child))
    = Some ["A"; "A"]
  ∧ ¬ NoDup ["A"; "A"]
  ∧ dchildren <$> head (ExtractXsd.extract_elements Sample.doubled_child ∅)
    = Some ["A"].
Proof.
  vm_compute. repeat split.
  intros H. apply NoDup_cons in H as [H _]. apply H. apply list_elem_of_here.
Qed.

(** ** A run *)

Section Run.
Context {tables : PyStr.CaseMapping}.
Import XsdParser.

Lemma parse_from_skip (self : XsdParser.t) docs :
  foldl (fun self '(doc, ns) => parse_file self doc ns) self docs
  = foldl (fun self '(doc, ns) => parse_file self doc ns) self
          (List.filter is_document docs).
Proof.
  revert self. induction docs as [|[[|root] ns] docs IH]; intros self; simpl;
    [done|apply IH..].
Qed.

Lemma parse_all_skip docs : parse_all docs = parse_all (List.filter is_document docs).
Proof. apply parse_from_skip. Qed.

Lemma resolve_nil self :
  elements self = [] → elements (resolve_relationships self) = [].
Proof. intros H. simpl. by rewrite H. Qed.

End Run.

(** C3, as stated, fails for update-from-xsd.py: with a first document that
    is not well-formed and a second one that is, the run returns status 0
    and the descriptors of the second document are written. *)
Lemma malformed_document_does_not_abort :
  let tables := PyStr.ascii_case in
  let run := main (mkArgs false false) Sample2.sound_disk
                  [(ParseError, "wxs"); (Document Sample.inline_group, "bal")] ∅ in
  returned run = Some (0, mkSummary 2 0 0)
  ∧ name_of_file (final_dir run !! "outer.json") = Some "Outer"
  ∧ name_of_file (final_dir run !! "inner.json") = Some "Inner".
Proof. vm_compute. repeat split. Qed.

(** C3, amended.  extract-xsd.py stops at a document that is not
    well-formed, with the parse error and before anything is written.
    update-from-xsd.py reports it and goes on: [parse_file] returns with
    the parser as it was, and the run is the run without that document,
    whatever the options, the file system and the directory.  The run
    returns status 1 exactly when the documents that did parse yield no
    element, and then nothing is written and nothing counted. *)
Theorem malformed_document_is_skipped {tables : PyStr.CaseMapping}
    (args : Args) (fs : disk) (docs : list (parsed * string)) (dir : files) :
  ExtractXsd.main fs ParseError dir = Raised dir
  ∧ (∀ self ns, XsdParser.parse_file self ParseError ns = self)
  ∧ main args fs docs dir = main args fs (List.filter is_document docs) dir
  ∧ ((∃ sm dir', main args fs docs dir = Done (1, sm) dir')
     ↔ XsdParser.elements (parse_all (List.filter is_document docs)) = [])
  ∧ (XsdParser.elements (parse_all (List.filter is_document docs)) = [] →
     main args fs docs dir = Done (1, mkSummary 0 0 0) dir).
Proof.
  split; [done|]. split; [done|].
  assert (main args fs docs dir = main args fs (List.filter is_document docs) dir)
    as Hskip by (unfold main; by rewrite parse_all_skip).
  split; [exact Hskip|].
  assert (XsdParser.elements (parse_all (List.filter is_document docs)) = [] →
          main args fs docs dir = Done (1, mkSummary 0 0 0) dir) as Hnone.
  { intros Hnil. rewrite Hskip. unfold main, process_elements.
    by rewrite (resolve_nil _ Hnil). }
  split; [|exact Hnone]. split; [|by eauto].
  intros (sm & dir' & Hrun). rewrite Hskip in Hrun. revert Hrun.
  unfold main, process_elements.
  destruct (XsdParser.elements (parse_all (List.filter is_document docs)))
    as [|x els] eqn:Hels; [done|].
  assert (XsdParser.elements
            (XsdParser.resolve_relationships
               (parse_all (List.filter is_document docs))) ≠ []) as Hne.
  { intros Hnil. destruct x as [k0 v0].
    pose proof (fold_resolve_extends
                  (PyDict.keys ((k0, v0) :: els)) ((k0, v0) :: els) k0) as Hk.
    simpl in Hnil. rewrite Hels in Hnil. rewrite Hnil in Hk.
    simpl in Hk. rewrite String.eqb_refl in Hk. inversion Hk. }
  destruct (XsdParser.elements (XsdParser.resolve_relationships _)); [done|].
  by destruct (foldl _ _ _).
Qed.

Lemma malformed_document_is_skipped_witness :
  let tables := PyStr.ascii_case in
  main (mkArgs true false) Sample2.sound_disk [(ParseError, "wxs")] Sample.curated_dir
  = Done (1, mkSummary 0 0 0) Sample.curated_dir.
Proof.
  intros tables.
  apply (malformed_document_is_skipped
           (mkArgs true false) Sample2.sound_disk [(ParseError, "wxs")]
           Sample.curated_dir).
  vm_compute. reflexivity.
Defined.

(** ** The merge/write stage *)

Section WriteStage.
Context {tables : PyStr.CaseMapping}.
Import XsdParser.

Lemma dict_set_keys {V} k (v : V) (d : PyDict.dict V) :
  PyDict.keys (PyDict.set k v d)
  = if decide (k ∈ PyDict.keys d) then PyDict.keys d else PyDict.keys d ++ [k].
Proof.
  induction d as [|[k0 v0] d IH]; simpl; [done|].
  destruct (String.eqb_spec k k0) as [->|Hne]; simpl.
  - rewrite decide_True; [done|apply list_elem_of_here].
  - unfold PyDict.keys in *. rewrite IH.
    destruct (decide (k ∈ d.*1)) as [Hin|Hnin].
    + rewrite decide_True; [done|by apply list_elem_of_further].
    + rewrite decide_False; [done|].
      intros [?|?]%elem_of_cons; done.
Qed.

Lemma dict_set_NoDup {V} k (v : V) (d : PyDict.dict V) :
  NoDup (PyDict.keys d) → NoDup (PyDict.keys (PyDict.set k v d)).
Proof.
  intros Hnd. rewrite dict_set_keys. case_decide; [done|].
  apply NoDup_app. split; [done|]. split; [|apply NoDup_singleton].
  intros x Hx Hx'. apply list_elem_of_singleton in Hx'. by subst.
Qed.

Lemma parse_file_NoDup self doc ns :
  NoDup (PyDict.keys (elements self)) →
  NoDup (PyDict.keys (elements (parse_file self doc ns))).
Proof.
  destruct doc as [|root]; [done|]. unfold parse_file. intros Hk.
  apply (foldl_invariant (fun s => NoDup (PyDict.keys (elements s)))).
  { intros s x Hs. destruct (_parse_element s x ns) as [d|]; [|done].
    simpl. by apply dict_set_NoDup. }
  repeat (apply (foldl_invariant (fun s => NoDup (PyDict.keys (elements s))));
          [by intros|]).
  exact Hk.
Qed.

Lemma resolved_NoDup docs :
  NoDup (PyDict.keys (elements (resolve_relationships (parse_all docs)))).
Proof.
  simpl. apply (foldl_invariant (fun els => NoDup (PyDict.keys els))).
  - intros els k Hels. unfold resolve_one. destruct (PyDict.get k els); [|done].
    apply (foldl_invariant (fun els => NoDup (PyDict.keys els))); [|done].
    intros els' c Hels'. unfold add_parent.
    destruct (PyDict.get c els'); [|done]. case_bool_decide; [done|].
    by apply dict_set_NoDup.
  - unfold parse_all.
    apply (foldl_invariant (fun s => NoDup (PyDict.keys (elements s)))).
    + intros s [doc ns]. apply parse_file_NoDup.
    + constructor.
Qed.

Lemma resolved_keyed docs :
  keyed (elements (resolve_relationships (parse_all docs))).
Proof.
  eapply extends_keyed; [apply fold_resolve_extends|apply parse_all_keyed].
Qed.

Lemma load_object_name σ d : name (load_object σ d).2 = name d.
Proof.
  unfold load_object. destruct (attributes d) as [m|]; [|done].
  by destruct (load_attrs σ m).
Qed.

Lemma merge_element_name σ existing extracted :
  name (merge_element σ existing extracted).2 = name existing.
Proof.
  unfold merge_element.
  destruct (attributes existing); simpl;
    by destruct (bool_decide _ && negb _).
Qed.

Lemma merged_descriptor_name existing element :
  name (merged_descriptor existing element) = name existing.
Proof.
  unfold merged_descriptor.
  pose proof (load_object_name Store.empty existing) as H1.
  destruct (load_object Store.empty existing) as [σ1 ex].
  destruct (load_object σ1 element) as [σ2 el].
  pose proof (merge_element_name σ2 ex el) as H3.
  destruct (merge_element σ2 ex el) as [σ3 m]. simpl in *. congruence.
Qed.

Lemma load_existing_Loaded dir n d :
  load_existing_element dir n = Some (Loaded d) ↔
  dir !! element_path n = Some (JsonDescriptor d).
Proof.
  unfold load_existing_element.
  destruct (dir !! element_path n) as [[|d'|b]|]; split; try done;
    by intros [= ->].
Qed.

Lemma load_existing_Other dir n b :
  load_existing_element dir n = Some (LoadedOther b) ↔
  dir !! element_path n = Some (JsonOther b).
Proof.
  unfold load_existing_element.
  destruct (dir !! element_path n) as [[|d'|b']|]; split; try done;
    by intros [= ->].
Qed.

Lemma load_existing_ext (dir dir' : files) n :
  dir' !! element_path n = dir !! element_path n →
  load_existing_element dir' n = load_existing_element dir n.
Proof. intros H. unfold load_existing_element. by rewrite H. Qed.

Lemma stored_by_name_insert (dir : files) d :
  stored_by_name dir →
  stored_by_name (<[element_path (name d) := JsonDescriptor d]> dir).
Proof.
  intros Hwf p d' Hp.
  destruct (decide (element_path (name d) = p)) as [<-|Hne].
  - rewrite lookup_insert_eq in Hp. by injection Hp as ->.
  - rewrite lookup_insert_ne in Hp by done. by apply Hwf.
Qed.

Lemma stored_by_name_torn (dir : files) p :
  stored_by_name dir → stored_by_name (<[p := NotJson]> dir).
Proof.
  intros Hwf q d Hq. destruct (decide (p = q)) as [<-|Hne].
  - by rewrite lookup_insert_eq in Hq.
  - rewrite lookup_insert_ne in Hq by done. by apply Hwf.
Qed.

(** [write_element]: the file it is about, the other files, and the value
    returned *)
Lemma write_element_effect fs (dir : files) d dry :
  let r := write_element fs dir d dry in
  r.1 !! element_path (name d) = after_write fs dry dir (element_path (name d)) d
  ∧ (∀ p, p ≠ element_path (name d) → r.1 !! p = dir !! p)
  ∧ r.2 = write_counts fs dry (element_path (name d))
  ∧ (stored_by_name dir → stored_by_name r.1).
Proof.
  unfold write_element, after_write, write_counts. destruct dry; [done|].
  destruct (fs (element_path (name d))); simpl.
  - split; [apply lookup_insert_eq|]. split; [|split; [done|]].
    + intros p Hp. by apply lookup_insert_ne.
    + apply stored_by_name_insert.
  - done.
  - split; [apply lookup_insert_eq|]. split; [|split; [done|]].
    + intros p Hp. by apply lookup_insert_ne.
    + apply stored_by_name_torn.
  - split; [apply lookup_insert_eq|]. split; [|split; [done|]].
    + intros p Hp. by apply lookup_insert_ne.
    + apply stored_by_name_insert.
Qed.

Lemma expected_file_ext args fs (dir dir' : files) n e :
  dir' !! element_path n = dir !! element_path n →
  expected_file args fs dir' n e = expected_file args fs dir n e.
Proof.
  intros H. unfold expected_file, after_write.
  by rewrite (load_existing_ext dir dir' n H), H.
Qed.

Lemma counted_ext args fs (dir dir' : files) n :
  dir' !! element_path n = dir !! element_path n →
  counted args fs dir' n = counted args fs dir n.
Proof. intros H. unfold counted. by rewrite (load_existing_ext dir dir' n H). Qed.

(** one element of the loop, when it does not raise: its file, the other
    files and the counters *)
Lemma process_step args fs (dir : files) sm n e :
  (force args = true → stored_by_name dir) → name e = n →
  (force args = true → dir !! element_path n ≠ Some (JsonOther true)) →
  ∃ dir' sm',
    process args fs (Done sm dir) (n, e) = Done sm' dir'
    ∧ (force args = true → stored_by_name dir')
    ∧ dir' !! element_path n = expected_file args fs dir n e
    ∧ (∀ p, p ≠ element_path n → dir' !! p = dir !! p)
    ∧ created sm' = created sm + Nat.b2n (counts Created (counted args fs dir n))
    ∧ updated sm' = updated sm + Nat.b2n (counts Updated (counted args fs dir n))
    ∧ skipped sm' = skipped sm + Nat.b2n (counts Skipped (counted args fs dir n)).
Proof.
  intros Hwf Hname Hok. unfold process, expected_file, counted.
  destruct (load_existing_element dir n) as [[existing|[|]]|] eqn:Hload.
  - destruct (force args) eqn:Hforce.
    + apply load_existing_Loaded in Hload.
      pose proof (Hwf eq_refl _ _ Hload) as Hpath.
      rewrite <- (merged_descriptor_name existing e) in Hpath.
      pose proof (write_element_effect fs dir (merged_descriptor existing e)
                                       (dry_run args)) as Hw.
      cbv zeta in Hw. rewrite Hpath in Hw.
      destruct (write_element fs dir (merged_descriptor existing e) (dry_run args))
        as [dir' ok].
      simpl in Hw. destruct Hw as (Hfile & Hframe & -> & Hwf').
      eexists _, _. split; [reflexivity|].
      split; [intros _; by apply Hwf', Hwf|]. split; [done|]. split; [done|].
      destruct (write_counts fs (dry_run args) (element_path n)); simpl; lia.
    + eexists _, _. split; [reflexivity|]. split; [done|]. split; [done|].
      split; [done|]. simpl. lia.
  - destruct (force args) eqn:Hforce.
    + apply load_existing_Other in Hload. by destruct (Hok eq_refl).
    + eexists _, _. split; [reflexivity|]. split; [done|]. split; [done|].
      split; [done|]. simpl. lia.
  - pose proof (write_element_effect fs dir e (dry_run args)) as Hw.
    cbv zeta in Hw. rewrite Hname in Hw.
    destruct (write_element fs dir e (dry_run args)) as [dir' ok].
    simpl in Hw. destruct Hw as (Hfile & Hframe & -> & Hwf').
    eexists _, _. split; [reflexivity|].
    split; [intros Hf; by apply Hwf', Hwf|]. split; [done|]. split; [done|].
    destruct (write_counts fs (dry_run args) (element_path n)); simpl; lia.
  - pose proof (write_element_effect fs dir e (dry_run args)) as Hw.
    cbv zeta in Hw. rewrite Hname in Hw.
    destruct (write_element fs dir e (dry_run args)) as [dir' ok].
    simpl in Hw. destruct Hw as (Hfile & Hframe & -> & Hwf').
    eexists _, _. split; [reflexivity|].
    split; [intros Hf; by apply Hwf', Hwf|]. split; [done|]. split; [done|].
    destruct (write_counts fs (dry_run args) (element_path n)); simpl; lia.
Qed.

Lemma fold_process args fs items :
  ∀ (dir : files) sm,
    NoDup (item_paths items) →
    (force args = true → stored_by_name dir) →
    (∀ n e, (n, e) ∈ items → name e = n) →
    (force args = true →
     ∀ n e, (n, e) ∈ items → dir !! element_path n ≠ Some (JsonOther true)) →
    ∃ dir' sm',
      foldl (process args fs) (Done sm dir) items = Done sm' dir'
      ∧ (force args = true → stored_by_name dir')
      ∧ (∀ n e, (n, e) ∈ items →
                dir' !! element_path n = expected_file args fs dir n e)
      ∧ (∀ p, p ∉ item_paths items → dir' !! p = dir !! p)
      ∧ created sm'
        = created sm
          + length (List.filter
                      (fun item => counts Created (counted args fs dir item.1)) items)
      ∧ updated sm'
        = updated sm
          + length (List.filter
                      (fun item => counts Updated (counted args fs dir item.1)) items)
      ∧ skipped sm'
        = skipped sm
          + length (List.filter
                      (fun item => counts Skipped (counted args fs dir item.1)) items).
Proof.
  induction items as [|[n0 e0] items IH]; intros dir sm Hnd Hwf Hkeyed Hok.
  { exists dir, sm. simpl. split; [done|]. split; [done|].
    split; [intros n e H; inversion H|]. split; [done|]. lia. }
  change (item_paths ((n0, e0) :: items))
    with (element_path n0 :: item_paths items) in Hnd |- *.
  apply NoDup_cons in Hnd as [Hn0 Hnd].
  assert (name e0 = n0) as Hname0 by apply (Hkeyed n0 e0), list_elem_of_here.
  destruct (process_step args fs dir sm n0 e0 Hwf Hname0)
    as (dir1 & sm1 & Hstep & Hwf1 & Hhead & Hframe & Hc & Hu & Hs).
  { intros Hf. apply (Hok Hf n0 e0), list_elem_of_here. }
  assert (∀ n e, (n, e) ∈ items → element_path n ≠ element_path n0) as Hother.
  { intros n e Hin Heq. apply Hn0. rewrite <- Heq.
    apply list_elem_of_fmap. by exists (n, e). }
  destruct (IH dir1 sm1 Hnd Hwf1) as (dir' & sm' & Hrun & Hwf' & Hitems & Hrest & Hc' & Hu' & Hs').
  { intros n e Hin. by apply Hkeyed, list_elem_of_further. }
  { intros Hf n e Hin. rewrite (Hframe _ (Hother n e Hin)).
    by apply (Hok Hf n e), list_elem_of_further. }
  assert (∀ k, List.filter (fun item : string * Descriptor =>
                              counts k (counted args fs dir1 item.1)) items
               = List.filter (fun item => counts k (counted args fs dir item.1)) items)
    as Hsame.
  { intros k. apply List.filter_ext_in. intros [n e] Hin%list_elem_of_In.
    simpl. by rewrite (counted_ext args fs dir dir1 n (Hframe _ (Hother n e Hin))). }
  exists dir', sm'. split.
  { transitivity (foldl (process args fs) (Done sm1 dir1) items); [|exact Hrun].
    simpl. f_equal. exact Hstep. }
  split; [exact Hwf'|]. split; [|split].
  - intros n e [[= -> ->]|Hin]%elem_of_cons.
    + by rewrite Hrest.
    + rewrite (Hitems n e Hin). apply expected_file_ext, Hframe.
      by apply (Hother n e).
  - intros p Hp. apply not_elem_of_cons in Hp as [Hp0 Hp].
    rewrite (Hrest p Hp). by apply Hframe.
  - rewrite Hc', Hu', Hs', !Hsame, Hc, Hu, Hs. cbn [List.filter fst].
    destruct (counts Created (counted args fs dir n0)),
             (counts Updated (counted args fs dir n0)),
             (counts Skipped (counted args fs dir n0)); simpl; lia.
Qed.

Lemma stored_by_name_empty : stored_by_name ∅.
Proof. intros p d H. by rewrite lookup_empty in H. Qed.

Lemma item_paths_keys (els : PyDict.dict Descriptor) :
  item_paths els = element_path <$> PyDict.keys els.
Proof. unfold item_paths, PyDict.keys. by rewrite <- list_fmap_compose. Qed.

Lemma sorted_items_Permutation (els : PyDict.dict Descriptor) : sorted_items els ≡ₚ els.
Proof. apply merge_sort_Permutation. Qed.

Lemma filter_length_Permutation {X} (f : X → bool) (l l' : list X) :
  l ≡ₚ l' → length (List.filter f l) = length (List.filter f l').
Proof.
  induction 1 as [|x l l' _ IH|x y l|l l' l'' _ IH1 _ IH2]; simpl.
  - done.
  - destruct (f x); simpl; by rewrite IH.
  - destruct (f x), (f y); done.
  - by rewrite IH1.
Qed.

(** the run of [main] over its elements, when it does not raise *)
Lemma main_runs args fs docs (dir : files) :
  let els := elements (resolve_relationships (parse_all docs)) in
  els ≠ [] →
  NoDup (element_path <$> PyDict.keys els) →
  (force args = true → stored_by_name dir) →
  mergeable args dir els →
  ∃ dir' sm,
    main args fs docs dir = Done (0, sm) dir'
    ∧ (∀ n e, PyDict.get n els = Some e →
              dir' !! element_path n = expected_file args fs dir n e)
    ∧ (∀ p, p ∉ element_path <$> PyDict.keys els → dir' !! p = dir !! p)
    ∧ created sm = tally Created args fs dir els
    ∧ updated sm = tally Updated args fs dir els
    ∧ skipped sm = tally Skipped args fs dir els.
Proof.
  intros els Hne Hpaths Hwf Hok.
  assert (NoDup (PyDict.keys els)) as Hkeys by apply resolved_NoDup.
  assert (keyed els) as Hkeyed by apply resolved_keyed.
  destruct (fold_process args fs (sorted_items els) dir (mkSummary 0 0 0))
    as (dir' & sm & Hrun & _ & Hitems & Hrest & Hc & Hu & Hs).
  { rewrite item_paths_keys. unfold PyDict.keys.
    rewrite (sorted_items_Permutation els). exact Hpaths. }
  { exact Hwf. }
  { intros n' e' Hin. rewrite (sorted_items_Permutation els) in Hin.
    apply Hkeyed. by apply dict_elem_get. }
  { intros Hf n e Hin. rewrite (sorted_items_Permutation els) in Hin.
    apply (Hok Hf). apply list_elem_of_fmap. by exists (n, e). }
  exists dir', sm. split; [|split; [|split]].
  - unfold main, process_elements. fold els.
    destruct els as [|x els'] eqn:Hels; [done|]. by rewrite Hrun.
  - intros n e Hget. apply (Hitems n e).
    rewrite (sorted_items_Permutation els). by apply dict_get_elem.
  - intros p Hp. apply Hrest. rewrite item_paths_keys. unfold PyDict.keys.
    by rewrite (sorted_items_Permutation els).
  - unfold tally.
    rewrite <- !(filter_length_Permutation _ _ _ (sorted_items_Permutation els)).
    simpl in Hc, Hu, Hs. done.
Qed.

End WriteStage.

(** * Further properties *)

(** ** The resolver, beyond closure *)

Section ResolverMore.
Context {tables : PyStr.CaseMapping}.
Import XsdParser.
Implicit Types (els : PyDict.dict Descriptor) (n c k : string).

Lemma add_parent_recorded_id n c els C :
  PyDict.get c els = Some C → n ∈ dparents C → add_parent n c els = els.
Proof.
  intros HC Hn. unfold add_parent. rewrite HC.
  unfold dparents in Hn. by rewrite bool_decide_eq_true_2.
Qed.

Lemma resolve_one_recorded_id els n : recorded n els → resolve_one els n = els.
Proof.
  intros Hrec. unfold resolve_one.
  destruct (PyDict.get n els) as [P|] eqn:HP; [|done].
  assert (∀ cs, (∀ c, c ∈ cs → c ∈ dchildren P) →
                foldl (fun els c => add_parent n c els) els cs = els) as Hfold.
  { induction cs as [|c cs IH]; intros Hcs; simpl; [done|].
    assert (add_parent n c els = els) as ->.
    { destruct (PyDict.get c els) as [C|] eqn:HC.
      - eapply add_parent_recorded_id; [done|].
        eapply Hrec; eauto. apply Hcs, list_elem_of_here.
      - unfold add_parent. by rewrite HC. }
    apply IH. intros c' Hc'. by apply Hcs, list_elem_of_further. }
  by apply Hfold.
Qed.

Lemma fold_resolve_recorded_id els ks :
  (∀ n, recorded n els) → foldl resolve_one els ks = els.
Proof.
  intros Hrec. induction ks as [|k ks IH]; simpl; [done|].
  by rewrite resolve_one_recorded_id.
Qed.

Lemma only_parents_differ_refl (e : Descriptor) : only_parents_differ e e.
Proof. by destruct e. Qed.

Lemma only_parents_differ_trans (e1 e2 e3 : Descriptor) :
  only_parents_differ e1 e2 → only_parents_differ e2 e3 → only_parents_differ e1 e3.
Proof.
  unfold only_parents_differ. intros H12 H23. rewrite H23 at 1. rewrite H12.
  by destruct e1.
Qed.

Lemma add_parent_keys n c els : PyDict.keys (add_parent n c els) = PyDict.keys els.
Proof.
  unfold add_parent. destruct (PyDict.get c els) as [C|] eqn:HC; [|done].
  case_bool_decide; [done|]. rewrite dict_set_keys.
  rewrite decide_True; [done|]. by eapply dict_get_Some_keys.
Qed.

Lemma add_parent_only_parents n c els k :
  option_Forall2 only_parents_differ (PyDict.get k els) (PyDict.get k (add_parent n c els)).
Proof.
  unfold add_parent. destruct (PyDict.get c els) as [C|] eqn:HC.
  - case_bool_decide.
    + destruct (PyDict.get k els); constructor. apply only_parents_differ_refl.
    + rewrite dict_get_set. destruct (String.eqb_spec k c) as [->|].
      * rewrite HC. constructor. by destruct C.
      * destruct (PyDict.get k els); constructor. apply only_parents_differ_refl.
  - destruct (PyDict.get k els); constructor. apply only_parents_differ_refl.
Qed.

Lemma option_only_parents_trans (o1 o2 o3 : option Descriptor) :
  option_Forall2 only_parents_differ o1 o2 →
  option_Forall2 only_parents_differ o2 o3 →
  option_Forall2 only_parents_differ o1 o3.
Proof.
  intros H12 H23. destruct H12; inversion H23; subst; constructor.
  by eapply only_parents_differ_trans.
Qed.

Lemma resolve_one_frame els n :
  PyDict.keys (resolve_one els n) = PyDict.keys els
  ∧ ∀ k, option_Forall2 only_parents_differ
           (PyDict.get k els) (PyDict.get k (resolve_one els n)).
Proof.
  unfold resolve_one. destruct (PyDict.get n els) as [P|].
  - generalize (default [] (children P)). intros cs. revert els.
    induction cs as [|c cs IH]; intros els; simpl.
    + split; [done|]. intros k. destruct (PyDict.get k els); constructor.
      apply only_parents_differ_refl.
    + destruct (IH (add_parent n c els)) as [Hk Hg]. split.
      * by rewrite Hk, add_parent_keys.
      * intros k. eapply option_only_parents_trans; [apply add_parent_only_parents|apply Hg].
  - split; [done|]. intros k. destruct (PyDict.get k els); constructor.
    apply only_parents_differ_refl.
Qed.

Lemma fold_resolve_frame ks els :
  PyDict.keys (foldl resolve_one els ks) = PyDict.keys els
  ∧ ∀ k, option_Forall2 only_parents_differ
           (PyDict.get k els) (PyDict.get k (foldl resolve_one els ks)).
Proof.
  revert els. induction ks as [|n ks IH]; intros els; simpl.
  - split; [done|]. intros k. destruct (PyDict.get k els); constructor.
    apply only_parents_differ_refl.
  - destruct (IH (resolve_one els n)) as [Hk Hg].
    destruct (resolve_one_frame els n) as [Hk1 Hg1]. split.
    + by rewrite Hk, Hk1.
    + intros k. eapply option_only_parents_trans; [apply Hg1|apply Hg].
Qed.

End ResolverMore.

(** X1. Relationship resolution is idempotent: resolving a resolved table
    changes nothing, whatever the table was. *)
Theorem resolve_relationships_idempotent (self : XsdParser.t) :
  XsdParser.resolve_relationships (XsdParser.resolve_relationships self)
  = XsdParser.resolve_relationships self.
Proof.
  unfold XsdParser.resolve_relationships at 1.
  rewrite fold_resolve_recorded_id; [by destruct self|].
  intros n P c C HP Hc HC.
  by eapply (resolve_relationships_inverse self).
Qed.

(** X2. Relationship resolution changes nothing but parents lists: the
    table keeps its names in their order, every descriptor keeps all its
    other fields and the parents it had, and the type and group tables are
    the same. *)
Theorem resolve_relationships_only_adds_parents (self : XsdParser.t) :
  let self' := XsdParser.resolve_relationships self in
  PyDict.keys (XsdParser.elements self') = PyDict.keys (XsdParser.elements self)
  ∧ XsdParser.types self' = XsdParser.types self
  ∧ XsdParser.groups self' = XsdParser.groups self
  ∧ ∀ n,
      match PyDict.get n (XsdParser.elements self),
            PyDict.get n (XsdParser.elements self') with
      | Some e, Some e' => e' = set_parents (parents e') e ∧ dparents e ⊆ dparents e'
      | None, None => True
      | _, _ => False
      end.
Proof.
  simpl.
  destruct (fold_resolve_frame (PyDict.keys (XsdParser.elements self))
                               (XsdParser.elements self)) as [Hk Hg].
  split; [exact Hk|]. split; [done|]. split; [done|]. intros n.
  pose proof (Hg n) as Hn.
  pose proof (fold_resolve_extends (PyDict.keys (XsdParser.elements self))
                                   (XsdParser.elements self) n) as He.
  destruct Hn as [e e' Hd|]; [|done].
  inversion He as [? ? Hgr|]; subst. split; [exact Hd|]. apply Hgr.
Qed.

Section ResolverSound.
Context {tables : PyStr.CaseMapping}.
Import XsdParser.
Implicit Types (els : PyDict.dict Descriptor) (n c k : string).

Lemma extends_child els els' p P c :
  extends els els' → PyDict.get p els = Some P → c ∈ dchildren P →
  ∃ P', PyDict.get p els' = Some P' ∧ c ∈ dchildren P'.
Proof.
  intros Hext HP Hc. pose proof (Hext p) as Hp. rewrite HP in Hp.
  inversion Hp as [? P' (_ & Hch & _) |]; subst. exists P'. split; [done|].
  unfold dchildren in *. by rewrite Hch.
Qed.

Lemma add_parent_sound n c els P :
  parents_sound els → PyDict.get n els = Some P → c ∈ dchildren P →
  parents_sound (add_parent n c els).
Proof.
  intros Hs HP Hc c0 C0 HC0.
  pose proof (add_parent_extends n c els) as Hext.
  revert HC0. unfold add_parent.
  destruct (PyDict.get c els) as [C|] eqn:HC; [|by apply Hs].
  case_bool_decide as Hin; [by apply Hs|].
  assert (extends els (PyDict.set c (set_parents (Some (default [] (parents C) ++ [n])) C) els))
    as Hext'.
  { unfold add_parent in Hext. rewrite HC in Hext.
    by rewrite bool_decide_eq_false_2 in Hext. }
  rewrite dict_get_set. destruct (String.eqb_spec c0 c) as [->|Hne].
  - intros [= <-]. destruct (Hs c C HC) as [Hnd Hps]. unfold dparents. simpl. split.
    + apply NoDup_app. split; [done|]. split; [|apply NoDup_singleton].
      intros x Hx Hx'. apply list_elem_of_singleton in Hx'. by subst.
    + intros p [Hp|Hp]%elem_of_app.
      * destruct (Hps p Hp) as (P0 & HP0 & Hc0). by eapply extends_child.
      * apply list_elem_of_singleton in Hp as ->. by eapply extends_child.
  - intros HC0. destruct (Hs c0 C0 HC0) as [Hnd Hps]. split; [done|].
    intros p Hp. destruct (Hps p Hp) as (P0 & HP0 & Hc0). by eapply extends_child.
Qed.

Lemma resolve_one_sound els n : parents_sound els → parents_sound (resolve_one els n).
Proof.
  intros Hs. unfold resolve_one. destruct (PyDict.get n els) as [P|] eqn:HP; [|done].
  assert (∀ cs els', (∀ c, c ∈ cs → c ∈ dchildren P) → extends els els' →
                     parents_sound els' →
                     parents_sound (foldl (fun els c => add_parent n c els) els' cs))
    as Hfold.
  { induction cs as [|c cs IH]; intros els' Hcs Hext Hs'; simpl; [done|].
    destruct (extends_child els els' n P c Hext HP) as (P' & HP' & Hc').
    { apply Hcs, list_elem_of_here. }
    apply IH.
    - intros c' Hc''. by apply Hcs, list_elem_of_further.
    - eapply extends_trans; [exact Hext|apply add_parent_extends].
    - by eapply add_parent_sound. }
  apply Hfold; [done|apply extends_refl|done].
Qed.

Lemma parse_file_passes self root ns :
  parse_file self (Document root) ns
  = foldl (second_pass_step ns) (first_pass self root) (top_elements root).
Proof. reflexivity. Qed.

Lemma first_pass_elements self root : elements (first_pass self root) = elements self.
Proof.
  unfold first_pass.
  repeat (apply (foldl_invariant (fun s => elements s = elements self)); [by intros|]).
  done.
Qed.

Lemma parse_element_fields self elem ns d :
  _parse_element self elem ns = Some d →
  ET.get "name" elem = Some (name d) ∧ name d ≠ ""
  ∧ namespace d = Some ns ∧ since d = Some "v4"
  ∧ documentation d
    = Some ("https://wixtoolset.org/docs/schema/wxs/" +:+ PyStr.lower (name d) +:+ "/")
  ∧ parents d = Some [].
Proof.
  unfold _parse_element. destruct (ET.get "name" elem) as [nm|]; [|done].
  destruct (String.eqb_spec nm ""); [done|]. intros [= <-]. by simpl.
Qed.

Lemma parse_file_no_parents self doc ns :
  (∀ n e, PyDict.get n (elements self) = Some e → parents e = Some []) →
  ∀ n e, PyDict.get n (elements (parse_file self doc ns)) = Some e → parents e = Some [].
Proof.
  destruct doc as [|root]; [done|]. rewrite parse_file_passes. intros Hk.
  set (I := fun s : XsdParser.t =>
              ∀ n e, PyDict.get n (elements s) = Some e → parents e = Some []).
  change (I (foldl (second_pass_step ns) (first_pass self root) (top_elements root))).
  apply (foldl_invariant I).
  - intros s x Hs. unfold second_pass_step.
    destruct (_parse_element s x ns) as [d|] eqn:Hd; [|done].
    intros n e. simpl. rewrite dict_get_set.
    destruct (String.eqb_spec n (name d)) as [->|]; [|apply Hs].
    intros [= <-]. by apply parse_element_fields in Hd as (_&_&_&_&_&?).
  - unfold I. by rewrite first_pass_elements.
Qed.

Lemma parse_all_no_parents docs n e :
  PyDict.get n (elements (parse_all docs)) = Some e → parents e = Some [].
Proof.
  revert n e. unfold parse_all.
  apply (foldl_invariant
           (fun s => ∀ n e, PyDict.get n (elements s) = Some e → parents e = Some [])).
  - intros s [doc ns]. apply parse_file_no_parents.
  - intros n e. discriminate.
Qed.

End ResolverSound.

(** X3. After a parse run and its relationship resolution the parents lists
    are exact: every name among the parents of a descriptor is the name of
    a known descriptor that has it as a child, and no name is listed
    twice. *)
Theorem resolved_parents_are_exact {tables : PyStr.CaseMapping}
    (docs : list (parsed * string)) (c : string) (C : Descriptor) :
  let els := XsdParser.elements (XsdParser.resolve_relationships (parse_all docs)) in
  PyDict.get c els = Some C →
  NoDup (dparents C)
  ∧ ∀ p, p ∈ dparents C →
         ∃ P, PyDict.get p els = Some P ∧ name P = p ∧ c ∈ dchildren P.
Proof.
  intros els HC.
  assert (parents_sound els) as Hs.
  { unfold els. simpl.
    apply (foldl_invariant parents_sound); [intros; by apply resolve_one_sound|].
    intros c0 C0 HC0. unfold dparents.
    rewrite (parse_all_no_parents docs c0 C0 HC0). split; [constructor|].
    intros p Hp. by apply elem_of_nil in Hp. }
  destruct (Hs c C HC) as [Hnd Hps]. split; [done|].
  intros p Hp. destruct (Hps p Hp) as (P & HP & Hc). exists P.
  split; [done|]. split; [|done].
  eapply (extends_keyed (XsdParser.elements (parse_all docs)) els); [|apply parse_all_keyed|done].
  apply fold_resolve_extends.
Qed.

Lemma resolved_parents_are_exact_witness :
  let tables := PyStr.ascii_case in
  ∃ C P,
    let els := XsdParser.elements
                 (XsdParser.resolve_relationships
                    (parse_all [(Document Sample.inline_group, "wix")])) in
    PyDict.get "Inner" els = Some C ∧ dparents C = ["Outer"]
    ∧ PyDict.get "Outer" els = Some P ∧ name P = "Outer" ∧ "Inner" ∈ dchildren P.
Proof.
  intros tables.
  eexists _, _. split; [vm_compute; reflexivity|]. split; [vm_compute; reflexivity|].
  destruct (resolved_parents_are_exact
              [(Document Sample.inline_group, "wix")] "Inner" _ eq_refl)
    as [_ Hps].
  destruct (Hps "Outer") as (P & HP & Hn & Hc); [apply list_elem_of_here|].
  vm_compute in HP. injection HP as <-. repeat split. exact Hc.
Defined.

(** ** The two passes of the parser *)

Section ParserPasses.
Context {tables : PyStr.CaseMapping}.
Import XsdParser.

Lemma parse_element_ext (s s' : XsdParser.t) elem ns :
  types s = types s' → groups s = groups s' →
  _parse_element s elem ns = _parse_element s' elem ns.
Proof.
  intros Ht Hg. unfold _parse_element, _parse_complex_type.
  by rewrite Ht, Hg.
Qed.

Lemma second_pass_step_tables ns s elem :
  types (second_pass_step ns s elem) = types s
  ∧ groups (second_pass_step ns s elem) = groups s.
Proof. unfold second_pass_step. by destruct (_parse_element s elem ns). Qed.

Lemma second_pass_step_get ns s elem n :
  PyDict.get n (elements (second_pass_step ns s elem))
  = if declares n elem then _parse_element s elem ns else PyDict.get n (elements s).
Proof.
  unfold second_pass_step, declares.
  destruct (_parse_element s elem ns) as [d|] eqn:Hd.
  - pose proof (parse_element_fields s elem ns d Hd) as (Hname & Hne & _).
    simpl. rewrite dict_get_set, Hname.
    destruct (String.eqb_spec n (name d)) as [->|Hn].
    + rewrite bool_decide_eq_true_2 by done.
      by destruct (String.eqb_spec (name d) "").
    + rewrite bool_decide_eq_false_2; [done|]. intros [= Heq]. by apply Hn.
  - revert Hd. unfold _parse_element. destruct (ET.get "name" elem) as [nm|].
    + destruct (String.eqb_spec nm "") as [->|]; [|done]. intros _.
      case_bool_decide as Hn; [|done]. injection Hn as <-. done.
    + intros _. by rewrite bool_decide_eq_false_2.
Qed.

Lemma second_pass_get ns n l :
  ∀ s,
    PyDict.get n (elements (foldl (second_pass_step ns) s l))
    = match last (List.filter (declares n) l) with
      | Some elem => _parse_element s elem ns
      | None => PyDict.get n (elements s)
      end.
Proof.
  induction l as [|e l IH]; intros s; [reflexivity|].
  change (foldl (second_pass_step ns) s (e :: l))
    with (foldl (second_pass_step ns) (second_pass_step ns s e) l).
  rewrite IH. destruct (second_pass_step_tables ns s e) as [Ht Hg]. simpl.
  destruct (last (List.filter (declares n) l)) as [e'|] eqn:Hlast.
  - rewrite (parse_element_ext _ s e' ns Ht Hg).
    destruct (declares n e); [by rewrite last_cons, Hlast|by rewrite Hlast].
  - rewrite second_pass_step_get.
    destruct (declares n e); [by rewrite last_cons, Hlast|by rewrite Hlast].
Qed.

Lemma dict_set_prefix {V} k (v : V) (d : PyDict.dict V) :
  PyDict.keys d `prefix_of` PyDict.keys (PyDict.set k v d).
Proof.
  rewrite dict_set_keys. case_decide; [done|]. by apply prefix_app_r.
Qed.

End ParserPasses.

Lemma parse_file_last_wins_lemma {tables : PyStr.CaseMapping} (self : XsdParser.t) (root : xml) (ns n : string) :
  PyDict.get n (XsdParser.elements (XsdParser.parse_file self (Document root) ns))
  = match last (List.filter (declares n) (top_elements root)) with
    | Some elem => XsdParser._parse_element (first_pass self root) elem ns
    | None => PyDict.get n (XsdParser.elements self)
    end.
Proof.
  rewrite parse_file_passes, second_pass_get.
  destruct (last _); [done|]. by rewrite first_pass_elements.
Qed.

(** X4. In the element table a document's last declaration of a name wins:
    after [parse_file], the entry of [n] is the descriptor of the last
    top-level element named [n], built from the tables of the first pass
    and tagged with the namespace of the call, and the entry the parser had
    if the document declares no such element. *)
Theorem parse_file_last_declaration_wins {tables : PyStr.CaseMapping}
    (self : XsdParser.t) (root : xml) (ns n : string) :
  let self' := XsdParser.parse_file self (Document root) ns in
  XsdParser.types self' = XsdParser.types (first_pass self root)
  ∧ XsdParser.groups self' = XsdParser.groups (first_pass self root)
  ∧ match last (List.filter (declares n) (top_elements root)) with
    | Some elem =>
        ∃ d, XsdParser._parse_element (first_pass self root) elem ns = Some d
             ∧ PyDict.get n (XsdParser.elements self') = Some d
             ∧ name d = n ∧ namespace d = Some ns
    | None =>
        PyDict.get n (XsdParser.elements self') = PyDict.get n (XsdParser.elements self)
    end.
Proof.
  intros self'. unfold self'. rewrite parse_file_passes.
  split; [|split].
  - apply (foldl_invariant
             (fun s => XsdParser.types s = XsdParser.types (first_pass self root)));
      [|done].
    intros s x <-. apply second_pass_step_tables.
  - apply (foldl_invariant
             (fun s => XsdParser.groups s = XsdParser.groups (first_pass self root)));
      [|done].
    intros s x <-. apply second_pass_step_tables.
  - rewrite second_pass_get.
    destruct (last _) as [elem|] eqn:Hlast; [|by rewrite first_pass_elements].
    apply last_Some_elem_of, list_elem_of_In, filter_In in Hlast as [_ Hdecl].
    unfold declares in Hdecl. apply andb_prop in Hdecl as [Hname Hne].
    apply bool_decide_eq_true in Hname.
    destruct (XsdParser._parse_element (first_pass self root) elem ns) as [d|] eqn:Hd.
    + exists d. split; [done|]. split; [done|].
      apply parse_element_fields in Hd as (Hn & _ & Hns & _).
      split; [congruence|done].
    + exfalso. revert Hd. unfold XsdParser._parse_element. rewrite Hname.
      destruct (String.eqb n ""); done.
Qed.

(** X5. Parsing a further document never removes or moves what the parser
    has: the names of the element table stay, in their order, at the front
    of the table, and every known type and group name stays known. *)
Theorem parse_file_tables_grow {tables : PyStr.CaseMapping} (self : XsdParser.t) (doc : parsed) (ns : string) :
  let self' := XsdParser.parse_file self doc ns in
  PyDict.keys (XsdParser.elements self) `prefix_of` PyDict.keys (XsdParser.elements self')
  ∧ dom (XsdParser.types self) ⊆ dom (XsdParser.types self')
  ∧ dom (XsdParser.groups self) ⊆ dom (XsdParser.groups self').
Proof.
  destruct doc as [|root]; [done|]. simpl.
  set (I := fun s : XsdParser.t =>
              PyDict.keys (XsdParser.elements self)
                `prefix_of` PyDict.keys (XsdParser.elements s)
              ∧ dom (XsdParser.types self) ⊆ dom (XsdParser.types s)
              ∧ dom (XsdParser.groups self) ⊆ dom (XsdParser.groups s)).
  change (I (XsdParser.parse_file self (Document root) ns)).
  unfold XsdParser.parse_file.
  apply (foldl_invariant I).
  { intros s x (Hk & Ht & Hg).
    destruct (XsdParser._parse_element s x ns) as [d|]; [|done].
    split; [|done]. simpl. etrans; [exact Hk|apply dict_set_prefix]. }
  apply (foldl_invariant I).
  { intros s x (Hk & Ht & Hg). split; [done|]. split; [done|]. simpl.
    rewrite dom_insert. set_solver. }
  apply (foldl_invariant I).
  { intros s x (Hk & Ht & Hg). split; [done|]. split; [|done]. simpl.
    rewrite dom_insert. set_solver. }
  apply (foldl_invariant I).
  { intros s x (Hk & Ht & Hg). split; [done|]. split; [|done]. simpl.
    rewrite dom_insert. set_solver. }
  done.
Qed.

(** ** The shape of what the parser builds *)

Section ParserShape.
Context {tables : PyStr.CaseMapping}.
Import XsdParser.

Lemma or_else_truthy o d : d ≠ "" → PyStr.truthy (Some (PyStr.or_else o d)) = true.
Proof.
  intros Hd. unfold PyStr.or_else. destruct o as [s|]; [|by apply truthy_Some].
  destruct (String.eqb_spec s ""); by apply truthy_Some.
Qed.

Lemma refs_nonempty (l : list xml) : "" ∉ refs l.
Proof. intros (e & _ & _ & Hne)%elem_of_refs. done. Qed.

Lemma type_mapping_kinds k v :
  PyDict.get k type_mapping = Some v → v ∈ kinds ∧ v ≠ "enum".
Proof.
  intros H%dict_get_loc_elem.
  assert (Forall (fun v => v ∈ kinds ∧ v ≠ "enum") type_mapping.*2) as Hall
    by (repeat constructor; (compute_done || discriminate)).
  rewrite Forall_forall in Hall. by apply Hall.
Qed.

Lemma mapped_type_kinds tys attr_type : mapped_type tys attr_type ∈ kinds.
Proof.
  assert (default "string" (PyDict.get attr_type type_mapping) ∈ kinds) as Hd.
  { destruct (PyDict.get attr_type type_mapping) as [v|] eqn:Hv; simpl.
    - by apply type_mapping_kinds in Hv as [? _].
    - compute_done. }
  unfold mapped_type. destruct (tys !! attr_type); [|done].
  case_bool_decide; [compute_done|done].
Qed.

Lemma mapped_type_enum tys attr_type :
  mapped_type tys attr_type = "enum" ↔
  ∃ ti, tys !! attr_type = Some ti ∧ type_kind ti = Some "enum".
Proof.
  assert (default "string" (PyDict.get attr_type type_mapping) ≠ "enum") as Hd.
  { destruct (PyDict.get attr_type type_mapping) as [v|] eqn:Hv; simpl; [|done].
    by apply type_mapping_kinds in Hv as [_ ?]. }
  unfold mapped_type. destruct (tys !! attr_type) as [ti|].
  - case_bool_decide as Hk.
    + split; [by eauto|done].
    + split; [done|]. intros (ti' & [= <-] & Hk'). done.
  - split; [done|]. by intros (ti' & ? & _).
Qed.

Lemma parse_attribute_well_formed tys attr n d :
  (∀ tn ti, tys !! tn = Some ti → type_well_formed ti) →
  _parse_attribute tys attr = Some (n, d) → n ≠ "" ∧ attr_well_formed d.
Proof.
  intros Htys. unfold _parse_attribute.
  destruct (ET.get "name" attr) as [nm|]; [|done].
  destruct (String.eqb_spec nm "") as [|Hnm]; [done|]. intros [= <- <-].
  split; [done|]. unfold attr_well_formed. simpl.
  set (at_ := ET.get_or "type" "string" attr).
  split; [exists (mapped_type tys at_); split; [done|apply mapped_type_kinds]|].
  split; [by eauto|]. split; [by apply or_else_truthy|]. split.
  { intros v. destruct (ET.get "default" attr) as [s|]; simpl; [|done].
    destruct (String.eqb_spec s ""); simpl; [done|]. by intros [= <-]. }
  destruct (String.eqb_spec (mapped_type tys at_) "enum") as [Henum|Hne].
  - apply mapped_type_enum in Henum as Hti. destruct Hti as (ti & Hti & Hk).
    rewrite Hti. simpl. split; [split; [by eauto|by rewrite Henum]|].
    intros vs [= <-]. specialize (Htys _ _ Hti).
    destruct ti as [|k vs]; [done|]. simpl in *. injection Hk as ->.
    destruct Htys as [(_ & l & -> & Hl & Hl')|[? _]]; [done|done].
  - split; [|done]. split; [by intros [= ?]|by intros [? ?]].
Qed.

Lemma parse_complex_type_well_formed s te :
  parser_well_formed s → type_well_formed (_parse_complex_type s te).
Proof.
  intros (Htys & Hgroups & _). unfold _parse_complex_type. simpl. split.
  - apply (foldl_invariant attrs_well_formed).
    + intros acc a [Hnd Hacc].
      destruct (_parse_attribute (types s) a) as [[n d]|] eqn:Ha; [|done].
      apply parse_attribute_well_formed in Ha as [Hn Hd]; [|done].
      split; [by apply dict_set_NoDup|]. intros k d'. rewrite dict_get_set.
      destruct (String.eqb_spec k n) as [->|]; [by intros [= <-]|apply Hacc].
    + split; [constructor|]. intros k d. discriminate.
  - intros [H|H]%elem_of_app.
    + unfold direct_children in H. apply elem_of_flat_map in H as (c & _ & H).
      by apply refs_nonempty in H.
    + unfold group_children in H. apply elem_of_flat_map in H as (g & _ & H).
      destruct (groups s !! g) as [l|] eqn:Hg; simpl in H; [|by apply elem_of_nil in H].
      by apply (Hgroups g l).
Qed.

Lemma parse_simple_type_well_formed te : type_well_formed (_parse_simple_type te).
Proof.
  unfold _parse_simple_type.
  match goal with |- context [omap ?f ?l] =>
    assert ("" ∉ omap f l) as Hne; [|destruct (omap f l) as [|v vs] eqn:Hvs] end.
  - intros (e & _ & He)%list_elem_of_omap.
    destruct (ET.get "value" e) as [v|]; [|done].
    destruct (String.eqb_spec v ""); [done|]. by injection He as ->.
  - by right.
  - left. split; [done|]. by exists (v :: vs).
Qed.

Lemma parse_element_well_formed s elem ns d :
  parser_well_formed s → _parse_element s elem ns = Some d →
  descriptor_well_formed (name d) d.
Proof.
  intros Hs Hd. pose proof Hs as (Htys & _ & _).
  pose proof (parse_element_fields s elem ns d Hd) as (_ & Hne & Hns & Hsince & Hdoc & Hp).
  revert Hd. unfold _parse_element. destruct (ET.get "name" elem) as [nm|]; [|done].
  destruct (String.eqb_spec nm ""); [done|]. intros [= <-]. simpl in *.
  split; [done|]. split; [done|]. split; [by eauto|]. split; [done|]. split; [done|].
  split; [by apply or_else_truthy|]. split; [by eauto|].
  match goal with |- context [from_option type_children [] ?o] =>
    assert (∀ ti, o = Some ti → type_well_formed ti) as Hti; [|destruct o as [ti|]] end.
  { intros ti. destruct (ET.get "type" elem) as [tn|].
    - destruct (String.eqb tn "").
      + destruct (ET.find_child _ elem); [|done]. intros [= <-].
        by apply parse_complex_type_well_formed.
      + destruct (types s !! tn) as [ti'|] eqn:Htn.
        * intros [= <-]. by eapply Htys.
        * destruct (ET.find_child _ elem); [|done]. intros [= <-].
          by apply parse_complex_type_well_formed.
    - destruct (ET.find_child _ elem); [|done]. intros [= <-].
      by apply parse_complex_type_well_formed. }
  - specialize (Hti ti eq_refl). simpl. destruct ti as [attrs cs|k vs]; simpl.
    + destruct Hti as [Ha Hc]. split; by eauto.
    + split; [exists []; split; [done|by intros ?%elem_of_nil]|].
      exists []. split; [done|]. split; [constructor|]. intros k' d'. discriminate.
  - simpl. split; [exists []; split; [done|by intros ?%elem_of_nil]|].
    exists []. split; [done|]. split; [constructor|]. intros k' d'. discriminate.
Qed.

Lemma parse_file_well_formed s doc ns :
  parser_well_formed s → parser_well_formed (parse_file s doc ns).
Proof.
  destruct doc as [|root]; [done|]. unfold parse_file. intros Hs.
  apply (foldl_invariant parser_well_formed).
  { intros s' x Hs'. destruct (_parse_element s' x ns) as [d|] eqn:Hd; [|done].
    pose proof (parse_element_well_formed s' x ns d Hs' Hd) as Hwf.
    destruct Hs' as (Ht & Hg & He). split; [done|]. split; [done|].
    intros n e. simpl. rewrite dict_get_set.
    destruct (String.eqb_spec n (name d)) as [->|]; [by intros [= <-]|apply He]. }
  apply (foldl_invariant parser_well_formed).
  { intros s' x (Ht & Hg & He). split; [done|]. split; [|done].
    intros g l. simpl. destruct (decide (name_of x = g)) as [<-|].
    - rewrite lookup_insert_eq. intros [= <-]. apply refs_nonempty.
    - rewrite lookup_insert_ne by done. apply Hg. }
  apply (foldl_invariant parser_well_formed).
  { intros s' x (Ht & Hg & He). split; [|done].
    intros tn ti. simpl. destruct (decide (name_of x = tn)) as [<-|].
    - rewrite lookup_insert_eq. intros [= <-]. apply parse_simple_type_well_formed.
    - rewrite lookup_insert_ne by done. apply Ht. }
  apply (foldl_invariant parser_well_formed); [|done].
  intros s' x Hs'. pose proof Hs' as (Ht & Hg & He). split; [|done].
  intros tn ti. simpl. destruct (decide (name_of x = tn)) as [<-|].
  - rewrite lookup_insert_eq. intros [= <-]. by apply parse_complex_type_well_formed.
  - rewrite lookup_insert_ne by done. apply Ht.
Qed.

Lemma parse_all_well_formed docs : parser_well_formed (parse_all docs).
Proof.
  unfold parse_all. apply (foldl_invariant parser_well_formed).
  - intros s [doc ns]. apply parse_file_well_formed.
  - split; [|split]; intros ? ? H; simpl in H; [by rewrite lookup_empty in H..|done].
Qed.

Lemma fold_resolve_parents_present ks (els : PyDict.dict Descriptor) :
  (∀ n e, PyDict.get n els = Some e → is_Some (parents e)) →
  ∀ n e, PyDict.get n (foldl resolve_one els ks) = Some e → is_Some (parents e).
Proof.
  set (J := fun els : PyDict.dict Descriptor =>
              ∀ n e, PyDict.get n els = Some e → is_Some (parents e)).
  intros Hels. change (J (foldl resolve_one els ks)).
  apply (foldl_invariant J); [|done].
  intros els' k Hels'. unfold resolve_one. destruct (PyDict.get k els'); [|done].
  apply (foldl_invariant J); [|done].
  intros els'' c Hels''. unfold add_parent.
  destruct (PyDict.get c els'') as [C|]; [|done]. case_bool_decide; [done|].
  intros n e. rewrite dict_get_set. destruct (String.eqb_spec n c) as [->|].
  - intros [= <-]. by eauto.
  - apply Hels''.
Qed.

Lemma resolved_well_formed docs n e :
  PyDict.get n (elements (resolve_relationships (parse_all docs))) = Some e →
  descriptor_well_formed n e.
Proof.
  intros He. destruct (parse_all_well_formed docs) as (_ & _ & Hwf).
  assert (is_Some (parents e)) as Hpar.
  { eapply fold_resolve_parents_present; [|exact He].
    intros n0 e0 He0. by apply Hwf in He0 as (?&?&?&?&?&?&?&?&?). }
  destruct (fold_resolve_frame (PyDict.keys (elements (parse_all docs)))
                               (elements (parse_all docs))) as [_ Hg].
  specialize (Hg n). simpl in He. rewrite He in Hg.
  inversion Hg as [e0 ? Hd He0|]; subst. symmetry in He0.
  specialize (Hwf n e0 He0). rewrite Hd. rewrite Hd in Hpar.
  destruct Hwf as (H1&H2&H3&H4&H5&H6&H7&H8&H9).
  unfold descriptor_well_formed. by simpl.
Qed.

End ParserShape.

Lemma parse_all_namespaces {tables : PyStr.CaseMapping} docs n e :
  PyDict.get n (XsdParser.elements (parse_all docs)) = Some e →
  ∃ doc ns, (doc, ns) ∈ docs ∧ namespace e = Some ns.
Proof.
  set (I := fun s : XsdParser.t =>
              ∀ n e, PyDict.get n (XsdParser.elements s) = Some e →
                     ∃ doc ns, (doc, ns) ∈ docs ∧ namespace e = Some ns).
  revert n e. change (I (parse_all docs)). unfold parse_all.
  apply (foldl_invariant_elem I); [|intros n e; discriminate].
  intros s [doc ns] Hin Hs. destruct doc as [|root]; [done|].
  intros n e. rewrite parse_file_last_wins_lemma.
  destruct (last _) as [elem|]; [|apply Hs].
  intros Hd. apply parse_element_fields in Hd as (_ & _ & Hns & _). by eauto.
Qed.

(** X6. Every descriptor a run extracts is complete: it is stored under its
    own, non-empty name, carries the namespace of one of the documents, the
    version tag, the documentation address built from its lower-cased name
    and a non-empty description, lists as children only non-empty names
    and as parents only names of the table, and has its attributes under
    distinct names. *)
Theorem extracted_descriptor_is_complete {tables : PyStr.CaseMapping}
    (docs : list (parsed * string)) (n : string) (e : Descriptor) :
  let els := XsdParser.elements (XsdParser.resolve_relationships (parse_all docs)) in
  PyDict.get n els = Some e →
  name e = n ∧ n ≠ ""
  ∧ (∃ doc ns, (doc, ns) ∈ docs ∧ namespace e = Some ns)
  ∧ since e = Some "v4"
  ∧ documentation e
    = Some ("https://wixtoolset.org/docs/schema/wxs/" +:+ PyStr.lower n +:+ "/")
  ∧ (∃ s, description e = Some s ∧ s ≠ "")
  ∧ (∃ cs, children e = Some cs ∧ "" ∉ cs)
  ∧ (∃ ps, parents e = Some ps ∧ ∀ p, p ∈ ps → p ∈ PyDict.keys els)
  ∧ (∃ attrs, attributes e = Some attrs ∧ NoDup (PyDict.keys attrs)).
Proof.
  intros els He.
  destruct (resolved_well_formed docs n e He)
    as (H1&H2&_&H4&H5&H6&H7&H8&attrs&Hattrs&Hnd&_).
  split; [done|]. split; [done|]. split.
  { destruct (fold_resolve_frame (PyDict.keys (XsdParser.elements (parse_all docs)))
                                 (XsdParser.elements (parse_all docs))) as [_ Hg].
    specialize (Hg n). pose proof He as He'. unfold els in He'. simpl in He'.
    rewrite He' in Hg.
    inversion Hg as [e0 ? Hd He0|]; subst. symmetry in He0.
    destruct (parse_all_namespaces docs _ e0 He0) as (doc & ns & Hin & Hns).
    exists doc, ns. split; [done|]. rewrite Hd. by simpl. }
  split; [done|]. split; [done|]. split.
  { destruct (description e) as [s|]; [|done]. exists s. split; [done|].
    intros ->. done. }
  split; [done|]. split; [|by exists attrs]. destruct H7 as [ps Hps].
  exists ps. split; [done|]. intros p Hp.
  assert (parents_sound els) as Hs.
  { unfold els. simpl.
    apply (foldl_invariant parents_sound); [intros; by apply resolve_one_sound|].
    intros c0 C0 HC0. unfold dparents.
    rewrite (parse_all_no_parents docs c0 C0 HC0). split; [constructor|].
    intros p' Hp'. by apply elem_of_nil in Hp'. }
  destruct (Hs n e He) as [_ Hsound].
  destruct (Hsound p) as (P & HP & _); [unfold dparents; by rewrite Hps|].
  by eapply dict_get_Some_keys.
Qed.

Lemma extracted_descriptor_is_complete_witness :
  let tables := PyStr.ascii_case in
  ∃ e, PyDict.get "Inner"
         (XsdParser.elements
            (XsdParser.resolve_relationships
               (parse_all [(Document Sample.inline_group, "wix")]))) = Some e
       ∧ name e = "Inner" ∧ since e = Some "v4"
       ∧ documentation e = Some "https://wixtoolset.org/docs/schema/wxs/inner/".
Proof.
  intros tables.
  eexists. split; [vm_compute; reflexivity|].
  destruct (extracted_descriptor_is_complete
              [(Document Sample.inline_group, "wix")] "Inner" _ eq_refl)
    as (Hn & _ & _ & Hs & Hd & _).
  split; [exact Hn|]. split; [exact Hs|exact Hd].
Defined.

(** X7. Every attribute a run extracts is well formed: its name is not
    empty and names it once in its element; its type is one of the six
    kinds; it has a required flag and a non-empty description; a default,
    if present, is not empty; and it has values exactly when it is an
    enum, then at least one and none of them empty. *)
Theorem extracted_attribute_is_well_formed {tables : PyStr.CaseMapping}
    (docs : list (parsed * string)) (n : string) (e : Descriptor)
    (attrs : PyDict.dict AttrDef) (k : string) (d : AttrDef) :
  let els := XsdParser.elements (XsdParser.resolve_relationships (parse_all docs)) in
  PyDict.get n els = Some e →
  attributes e = Some attrs →
  PyDict.get k attrs = Some d →
  NoDup (PyDict.keys attrs) ∧ k ≠ ""
  ∧ (∃ t, attr_type d = Some t ∧ t ∈ kinds)
  ∧ is_Some (attr_required d)
  ∧ (∃ s, attr_description d = Some s ∧ s ≠ "")
  ∧ (∀ v, attr_default d = Some v → v ≠ "")
  ∧ (attr_type d = Some "enum" ↔ is_Some (attr_values d))
  ∧ (∀ vs, attr_values d = Some vs → vs ≠ [] ∧ "" ∉ vs).
Proof.
  intros els He Ha Hk.
  destruct (resolved_well_formed docs n e He) as (_&_&_&_&_&_&_&_&attrs'&Ha'&Hnd&Hwf).
  rewrite Ha in Ha'. injection Ha' as <-.
  destruct (Hwf k d Hk) as (Hne & Ht & Hr & Hd & Hdef & Henum & Hvs).
  split; [done|]. split; [done|]. split; [done|]. split; [done|]. split.
  { destruct (attr_description d) as [s|]; [|done]. exists s. split; [done|].
    intros ->. done. }
  done.
Qed.

Lemma extracted_attribute_is_well_formed_witness :
  let tables := PyStr.ascii_case in
  ∃ e attrs d,
    PyDict.get "Foo"
      (XsdParser.elements
         (XsdParser.resolve_relationships
            (parse_all [(Document Sample2.foo_schema, "wix")]))) = Some e
    ∧ attributes e = Some attrs ∧ PyDict.get "Baz" attrs = Some d
    ∧ attr_values d = Some ["a"; "b"]
    ∧ attr_type d = Some "enum".
Proof.
  intros tables.
  eexists _, _, _. split; [vm_compute; reflexivity|]. split; [reflexivity|].
  split; [vm_compute; reflexivity|]. split; [reflexivity|].
  destruct (extracted_attribute_is_well_formed
              [(Document Sample2.foo_schema, "wix")] "Foo" _ _ "Baz" _
              eq_refl eq_refl eq_refl) as (_ & _ & _ & _ & _ & _ & Henum & _).
  apply Henum. by eexists.
Defined.

Section GroupTable.
Context {tables : PyStr.CaseMapping}.
Import XsdParser.

Lemma group_pass_get G l :
  ∀ s,
    groups (foldl (fun self group_elem =>
                     set_groups (<[name_of group_elem := _parse_group group_elem]>
                                   (groups self)) self) s l) !! G
    = match last (List.filter (names_group G) l) with
      | Some g => Some (_parse_group g)
      | None => groups s !! G
      end.
Proof.
  induction l as [|x l IH]; intros s; [reflexivity|].
  simpl foldl. rewrite IH. simpl. unfold names_group at 2.
  destruct (String.eqb_spec (name_of x) G) as [<-|Hne].
  - rewrite last_cons. destruct (last _); [done|]. apply lookup_insert_eq.
  - destruct (last _); [done|]. by apply lookup_insert_ne.
Qed.

End GroupTable.

(** X8. One level of group indirection is followed for an inline type: if
    the last declaration of [n] in a document has no type attribute and an
    inline complex type that refers to group [G], and the document's last
    group named [G] holds a reference to [inner], then after [parse_file]
    the descriptor of [n] has [inner] among its children. *)
Theorem inline_type_follows_group {tables : PyStr.CaseMapping}
    (self : XsdParser.t) (root : xml) (ns n G inner : string)
    (elem ct g gdef r : xml) :
  last (List.filter (declares n) (top_elements root)) = Some elem →
  ET.get "type" elem = None →
  ET.find_child (XsdParser.XS +:+ "complexType") elem = Some ct →
  g ∈ ET.findall (XsdParser.XS +:+ "group") ct →
  ET.get "ref" g = Some G → G ≠ "" →
  last (List.filter (names_group G)
                    (ET.findall_named (XsdParser.XS +:+ "group") root)) = Some gdef →
  r ∈ ET.findall (XsdParser.XS +:+ "element") gdef →
  ET.get "ref" r = Some inner → inner ≠ "" →
  ∃ d, PyDict.get n (XsdParser.elements (XsdParser.parse_file self (Document root) ns))
       = Some d
       ∧ inner ∈ dchildren d.
Proof.
  intros Hlast Htype Hct Hg Href HG Hgdef Hr Hrref Hinner.
  rewrite parse_file_passes, second_pass_get, Hlast.
  pose proof Hlast as Hdecl.
  apply last_Some_elem_of, list_elem_of_In, filter_In in Hdecl as [_ Hdecl].
  unfold declares in Hdecl. apply andb_prop in Hdecl as [Hname Hne].
  apply bool_decide_eq_true in Hname.
  eapply (inline_type_expands_known_group (first_pass self root) elem ns n ct g G
            (XsdParser._parse_group gdef) inner); try done.
  - intros ->. done.
  - unfold first_pass. by rewrite group_pass_get, Hgdef.
  - unfold XsdParser._parse_group. apply elem_of_refs. by exists r.
Qed.

Lemma inline_type_follows_group_witness :
  let tables := PyStr.ascii_case in
  ∃ d, PyDict.get "Outer"
         (XsdParser.elements
            (XsdParser.parse_file XsdParser.init (Document Sample.inline_group) "wix"))
       = Some d
       ∧ "Inner" ∈ dchildren d.
Proof.
  intros tables.
  eapply (inline_type_follows_group
            XsdParser.init Sample.inline_group "wix" "Outer" "G" "Inner"
            _ _ (Sample.xs "group" [("ref", "G")] []) _
            (Sample.xs "element" [("ref", "Inner")] []));
    try (vm_compute; reflexivity); try discriminate.
  - vm_compute. apply list_elem_of_here.
  - vm_compute. apply list_elem_of_here.
Defined.

(** ** Runs *)

Section Runs.
Context {tables : PyStr.CaseMapping}.
Import XsdParser.

Lemma fold_process_raised args fs items (dir : files) :
  foldl (process args fs) (Raised dir) items = Raised dir.
Proof. induction items as [|item items IH]; [done|exact IH]. Qed.

Lemma held_loaded (dir : files) n :
  held dir (element_path n) = true ↔
  (∃ d, load_existing_element dir n = Some (Loaded d))
  ∨ load_existing_element dir n = Some (LoadedOther true).
Proof.
  unfold held, load_existing_element.
  destruct (dir !! element_path n) as [[|d|[|]]|]; split; try done;
    try (by intros [[? ?]|?]); by eauto.
Qed.

(** a dry run writes nothing *)
Lemma process_dry_run args fs st item :
  dry_run args = true → final_dir (process args fs st item) = final_dir st.
Proof.
  intros Hdry. destruct st as [sm dir|dir]; [|done]. destruct item as [n e].
  unfold process, write_element. rewrite Hdry.
  destruct (load_existing_element dir n) as [[existing|[|]]|];
    destruct (force args); done.
Qed.

Lemma fold_process_dry_run args fs items :
  dry_run args = true →
  ∀ st, final_dir (foldl (process args fs) st items) = final_dir st.
Proof.
  intros Hdry. induction items as [|item items IH]; intros st; [done|].
  change (foldl (process args fs) st (item :: items))
    with (foldl (process args fs) (process args fs st item) items).
  by rewrite IH, process_dry_run.
Qed.

Lemma process_elements_dry_run args fs xsd_parser (dir : files) :
  dry_run args = true → final_dir (process_elements args fs xsd_parser dir) = dir.
Proof.
  intros Hdry. unfold process_elements.
  destruct (elements (resolve_relationships xsd_parser)) as [|x els] eqn:Hels; [done|].
  pose proof (fold_process_dry_run args fs (sorted_items (x :: els)) Hdry
                                   (Done (mkSummary 0 0 0) dir)) as Hfold.
  by destruct (foldl _ _ _).
Qed.

(** after an element has been processed on a file system that writes its
    file, the file is held, and so is every held file that the file system
    writes *)
Lemma process_makes_held args fs (dir dir' : files) sm sm' n e :
  dry_run args = false → name e = n → fs (element_path n) = Written →
  process args fs (Done sm dir) (n, e) = Done sm' dir' →
  held dir' (element_path n) = true
  ∧ ∀ p, fs p = Written → held dir p = true → held dir' p = true.
Proof.
  intros Hdry Hname Hfs. unfold process, write_element. rewrite Hdry.
  destruct (load_existing_element dir n) as [[existing|[|]]|] eqn:Hload.
  - assert (held dir (element_path n) = true) as Hheld
      by (apply held_loaded; left; by eauto).
    destruct (force args); [|by intros [= <- <-]].
    assert (∀ p, held dir p = true →
                 held (<[element_path (name (merged_descriptor existing e))
                         := JsonDescriptor (merged_descriptor existing e)]> dir) p
                 = true) as Hkeep.
    { intros p Hp. unfold held.
      destruct (decide (element_path (name (merged_descriptor existing e)) = p))
        as [<-|Hne]; [by rewrite lookup_insert_eq|by rewrite lookup_insert_ne]. }
    destruct (fs (element_path (name (merged_descriptor existing e)))) eqn:Hq;
      intros [= <- <-].
    + split; [by apply Hkeep|]. intros p _. apply Hkeep.
    + done.
    + assert (∀ p, fs p = Written → held dir p = true →
                   held (<[element_path (name (merged_descriptor existing e))
                           := NotJson]> dir) p = true) as Hkeep'.
      { intros p Hp Hh. unfold held. rewrite lookup_insert_ne; [done|].
        intros Heq. rewrite Heq in Hq. congruence. }
      split; [by apply Hkeep'|]. exact Hkeep'.
    + split; [by apply Hkeep|]. intros p _. apply Hkeep.
  - assert (held dir (element_path n) = true) as Hheld
      by (apply held_loaded; by right).
    destruct (force args); [done|]. by intros [= <- <-].
  - rewrite Hname, Hfs. intros [= <- <-]. unfold held. split.
    + by rewrite lookup_insert_eq.
    + intros p _ Hp. destruct (decide (element_path n = p)) as [<-|Hne];
        [by rewrite lookup_insert_eq|by rewrite lookup_insert_ne].
  - rewrite Hname, Hfs. intros [= <- <-]. unfold held. split.
    + by rewrite lookup_insert_eq.
    + intros p _ Hp. destruct (decide (element_path n = p)) as [<-|Hne];
        [by rewrite lookup_insert_eq|by rewrite lookup_insert_ne].
Qed.

Lemma fold_process_Done args fs items :
  ∀ st sm' (dir' : files),
    foldl (process args fs) st items = Done sm' dir' →
    ∃ sm dir, st = Done sm dir.
Proof.
  intros [sm dir|dir] sm' dir' Hrun; [by eauto|].
  by rewrite fold_process_raised in Hrun.
Qed.

Lemma fold_process_held args fs items :
  dry_run args = false →
  (∀ n e, (n, e) ∈ items → name e = n) →
  (∀ n e, (n, e) ∈ items → fs (element_path n) = Written) →
  ∀ (dir dir' : files) sm sm',
    foldl (process args fs) (Done sm dir) items = Done sm' dir' →
    (∀ n e, (n, e) ∈ items → held dir' (element_path n) = true)
    ∧ ∀ p, fs p = Written → held dir p = true → held dir' p = true.
Proof.
  intros Hdry. induction items as [|[n0 e0] items IH];
    intros Hkeyed Hfs dir dir' sm sm' Hrun.
  { injection Hrun as <- <-. split; [|done]. intros n e H. by apply elem_of_nil in H. }
  change (foldl (process args fs) (Done sm dir) ((n0, e0) :: items))
    with (foldl (process args fs) (process args fs (Done sm dir) (n0, e0)) items)
    in Hrun.
  destruct (fold_process_Done _ _ _ _ _ _ Hrun) as (sm1 & dir1 & Hstep).
  rewrite Hstep in Hrun.
  destruct (process_makes_held args fs dir dir1 sm sm1 n0 e0 Hdry) as [Hhead Hmono];
    [apply (Hkeyed n0 e0), list_elem_of_here
    |apply (Hfs n0 e0), list_elem_of_here|exact Hstep|].
  destruct (IH (fun n e H => Hkeyed n e (list_elem_of_further _ _ _ H))
               (fun n e H => Hfs n e (list_elem_of_further _ _ _ H))
               dir1 dir' sm1 sm' Hrun) as [Hitems Hrest].
  split.
  - intros n e [[= -> ->]|Hin]%elem_of_cons; [|by eapply Hitems].
    apply Hrest; [|done]. apply (Hfs n0 e0), list_elem_of_here.
  - intros p Hp Hh. by apply Hrest, Hmono.
Qed.

Lemma fold_process_skips args fs items :
  force args = false →
  ∀ (dir : files) sm,
    (∀ n e, (n, e) ∈ items → held dir (element_path n) = true) →
    foldl (process args fs) (Done sm dir) items
    = Done (mkSummary (created sm) (updated sm) (skipped sm + length items)) dir.
Proof.
  intros Hforce. induction items as [|[n0 e0] items IH]; intros dir sm Hl.
  { simpl. rewrite Nat.add_0_r. by destruct sm. }
  change (foldl (process args fs) (Done sm dir) ((n0, e0) :: items))
    with (foldl (process args fs) (process args fs (Done sm dir) (n0, e0)) items).
  assert (process args fs (Done sm dir) (n0, e0)
          = Done (mkSummary (created sm) (updated sm) (S (skipped sm))) dir) as ->.
  { unfold process. rewrite Hforce.
    destruct (proj1 (held_loaded dir n0)) as [[d ->]| ->]; [|done..].
    apply (Hl n0 e0), list_elem_of_here. }
  rewrite IH.
  - simpl. do 2 f_equal. lia.
  - intros n e Hin. by apply (Hl n e), list_elem_of_further.
Qed.

(** the counters after one element *)
Lemma process_counts args fs (dir dir' : files) sm sm' item :
  process args fs (Done sm dir) item = Done sm' dir' →
  let total s := created s + updated s + skipped s in
  (total sm' ≤ S (total sm))%nat
  ∧ ((dry_run args = true ∨ ∀ p, fs p = Written) → total sm' = S (total sm))
  ∧ (if force args then skipped sm' = skipped sm else updated sm' = updated sm).
Proof.
  destruct item as [n e]. unfold process, write_element.
  destruct (load_existing_element dir n) as [[existing|[|]]|].
  - destruct (force args) eqn:Hf.
    + destruct (dry_run args) eqn:Hdry.
      * intros [= <- <-]. simpl. split; [lia|]. split; [lia|done].
      * destruct (fs (element_path (name (merged_descriptor existing e)))) eqn:Hq;
          intros [= <- <-]; simpl; (split; [lia|]); (split; [|done]);
          intros [?|Hall]; try done; try lia; by rewrite Hall in Hq.
    + intros [= <- <-]. simpl. split; [lia|]. split; [lia|done].
  - destruct (force args) eqn:Hf; [done|].
    intros [= <- <-]. simpl. split; [lia|]. split; [lia|done].
  - destruct (dry_run args) eqn:Hdry.
    + intros [= <- <-]. simpl. split; [lia|]. split; [lia|by destruct (force args)].
    + destruct (fs (element_path (name e))) eqn:Hq;
        intros [= <- <-]; simpl; (split; [lia|]);
        (split; [|by destruct (force args)]);
        intros [?|Hall]; try done; try lia; by rewrite Hall in Hq.
  - destruct (dry_run args) eqn:Hdry.
    + intros [= <- <-]. simpl. split; [lia|]. split; [lia|by destruct (force args)].
    + destruct (fs (element_path (name e))) eqn:Hq;
        intros [= <- <-]; simpl; (split; [lia|]);
        (split; [|by destruct (force args)]);
        intros [?|Hall]; try done; try lia; by rewrite Hall in Hq.
Qed.

Lemma fold_process_counts args fs items :
  ∀ (dir dir' : files) sm sm',
    foldl (process args fs) (Done sm dir) items = Done sm' dir' →
    let total s := created s + updated s + skipped s in
    (total sm' ≤ total sm + length items)%nat
    ∧ ((dry_run args = true ∨ ∀ p, fs p = Written) →
       total sm' = total sm + length items)
    ∧ (if force args then skipped sm' = skipped sm else updated sm' = updated sm).
Proof.
  induction items as [|item items IH]; intros dir dir' sm sm' Hrun.
  { injection Hrun as <- <-. simpl. split; [lia|]. split; [lia|].
    by destruct (force args). }
  change (foldl (process args fs) (Done sm dir) (item :: items))
    with (foldl (process args fs) (process args fs (Done sm dir) item) items)
    in Hrun.
  destruct (fold_process_Done _ _ _ _ _ _ Hrun) as (sm1 & dir1 & Hstep).
  rewrite Hstep in Hrun.
  destruct (process_counts args fs dir dir1 sm sm1 item Hstep) as (Hle & Heq & Hflag).
  destruct (IH dir1 dir' sm1 sm' Hrun) as (Hle' & Heq' & Hflag').
  simpl in *. split; [lia|]. split.
  - intros Hall. specialize (Heq Hall). specialize (Heq' Hall). lia.
  - destruct (force args); congruence.
Qed.

Lemma resolved_nonempty xsd_parser :
  elements xsd_parser ≠ [] → elements (resolve_relationships xsd_parser) ≠ [].
Proof.
  intros Hne Hnil. destruct (elements xsd_parser) as [|[k0 v0] els] eqn:Hels; [done|].
  pose proof (fold_resolve_extends
                (PyDict.keys ((k0, v0) :: els)) ((k0, v0) :: els) k0) as Hk.
  simpl in Hnil. rewrite Hels in Hnil. rewrite Hnil in Hk.
  simpl in Hk. rewrite String.eqb_refl in Hk. inversion Hk.
Qed.

(** a run that returns has gone through its elements *)
Lemma main_Done args fs docs (dir dir' : files) status sm :
  let els := elements (resolve_relationships (parse_all docs)) in
  main args fs docs dir = Done (status, sm) dir' →
  (els = [] ∧ status = 1 ∧ sm = mkSummary 0 0 0 ∧ dir' = dir)
  ∨ (els ≠ [] ∧ status = 0
     ∧ foldl (process args fs) (Done (mkSummary 0 0 0) dir) (sorted_items els)
       = Done sm dir').
Proof.
  intros els. unfold main, process_elements. fold els.
  destruct els as [|x els'] eqn:Hels.
  - intros [= <- <- <-]. by left.
  - rewrite <- Hels. destruct (foldl _ _ _) as [sm1 dir1|dir1]; [|done].
    intros [= <- <- <-]. right. split; [by rewrite Hels|done].
Qed.

Lemma sorted_items_keyed docs n e :
  (n, e) ∈ sorted_items (elements (resolve_relationships (parse_all docs))) →
  name e = n ∧ n ∈ PyDict.keys (elements (resolve_relationships (parse_all docs))).
Proof.
  intros Hin. rewrite sorted_items_Permutation in Hin. split.
  - apply (resolved_keyed docs). apply dict_elem_get; [apply resolved_NoDup|done].
  - apply list_elem_of_fmap. by exists (n, e).
Qed.

(** the counts of a dry run and of the run are the same *)
Lemma fold_process_dry_counts f fs items :
  ∀ (dry real : files) sm,
    NoDup (item_paths items) →
    (f = true → stored_by_name real) →
    (∀ n e, (n, e) ∈ items → name e = n) →
    (∀ n e, (n, e) ∈ items → fs (element_path n) = Written) →
    (∀ p, p ∈ item_paths items → real !! p = dry !! p) →
    returned (foldl (process (mkArgs f true) fs) (Done sm dry) items)
    = returned (foldl (process (mkArgs f false) fs) (Done sm real) items).
Proof.
  induction items as [|[n0 e0] items IH];
    intros dry real sm Hnd Hwf Hkeyed Hfs Hagree; [done|].
  change (item_paths ((n0, e0) :: items))
    with (element_path n0 :: item_paths items) in Hnd, Hagree.
  apply NoDup_cons in Hnd as [Hn0 Hnd].
  assert (name e0 = n0) as Hname0 by apply (Hkeyed n0 e0), list_elem_of_here.
  assert (fs (element_path n0) = Written) as Hfs0
    by apply (Hfs n0 e0), list_elem_of_here.
  change (foldl (process (mkArgs f true) fs) (Done sm dry) ((n0, e0) :: items))
    with (foldl (process (mkArgs f true) fs)
                (process (mkArgs f true) fs (Done sm dry) (n0, e0)) items).
  change (foldl (process (mkArgs f false) fs) (Done sm real) ((n0, e0) :: items))
    with (foldl (process (mkArgs f false) fs)
                (process (mkArgs f false) fs (Done sm real) (n0, e0)) items).
  assert (load_existing_element real n0 = load_existing_element dry n0) as Hload.
  { apply load_existing_ext, Hagree, list_elem_of_here. }
  assert ((∃ sm1 real1,
             process (mkArgs f true) fs (Done sm dry) (n0, e0) = Done sm1 dry
             ∧ process (mkArgs f false) fs (Done sm real) (n0, e0) = Done sm1 real1
             ∧ (f = true → stored_by_name real1)
             ∧ ∀ p, p ≠ element_path n0 → real1 !! p = real !! p)
          ∨ (process (mkArgs f true) fs (Done sm dry) (n0, e0) = Raised dry
             ∧ process (mkArgs f false) fs (Done sm real) (n0, e0) = Raised real))
    as [(sm1 & real1 & -> & -> & Hwf1 & Hframe)|[-> ->]].
  { unfold process, write_element. rewrite <- Hload. cbn [force dry_run].
    clear Hload.
    destruct (load_existing_element real n0) as [[existing|[|]]|] eqn:Hreal.
    - destruct f eqn:Hf.
      + apply load_existing_Loaded in Hreal.
        pose proof (Hwf eq_refl _ _ Hreal) as Hpath.
        rewrite <- (merged_descriptor_name existing e0) in Hpath.
        rewrite Hpath, Hfs0. left. eexists _, _. split; [done|]. split; [done|].
        split.
        * intros _. rewrite <- Hpath. by apply stored_by_name_insert, Hwf.
        * intros p Hp. by rewrite lookup_insert_ne.
      + left. eexists _, _. by repeat split.
    - destruct f; [by right|]. left. eexists _, _. by repeat split.
    - rewrite Hname0, Hfs0. left. eexists _, _. split; [done|]. split; [done|].
      split.
      * intros Hf. rewrite <- Hname0. by apply stored_by_name_insert, Hwf.
      * intros p Hp. by rewrite lookup_insert_ne.
    - rewrite Hname0, Hfs0. left. eexists _, _. split; [done|]. split; [done|].
      split.
      * intros Hf. rewrite <- Hname0. by apply stored_by_name_insert, Hwf.
      * intros p Hp. by rewrite lookup_insert_ne. }
  - apply IH; [done|done| | |].
    + intros n e Hin. by apply (Hkeyed n e), list_elem_of_further.
    + intros n e Hin. by apply (Hfs n e), list_elem_of_further.
    + intros p Hp. rewrite Hframe; [apply Hagree; by apply list_elem_of_further|].
      by intros ->.
  - by rewrite !fold_process_raised.
Qed.

End Runs.

(** X9. A second run without [--force] is a no-op: after a run that is not
    a dry run, that returns, and for which the file system writes the file
    of every element, running again on the same documents without
    [--force] returns the same status, leaves the elements directory as it
    is, creates and updates nothing, and skips every element. *)
Theorem second_run_skips_everything {tables : PyStr.CaseMapping}
    (args : Args) (dry : bool) (fs : disk) (docs : list (parsed * string))
    (dir dir1 : files) (status : nat) (sm : Summary) :
  let els := XsdParser.elements (XsdParser.resolve_relationships (parse_all docs)) in
  dry_run args = false →
  writable fs els →
  main args fs docs dir = Done (status, sm) dir1 →
  main (mkArgs false dry) fs docs dir1
  = Done (status, mkSummary 0 0 (length els)) dir1.
Proof.
  intros els Hdry Hfs Hrun.
  destruct (main_Done args fs docs dir dir1 status sm Hrun)
    as [(Hnil & -> & _ & ->)|(Hne & -> & Hfold)].
  { unfold main, process_elements. fold els in Hnil |- *. by rewrite Hnil. }
  fold els in Hne, Hfold.
  destruct (fold_process_held args fs (sorted_items els) Hdry) with
    (dir := dir) (dir' := dir1) (sm := mkSummary 0 0 0) (sm' := sm)
    as [Hheld _]; [| |exact Hfold|].
  { intros n e Hin. by apply sorted_items_keyed in Hin as [? _]. }
  { intros n e Hin. apply Hfs. by apply sorted_items_keyed in Hin as [_ ?]. }
  unfold main, process_elements. fold els.
  destruct els as [|x els'] eqn:Hels; [done|]. rewrite <- Hels in *.
  rewrite (fold_process_skips (mkArgs false dry) fs (sorted_items els) eq_refl dir1
                              (mkSummary 0 0 0) Hheld).
  simpl. by rewrite (sorted_items_Permutation els).
Qed.

Lemma second_run_skips_everything_witness :
  let tables := PyStr.ascii_case in
  let docs := [(Document Sample.inline_group, "wix")] in
  ∃ sm dir1,
    main (mkArgs true false) Sample2.sound_disk docs Sample.curated_dir
    = Done (0, sm) dir1
    ∧ main (mkArgs false false) Sample2.sound_disk docs dir1
      = Done (0, mkSummary 0 0 2) dir1.
Proof.
  intros tables docs. eexists _, _. split; [vm_compute; reflexivity|].
  eapply (second_run_skips_everything
            (mkArgs true false) false Sample2.sound_disk docs Sample.curated_dir).
  - reflexivity.
  - done.
  - vm_compute. reflexivity.
Defined.

(** X10. The summary of a run that returns counts no element twice:
    created, updated and skipped add up to at most the number of elements
    extracted, and to exactly that number in a dry run or when the file
    system writes every file (an element whose file cannot be written is
    not counted); with [--force] nothing is skipped, without it nothing is
    updated; and the status is 1 exactly when no element was extracted. *)
Theorem run_summary_accounts_for_every_element {tables : PyStr.CaseMapping}
    (args : Args) (fs : disk) (docs : list (parsed * string)) (dir dir' : files)
    (status : nat) (sm : Summary) :
  let els := XsdParser.elements (XsdParser.resolve_relationships (parse_all docs)) in
  main args fs docs dir = Done (status, sm) dir' →
  (created sm + updated sm + skipped sm ≤ length els)%nat
  ∧ ((dry_run args = true ∨ ∀ p, fs p = Written) →
     created sm + updated sm + skipped sm = length els)
  ∧ (if force args then skipped sm = 0 else updated sm = 0)
  ∧ status = (if bool_decide (els = []) then 1 else 0).
Proof.
  intros els Hrun.
  destruct (main_Done args fs docs dir dir' status sm Hrun)
    as [(Hnil & -> & -> & _)|(Hne & -> & Hfold)].
  { fold els in Hnil. rewrite Hnil. simpl. split; [done|]. split; [done|].
    split; [by destruct (force args)|done]. }
  fold els in Hne, Hfold.
  destruct (fold_process_counts args fs (sorted_items els) dir dir'
                                (mkSummary 0 0 0) sm Hfold) as (Hle & Heq & Hflag).
  simpl in Hle, Heq, Hflag. rewrite (sorted_items_Permutation els) in Hle, Heq.
  split; [exact Hle|]. split; [exact Heq|]. split; [exact Hflag|].
  by rewrite bool_decide_eq_false_2.
Qed.

Lemma run_summary_accounts_for_every_element_witness :
  let tables := PyStr.ascii_case in
  let docs := [(Document Sample.inline_group, "wix")] in
  ∃ sm dir',
    main (mkArgs true false) Sample2.refuses_inner docs Sample.curated_dir
    = Done (0, sm) dir'
    ∧ created sm + updated sm + skipped sm = 1
    ∧ (1 ≤ 2)%nat.
Proof.
  intros tables docs. eexists _, _. split; [vm_compute; reflexivity|].
  split; [vm_compute; reflexivity|].
  refine (proj1 (run_summary_accounts_for_every_element
                   (mkArgs true false) Sample2.refuses_inner docs Sample.curated_dir
                   _ 0 (mkSummary 0 1 0) _)).
  vm_compute. reflexivity.
Defined.

(** ** Fetching the schemas *)

Section Fetch.
Context {tables : PyStr.CaseMapping}.
Import XsdParser.
Context (parse : string → parsed).

Lemma fetch_offline_step net (cache : cache_dir) p item :
  fetch_step true parse net (cache, p) item
  = (cache, match cache !! url_filename item.2 with
            | Some content => parse_file p (parse content) item.1
            | None => p
            end).
Proof.
  destruct item as [ns url]. unfold fetch_step, parse_cached. simpl.
  by destruct (cache !! url_filename url).
Qed.

Lemma fetch_offline_fold net items :
  ∀ (cache : cache_dir) p,
    foldl (fetch_step true parse net) (cache, p) items
    = (cache, foldl (fun self '(doc, ns) => parse_file self doc ns) p
                    (cached_docs parse cache items)).
Proof.
  induction items as [|item items IH]; intros cache p; [done|].
  change (foldl (fetch_step true parse net) (cache, p) (item :: items))
    with (foldl (fetch_step true parse net)
                (fetch_step true parse net (cache, p) item) items).
  rewrite fetch_offline_step, IH. unfold cached_docs. csimpl.
  by destruct (cache !! url_filename item.2).
Qed.

Lemma download_xsd_effect net url (cache : cache_dir) :
  let r := download_xsd net url cache in
  match cache !! url_filename url with
  | Some _ => r = (cache, Some (url_filename url))
  | None =>
      match net url with
      | Some content => r = (<[url_filename url := content]> cache, Some (url_filename url))
      | None => r = (cache, None)
      end
  end.
Proof.
  unfold download_xsd. destruct (cache !! url_filename url); [done|].
  by destruct (net url).
Qed.

(** one online step: the cache after it, and the offline step on that cache *)
Lemma fetch_online_step net net' (cache : cache_dir) p item :
  alt_same_file item →
  let st := fetch_step false parse net (cache, p) item in
  cache ⊆ st.1
  ∧ (∀ f, f ≠ url_filename item.2 → st.1 !! f = cache !! f)
  ∧ (∀ content, st.1 !! url_filename item.2 = Some content →
       cache !! url_filename item.2 = Some content
       ∨ (cache !! url_filename item.2 = None ∧ served net item content))
  ∧ (cache !! url_filename item.2 = None →
     ∀ content, served net item content →
       st.1 !! url_filename item.2 = Some content)
  ∧ fetch_step true parse net' (st.1, p) item = st.
Proof.
  destruct item as [ns url]. unfold alt_same_file, served. intros Halt. cbv zeta.
  rewrite fetch_offline_step. cbn [fst snd] in Halt |- *.
  remember (PyDict.get ns WIX_XSD_URLS_ALT) as oalt eqn:Ha. unfold fetch_step.
  rewrite <- Ha.
  pose proof (download_xsd_effect net url cache) as Hd. cbv zeta in Hd.
  destruct (cache !! url_filename url) as [c0|] eqn:Hc.
  { rewrite Hd. unfold parse_cached. rewrite Hc. simpl. rewrite Hc.
    repeat split; [done| |done]. intros content ->. by left. }
  destruct (net url) as [c1|] eqn:Hn.
  { rewrite Hd. unfold parse_cached. simpl. rewrite !lookup_insert_eq.
    split; [by apply insert_subseteq|].
    split; [intros f Hf; by rewrite lookup_insert_ne|].
    split; [intros content [= <-]; right; by eauto|].
    split; [|done]. intros _ content [[= ->]|[? _]]; done. }
  rewrite Hd. clear Ha.
  destruct oalt as [alt|].
  - pose proof (download_xsd_effect net alt cache) as Hd'. cbv zeta in Hd'.
    rewrite Halt, Hc in Hd'.
    destruct (net alt) as [c2|] eqn:Hn'; rewrite Hd'.
    + unfold parse_cached. simpl. rewrite !lookup_insert_eq.
      split; [by apply insert_subseteq|].
      split; [intros f Hf; by rewrite lookup_insert_ne|].
      split; [intros content [= <-]; right; split; [done|]; right; by eauto|].
      split; [|done].
      intros _ content [[=]|[_ (alt' & [= <-] & Hc2)]]. congruence.
    + simpl. rewrite Hc.
      split; [done|]. split; [done|]. split; [by intros content [=]|].
      split; [|done].
      intros _ content [[=]|[_ (alt' & [= <-] & Hc2)]]. congruence.
  - simpl. rewrite Hc.
    split; [done|]. split; [done|]. split; [by intros content [=]|].
    split; [|done]. intros _ content [[=]|[_ (alt' & [=] & _)]].
Qed.

Lemma fetch_online_fold net net' items :
  NoDup (url_filenames items) → Forall alt_same_file items →
  ∀ (cache : cache_dir) p,
    let st := foldl (fetch_step false parse net) (cache, p) items in
    cache ⊆ st.1
    ∧ (∀ f, f ∉ url_filenames items → st.1 !! f = cache !! f)
    ∧ (∀ item content, item ∈ items →
         st.1 !! url_filename item.2 = Some content →
         cache !! url_filename item.2 = Some content
         ∨ (cache !! url_filename item.2 = None ∧ served net item content))
    ∧ (∀ item content, item ∈ items →
         cache !! url_filename item.2 = None → served net item content →
         st.1 !! url_filename item.2 = Some content)
    ∧ foldl (fetch_step true parse net') (st.1, p) items = st.
Proof.
  induction items as [|item items IH]; intros Hnd Halt cache p.
  { simpl. split; [done|]. split; [done|].
    split; [intros ? ? H; by apply elem_of_nil in H|].
    split; [intros ? ? H; by apply elem_of_nil in H|done]. }
  change (url_filenames (item :: items))
    with (url_filename item.2 :: url_filenames items) in *.
  apply NoDup_cons in Hnd as [Hfresh Hnd].
  apply Forall_cons in Halt as [Halt0 Halt].
  change (foldl (fetch_step false parse net) (cache, p) (item :: items))
    with (foldl (fetch_step false parse net)
                (fetch_step false parse net (cache, p) item) items).
  destruct (fetch_online_step net net' cache p item Halt0)
    as (Hsub1 & Hframe1 & Hprov1 & Hget1 & Hoff1).
  destruct (fetch_step false parse net (cache, p) item) as [c1 p1].
  cbn [fst snd] in Hsub1, Hframe1, Hprov1, Hget1, Hoff1.
  destruct (IH Hnd Halt c1 p1) as (Hsub & Hframe & Hprov & Hget & Hoff).
  destruct (foldl (fetch_step false parse net) (c1, p1) items) as [c' p'].
  cbn [fst snd] in Hsub, Hframe, Hprov, Hget, Hoff |- *.
  assert (∀ it, it ∈ items → url_filename it.2 ≠ url_filename item.2) as Hother.
  { intros it Hin Heq. apply Hfresh. rewrite <- Heq.
    unfold url_filenames. apply list_elem_of_fmap. by exists it. }
  split; [by etrans|].
  split.
  { intros f Hf. apply not_elem_of_cons in Hf as [Hf0 Hf].
    by rewrite Hframe, Hframe1. }
  split.
  { intros it content [->|Hin]%elem_of_cons Hc'.
    - apply Hprov1. by rewrite <- Hframe.
    - rewrite <- (Hframe1 _ (Hother it Hin)).
      by apply Hprov. }
  split.
  { intros it content [->|Hin]%elem_of_cons Hc Hs.
    - rewrite Hframe by done. by apply Hget1.
    - apply Hget; [done| |done]. by rewrite (Hframe1 _ (Hother it Hin)). }
  change (foldl (fetch_step true parse net') (c', p) (item :: items))
    with (foldl (fetch_step true parse net')
                (fetch_step true parse net' (c', p) item) items).
  rewrite fetch_offline_step in Hoff1 |- *.
  rewrite (Hframe _ Hfresh). injection Hoff1 as ->. exact Hoff.
Qed.

Lemma wix_urls_filenames : NoDup (url_filenames WIX_XSD_URLS).
Proof. compute_done. Qed.

Lemma wix_urls_alt : Forall alt_same_file WIX_XSD_URLS.
Proof. repeat constructor; by vm_compute. Qed.

Lemma main_cli_fetch net fs args local (cache : cache_dir) (dir : files) :
  cli_xsd args = None →
  main_cli parse net fs args local cache dir
  = let st := foldl (fetch_step (cli_offline args) parse net) (cache, init)
                    WIX_XSD_URLS in
    (st.1, process_elements (mkArgs (cli_force args) (cli_dry_run args)) fs
                            st.2 dir).
Proof.
  intros Hxsd. unfold main_cli. rewrite Hxsd. cbv zeta.
  by destruct (foldl _ _ WIX_XSD_URLS) as [cache' p].
Qed.

Lemma cached_docs_agree (c1 c2 : cache_dir) items :
  (∀ f, f ∈ url_filenames items → c1 !! f = c2 !! f) →
  cached_docs parse c1 items = cached_docs parse c2 items.
Proof.
  induction items as [|item items IH]; intros Hagree; [done|].
  unfold cached_docs. csimpl. rewrite (Hagree (url_filename item.2)).
  - fold (cached_docs parse c1 items). fold (cached_docs parse c2 items).
    rewrite IH; [done|]. intros f Hf. apply Hagree. by apply elem_of_cons; right.
  - by apply elem_of_cons; left.
Qed.

End Fetch.

(** X11. Under [--dry-run] the elements directory comes out of the run as
    it went in, whatever the other options, the schemas, the network, the
    cache and the file system, and whether the run returns or raises. *)
Theorem dry_run_leaves_directory {tables : PyStr.CaseMapping}
    (parse : string → parsed) (net : string → option string) (fs : disk)
    (args : Cli) (local : gmap string string) (cache : cache_dir) (dir : files) :
  cli_dry_run args = true →
  final_dir (main_cli parse net fs args local cache dir).2 = dir.
Proof.
  intros Hdry. unfold main_cli. rewrite Hdry.
  destruct (cli_xsd args) as [path|].
  - destruct (local !! path) as [content|]; [|done].
    exact (process_elements_dry_run
             (mkArgs (cli_force args) true) fs
             (XsdParser.parse_file XsdParser.init (parse content) "wix")
             dir eq_refl).
  - destruct (foldl _ _ WIX_XSD_URLS) as [cache1 p].
    exact (process_elements_dry_run (mkArgs (cli_force args) true) fs p dir eq_refl).
Qed.

Lemma dry_run_leaves_directory_witness :
  let tables := PyStr.ascii_case in
  final_dir (main_cli (fun _ => Document Sample.inline_group) (fun _ => None)
                      Sample2.sound_disk
                      (mkCli true true false (Some "wix.xsd"))
                      {[ "wix.xsd" := "<schema/>" ]} ∅ Sample.curated_dir).2
  = Sample.curated_dir.
Proof.
  intros tables.
  exact (dry_run_leaves_directory
           (fun _ => Document Sample.inline_group) (fun _ => None)
           Sample2.sound_disk
           (mkCli true true false (Some "wix.xsd"))
           {[ "wix.xsd" := "<schema/>" ]} ∅ Sample.curated_dir eq_refl).
Defined.



(** X13. An offline run reads the cache and nothing else: it leaves the
    cache as it is, does not depend on the network, and is the run over the
    schemas found in the cache, in the order of the URL table, each under
    the namespace of its entry; entries whose file is not cached are
    passed over. *)
Theorem offline_run_reads_only_cache {tables : PyStr.CaseMapping}
    (parse : string → parsed) (net : string → option string) (fs : disk)
    (args : Cli) (local : gmap string string) (cache : cache_dir) (dir : files) :
  cli_xsd args = None → cli_offline args = true →
  main_cli parse net fs args local cache dir
  = (cache, main (mkArgs (cli_force args) (cli_dry_run args)) fs
                 (cached_docs parse cache WIX_XSD_URLS) dir).
Proof.
  intros Hxsd Hoff. rewrite main_cli_fetch by done. rewrite Hoff.
  rewrite fetch_offline_fold. cbv zeta. cbn [fst snd]. done.
Qed.

Lemma offline_run_reads_only_cache_witness :
  let tables := PyStr.ascii_case in
  main_cli (fun _ => Document Sample.inline_group) (fun _ => None)
           Sample2.sound_disk (mkCli false false true None) ∅
           {[ "util.xsd" := "<schema/>" ]} ∅
  = ({[ "util.xsd" := "<schema/>" ]},
     main (mkArgs false false) Sample2.sound_disk
          [(Document Sample.inline_group, "util")] ∅).
Proof.
  intros tables.
  exact (offline_run_reads_only_cache
           (fun _ => Document Sample.inline_group) (fun _ => None)
           Sample2.sound_disk (mkCli false false true None) ∅
           {[ "util.xsd" := "<schema/>" ]} ∅ eq_refl eq_refl).
Defined.

(** X14. An online run only adds to the cache, and only files of the URL
    table: a cached file is kept as it is and used; a file that was not
    cached is in the cache afterwards exactly when the network serves it,
    at its URL or else at the alternative URL of its namespace, with the
    bytes served; and the run is the offline run over the cache it
    leaves. *)
Theorem online_run_fills_cache {tables : PyStr.CaseMapping}
    (parse : string → parsed) (net : string → option string) (fs : disk)
    (args : Cli) (local : gmap string string) (cache : cache_dir) (dir : files) :
  cli_xsd args = None → cli_offline args = false →
  let run := main_cli parse net fs args local cache dir in
  let cache' := run.1 in
  cache ⊆ cache'
  ∧ (∀ f, f ∉ url_filenames WIX_XSD_URLS → cache' !! f = cache !! f)
  ∧ (∀ item content,
       item ∈ WIX_XSD_URLS → cache !! url_filename item.2 = None →
       (cache' !! url_filename item.2 = Some content ↔ served net item content))
  ∧ run = (cache', main (mkArgs (cli_force args) (cli_dry_run args)) fs
                        (cached_docs parse cache' WIX_XSD_URLS) dir).
Proof.
  intros Hxsd Hon. cbv zeta. rewrite main_cli_fetch by done. rewrite Hon. cbv zeta.
  destruct (fetch_online_fold parse net net WIX_XSD_URLS
              (wix_urls_filenames) (wix_urls_alt) cache XsdParser.init)
    as (Hsub & Hframe & Hprov & Hget & Hoff).
  rewrite fetch_offline_fold in Hoff.
  destruct (foldl (fetch_step false parse net) (cache, XsdParser.init) WIX_XSD_URLS)
    as [cache1 p].
  cbn [fst snd] in *. injection Hoff as Hp.
  split; [exact Hsub|]. split; [exact Hframe|]. split.
  - intros item content Hin Hnone. split.
    + intros Hc1. destruct (Hprov item content Hin Hc1) as [Hc|[_ Hs]]; [|done].
      by rewrite Hnone in Hc.
    + by apply Hget.
  - unfold main. by rewrite <- Hp.
Qed.

Lemma online_run_fills_cache_witness :
  let tables := PyStr.ascii_case in
  let net := fun url =>
    if String.eqb url "https://wixtoolset.org/schemas/v4/wxs/wix.xsd"
    then Some "<schema/>" else None in
  let run := main_cli (fun _ => Document Sample.inline_group) net
                      Sample2.sound_disk (mkCli false false false None) ∅ ∅ ∅ in
  run.1 !! "wix.xsd" = Some "<schema/>"
  ∧ run = (run.1,
           main (mkArgs false false) Sample2.sound_disk
                (cached_docs (fun _ => Document Sample.inline_group) run.1
                             WIX_XSD_URLS) ∅).
Proof.
  intros tables net run.
  destruct (online_run_fills_cache
              (fun _ => Document Sample.inline_group) net Sample2.sound_disk
              (mkCli false false false None) ∅ ∅ ∅ eq_refl eq_refl)
    as (_ & _ & Hserved & Hrun).
  split; [|exact Hrun].
  apply (Hserved ("wxs", "https://raw.githubusercontent.com/wixtoolset/wix/main/src/xsd/wix.xsd")
                 "<schema/>").
  - apply list_elem_of_here.
  - apply lookup_empty.
  - right. split; [reflexivity|].
    exists "https://wixtoolset.org/schemas/v4/wxs/wix.xsd". split; reflexivity.
Defined.

(** ** The merge, on descriptor files *)

Section MergeMore.
Import XsdParser.

Lemma truthy_filled o :
  PyStr.truthy (Some (default "" o)) = PyStr.truthy o.
Proof. by destruct o. Qed.

Lemma merge_attr_tree_head acc n d :
  PyStr.truthy (attr_description d) = true →
  ∃ d', PyDict.get n (merge_attr_tree acc (n, d)) = Some d'
        ∧ PyStr.truthy (attr_description d') = true.
Proof.
  intros Ht. unfold merge_attr_tree.
  destruct (PyDict.get n acc) as [d0|] eqn:Hn.
  - destruct (PyStr.truthy (attr_description d0)) eqn:Ht0; [by eauto|].
    rewrite dict_get_set_eq. eexists. split; [done|].
    change (PyStr.truthy (Some (default "" (attr_description d))) = true).
    by rewrite truthy_filled.
  - rewrite dict_get_set_eq. by eauto.
Qed.

(** once the extraction has been merged in, each of its attributes is
    present with a description *)
Lemma fold_merge_attr_tree_described (its : PyDict.dict AttrDef) :
  (∀ n d, (n, d) ∈ its → PyStr.truthy (attr_description d) = true) →
  ∀ acc n d, (n, d) ∈ its →
    ∃ d', PyDict.get n (foldl merge_attr_tree acc its) = Some d'
          ∧ PyStr.truthy (attr_description d') = true.
Proof.
  induction its as [|[n0 d0] its IH]; intros Hdesc acc n d Hin.
  { by apply elem_of_nil in Hin. }
  change (foldl merge_attr_tree acc ((n0, d0) :: its))
    with (foldl merge_attr_tree (merge_attr_tree acc (n0, d0)) its).
  apply elem_of_cons in Hin as [[= -> ->]|Hin].
  - destruct (merge_attr_tree_head acc n0 d0) as (d' & Hd' & Ht').
    { apply (Hdesc n0 d0), list_elem_of_here. }
    exists d'. split; [|done]. by apply fold_merge_attr_tree_kept.
  - apply (IH (fun n d H => Hdesc n d (list_elem_of_further _ _ _ H)) _ n d Hin).
Qed.

(** merging attributes that are all present with a description changes
    nothing *)
Lemma fold_merge_attr_tree_fixed (its : PyDict.dict AttrDef) acc :
  (∀ n d, (n, d) ∈ its →
     ∃ d', PyDict.get n acc = Some d' ∧ PyStr.truthy (attr_description d') = true) →
  foldl merge_attr_tree acc its = acc.
Proof.
  induction its as [|[n0 d0] its IH]; intros Hin; [done|].
  change (foldl merge_attr_tree acc ((n0, d0) :: its))
    with (foldl merge_attr_tree (merge_attr_tree acc (n0, d0)) its).
  assert (merge_attr_tree acc (n0, d0) = acc) as ->.
  { destruct (Hin n0 d0) as (d' & Hd' & Ht'); [apply list_elem_of_here|].
    unfold merge_attr_tree. by rewrite Hd', Ht'. }
  apply IH. intros n d H. by apply (Hin n d), list_elem_of_further.
Qed.

Lemma sorted_union_again xs ys :
  sorted_union (sorted_union xs ys) ys = sorted_union xs ys.
Proof.
  apply (is_sorted_union_unique (sorted_union xs ys) ys); [apply sorted_union_spec|].
  destruct (sorted_union_spec xs ys) as (Hs & Hnd & Hm).
  split; [done|]. split; [done|]. intros x. rewrite Hm. tauto.
Qed.

Lemma merge_element_tree_again (existing extracted : Descriptor) :
  (∀ n d, (n, d) ∈ default [] (attributes extracted) →
          PyStr.truthy (attr_description d) = true) →
  merge_element_tree (merge_element_tree existing extracted) extracted
  = merge_element_tree existing extracted.
Proof.
  intros Hdesc. unfold merge_element_tree at 1.
  assert (attributes (merge_element_tree existing extracted)
          = Some (foldl merge_attr_tree (default [] (attributes existing))
                        (default [] (attributes extracted)))) as -> by done.
  assert (children (merge_element_tree existing extracted)
          = Some (sorted_union (default [] (children existing))
                               (default [] (children extracted)))) as -> by done.
  assert (parents (merge_element_tree existing extracted)
          = Some (sorted_union (default [] (parents existing))
                               (default [] (parents extracted)))) as -> by done.
  cbn [default from_option id]. rewrite !sorted_union_again.
  rewrite (fold_merge_attr_tree_fixed (default [] (attributes extracted))).
  2:{ intros n d Hin. by eapply fold_merge_attr_tree_described. }
  match goal with
  | |- context [set_attributes _ ?r] =>
      assert (r = merge_element_tree existing extracted) as ->
  end.
  { unfold merge_element_tree.
    destruct (bool_decide (is_Some (description extracted))) eqn:Hs; [|done].
    destruct (PyStr.truthy (description existing)) eqn:Ht; simpl.
    - by rewrite Ht.
    - by destruct (PyStr.truthy (description extracted)). }
  unfold merge_element_tree.
  by destruct (bool_decide (is_Some (description extracted))
               && negb (PyStr.truthy (description existing))).
Qed.

Lemma filter_agree (P Q : string → Prop)
    `{!∀ x, Decision (P x)} `{!∀ x, Decision (Q x)} (l : list string) :
  (∀ x, x ∈ l → P x ↔ Q x) → filter P l = filter Q l.
Proof.
  induction l as [|x l IH]; intros Hpq; [done|].
  rewrite !filter_cons.
  rewrite IH by (intros y Hy; by apply Hpq, list_elem_of_further).
  pose proof (Hpq x (list_elem_of_here _ _)) as Hx.
  destruct (decide (P x)), (decide (Q x)); tauto.
Qed.

Lemma fold_merge_attr_tree_keys (its : PyDict.dict AttrDef) :
  NoDup (PyDict.keys its) →
  ∀ acc, PyDict.keys (foldl merge_attr_tree acc its)
         = PyDict.keys acc ++ filter (fun k => k ∉ PyDict.keys acc) (PyDict.keys its).
Proof.
  induction its as [|[n0 d0] its IH]; intros Hnd acc.
  { simpl. by rewrite app_nil_r. }
  change (PyDict.keys ((n0, d0) :: its)) with (n0 :: PyDict.keys its) in *.
  apply NoDup_cons in Hnd as [Hn0 Hnd].
  change (foldl merge_attr_tree acc ((n0, d0) :: its))
    with (foldl merge_attr_tree (merge_attr_tree acc (n0, d0)) its).
  rewrite (IH Hnd). unfold merge_attr_tree.
  destruct (PyDict.get n0 acc) as [d1|] eqn:Hget.
  - assert (n0 ∈ PyDict.keys acc) as Hin by by eapply dict_get_Some_keys.
    rewrite filter_cons_False by (by intros ?).
    destruct (PyStr.truthy (attr_description d1)); [done|].
    rewrite dict_set_keys, decide_True by done. done.
  - assert (n0 ∉ PyDict.keys acc) as Hnin.
    { intros [v Hv]%dict_keys_get. congruence. }
    rewrite filter_cons_True by done.
    rewrite dict_set_keys, decide_False by done.
    rewrite <- (assoc_L (++)). f_equal. simpl. f_equal.
    apply filter_agree. intros k Hk.
    rewrite not_elem_of_app, list_elem_of_singleton.
    split; [by intros [? _]|]. intros Hka. split; [done|]. by intros ->.
Qed.

Lemma fold_merge_attr_tree_get (its : PyDict.dict AttrDef) :
  ∀ acc k,
    (PyDict.get k its = None →
     PyDict.get k (foldl merge_attr_tree acc its) = PyDict.get k acc)
    ∧ (NoDup (PyDict.keys its) → PyDict.get k acc = None →
       PyDict.get k (foldl merge_attr_tree acc its) = PyDict.get k its).
Proof.
  induction its as [|[n0 d0] its IH]; intros acc k; [done|].
  change (foldl merge_attr_tree acc ((n0, d0) :: its))
    with (foldl merge_attr_tree (merge_attr_tree acc (n0, d0)) its).
  change (PyDict.keys ((n0, d0) :: its)) with (n0 :: PyDict.keys its).
  destruct (IH (merge_attr_tree acc (n0, d0)) k) as [IHa IHb].
  cbn [PyDict.get]. destruct (String.eqb_spec k n0) as [->|Hne].
  - split; [done|]. intros [Hn0 Hnd]%NoDup_cons Hnone.
    assert (PyDict.get n0 its = None) as Hrest.
    { destruct (PyDict.get n0 its) eqn:Hg; [|done].
      by apply dict_get_Some_keys in Hg. }
    rewrite (IHa Hrest). unfold merge_attr_tree. rewrite Hnone.
    apply dict_get_set_eq.
  - assert (PyDict.get k (merge_attr_tree acc (n0, d0)) = PyDict.get k acc) as Hstep.
    { unfold merge_attr_tree. destruct (PyDict.get n0 acc) as [d1|].
      - destruct (PyStr.truthy (attr_description d1)); [done|].
        by apply dict_get_set_ne.
      - by apply dict_get_set_ne. }
    split.
    + intros Hnone. by rewrite (IHa Hnone).
    + intros [Hn0 Hnd]%NoDup_cons Hnone. apply (IHb Hnd). by rewrite Hstep.
Qed.

End MergeMore.

(** X15. Merging the same extraction a second time changes nothing: for
    every descriptor the parser extracts and every existing descriptor, the
    merge of the extraction into the merged descriptor is the merged
    descriptor. *)
Theorem forced_merge_is_idempotent {tables : PyStr.CaseMapping}
    (docs : list (parsed * string)) (n : string) (e existing : Descriptor) :
  PyDict.get n (XsdParser.elements (XsdParser.resolve_relationships (parse_all docs)))
  = Some e →
  merged_descriptor (merged_descriptor existing e) e = merged_descriptor existing e.
Proof.
  intros He. apply resolved_well_formed in He
    as (_&_&_&_&_&_&_&_& attrs & Hattrs & Hnd & Hwf).
  rewrite !merged_descriptor_tree. apply merge_element_tree_again.
  rewrite Hattrs. simpl. intros k d Hin.
  apply (dict_elem_get _ _ _ Hnd) in Hin.
  by destruct (Hwf k d Hin) as (_ & _ & _ & Ht & _).
Qed.

Lemma forced_merge_is_idempotent_witness :
  let tables := PyStr.ascii_case in
  ∃ e,
    PyDict.get "Foo" (XsdParser.elements
                        (XsdParser.resolve_relationships
                           (parse_all [(Document Sample2.foo_schema, "wix")])))
    = Some e
    ∧ merged_descriptor (merged_descriptor Sample.curated_outer e) e
      = merged_descriptor Sample.curated_outer e.
Proof.
  intros tables.
  eexists. split; [vm_compute; reflexivity|].
  apply (forced_merge_is_idempotent [(Document Sample2.foo_schema, "wix")] "Foo").
  vm_compute. reflexivity.
Defined.

(** X16. In the merged file the attributes of the existing descriptor keep
    their positions and the attributes it lacked follow in the order of the
    schema; an attribute the extraction does not have is the existing one
    unchanged, and an attribute the existing descriptor lacked is the
    extracted one unchanged. *)
Theorem merged_attributes_order {tables : PyStr.CaseMapping}
    (docs : list (parsed * string)) (n : string) (e existing : Descriptor) :
  PyDict.get n (XsdParser.elements (XsdParser.resolve_relationships (parse_all docs)))
  = Some e →
  let old := default [] (attributes existing) in
  let new := default [] (attributes e) in
  let merged := default [] (attributes (merged_descriptor existing e)) in
  PyDict.keys merged
  = PyDict.keys old ++ filter (fun k => k ∉ PyDict.keys old) (PyDict.keys new)
  ∧ (∀ k, PyDict.get k new = None → PyDict.get k merged = PyDict.get k old)
  ∧ (∀ k, PyDict.get k old = None → PyDict.get k merged = PyDict.get k new).
Proof.
  intros He old new merged. apply resolved_well_formed in He
    as (_&_&_&_&_&_&_&_& attrs & Hattrs & Hnd & _).
  assert (NoDup (PyDict.keys new)) as Hnew by (unfold new; by rewrite Hattrs).
  assert (merged = foldl merge_attr_tree old new) as ->.
  { unfold merged. by rewrite merged_descriptor_tree. }
  split; [by apply fold_merge_attr_tree_keys|].
  split; intros k Hk.
  - by apply fold_merge_attr_tree_get.
  - by apply fold_merge_attr_tree_get.
Qed.

Lemma merged_attributes_order_witness :
  let tables := PyStr.ascii_case in
  ∃ e,
    PyDict.get "Foo" (XsdParser.elements
                        (XsdParser.resolve_relationships
                           (parse_all [(Document Sample2.foo_schema, "wix")])))
    = Some e
    ∧ PyDict.keys (default [] (attributes (merged_descriptor Sample.existing e)))
      = PyDict.keys (default [] (attributes Sample.existing)) ++ ["Bar"; "Baz"].
Proof.
  intros tables.
  eexists. split; [vm_compute; reflexivity|].
  refine (eq_trans (proj1 (merged_attributes_order
                             [(Document Sample2.foo_schema, "wix")] "Foo" _
                             Sample.existing _)) _).
  - vm_compute. reflexivity.
  - vm_compute. reflexivity.
Defined.

(** ** extract-xsd.py *)

Section Extract.
Context {tables : PyStr.CaseMapping}.
Import ExtractXsd.

Lemma last_segment_go_prefix p t cur :
  PyStr.last_segment_go cur (p +:+ ":" +:+ t) = PyStr.last_segment t.
Proof.
  revert cur. induction p as [|c p IH]; intros cur.
  - reflexivity.
  - change (String c p +:+ ":" +:+ t) with (String c (p +:+ ":" +:+ t)).
    cbn [PyStr.last_segment_go]. destruct (Ascii.eqb c ":"); apply IH.
Qed.

Lemma type_map_values : Forall (fun item => item.2 ∈ base_kinds) type_map.
Proof. repeat constructor; compute_done. Qed.

Lemma parse_type_name_kind o : parse_type_name o ∈ base_kinds.
Proof.
  unfold parse_type_name. destruct o as [s|]; [|compute_done].
  destruct (PyDict.get (PyStr.last_segment s) type_map) as [k|] eqn:Hk;
    [|compute_done].
  apply dict_get_elem in Hk.
  exact (proj1 (Forall_forall _ _) type_map_values _ Hk).
Qed.

Lemma base_kinds_not_enum k : k ∈ base_kinds → k ≠ "enum".
Proof. intros Hk ->. revert Hk. compute_done. Qed.

Lemma parse_enum_values_nonempty x : "" ∉ parse_enum_values x.
Proof.
  unfold parse_enum_values.
  destruct (ET.find_child (XS_NS +:+ "restriction") x) as [r|];
    [|by intros ?%elem_of_nil].
  intros (e & _ & He)%list_elem_of_omap.
  destruct (ET.get "value" e) as [v|]; [|done].
  destruct (String.eqb_spec v ""); [done|]. by injection He as ->.
Qed.

Lemma kind_ok_base o : kind_ok (parse_type_name o, None).
Proof.
  pose proof (parse_type_name_kind o) as Hk. split; [by left|].
  split; [|done]. split; [by intros ?%(base_kinds_not_enum _ Hk)|by intros [? ?]].
Qed.

Lemma kind_ok_enum vs : vs ≠ [] → "" ∉ vs → kind_ok ("enum", Some vs).
Proof.
  intros Hne Hvs. split; [by right|]. split; [by split; eauto|].
  by intros ? [= <-].
Qed.

Lemma parse_attribute_well_formed_extract attr_elem simple_types :
  enum_table_well_formed simple_types →
  extract_attr_well_formed (parse_attribute attr_elem simple_types).
Proof.
  intros Htable. unfold parse_attribute.
  set (attr_type := ET.get_or "type" "string" attr_elem).
  set (base := (parse_type_name (Some attr_type), @None (list string))).
  set (named := if String.eqb (PyStr.last_segment attr_type) "" then base else
                match simple_types !! PyStr.last_segment attr_type with
                | Some ((_ :: _) as values) => ("enum", Some values)
                | _ => base
                end).
  set (inline := match ET.find_child (XS_NS +:+ "simpleType") attr_elem with
                 | Some inline_type =>
                     match parse_enum_values inline_type with
                     | [] => named
                     | values => ("enum", Some values)
                     end
                 | None => named
                 end).
  assert (kind_ok base) as Hbase by apply kind_ok_base.
  assert (kind_ok named) as Hnamed.
  { unfold named. destruct (String.eqb _ ""); [done|].
    destruct (simple_types !! PyStr.last_segment attr_type) as [[|v vs]|] eqn:Hst;
      [done| |done].
    destruct (Htable _ _ Hst) as [H1 H2]. by apply kind_ok_enum. }
  assert (kind_ok inline) as (Hkind & Henum & Hvals).
  { unfold inline.
    destruct (ET.find_child (XS_NS +:+ "simpleType") attr_elem) as [it|]; [|done].
    pose proof (parse_enum_values_nonempty it) as Hne.
    destruct (parse_enum_values it) as [|v vs]; [done|]. by apply kind_ok_enum. }
  clearbody inline. destruct inline as [k v]. simpl in *.
  split; [by eauto|]. split; [by eauto|]. split; [by eauto|].
  split.
  { intros d. destruct (ET.get "default" attr_elem) as [s|]; simpl; [|done].
    destruct (String.eqb_spec s ""); [done|]. by intros [= <-]. }
  split; [|done]. rewrite <- Henum. split; [by intros [= ->]|by intros ->].
Qed.

Lemma extract_simple_types_table root :
  enum_table_of root (extract_simple_types root).
Proof.
  unfold extract_simple_types.
  apply (foldl_invariant_elem (enum_table_of root)).
  - intros acc st Hin Hacc. destruct (ET.get "name" st) as [nm|] eqn:Hnm; [|done].
    destruct (String.eqb_spec nm "") as [|Hne]; [done|].
    pose proof (parse_enum_values_nonempty st) as Hvs.
    destruct (parse_enum_values st) as [|v vs] eqn:Hpe; [done|].
    intros n l [[<- <-]|[_ Hl]]%lookup_insert_Some; [|by apply Hacc].
    split; [done|]. split; [done|]. split; [done|]. by exists st.
  - intros n vs H. by rewrite lookup_empty in H.
Qed.

Lemma extract_simple_types_well_formed root :
  enum_table_well_formed (extract_simple_types root).
Proof.
  intros n vs Hn. by destruct (extract_simple_types_table root n vs Hn) as (_&?&?&_).
Qed.

Lemma parse_element_well_formed_extract elem simple_types all_elements e :
  enum_table_well_formed simple_types →
  parse_element elem simple_types all_elements = Some e →
  extract_descriptor_well_formed e.
Proof.
  intros Htable. unfold parse_element.
  destruct (ET.get "name" elem) as [nm|]; [|done].
  destruct (String.eqb_spec nm "") as [|Hnm]; [done|]. intros [= <-].
  unfold extract_descriptor_well_formed. cbn [name namespace since description
    documentation parents children attributes].
  split; [done|]. split; [done|]. split; [done|]. split; [by eauto|].
  split; [done|]. split; [done|]. split.
  { eexists. split; [done|].
    match goal with |- NoDup (from_option _ _ ?c) => destruct c end; simpl;
      [apply extract_children_NoDup|constructor]. }
  eexists. split; [done|].
  match goal with
  | |- context [match ?c with Some _ => _ | None => [] end] => destruct c as [ct|]
  end; [|split; [constructor|done]].
  set (I := fun acc : PyDict.dict AttrDef =>
              NoDup (PyDict.keys acc)
              ∧ ∀ k d, PyDict.get k acc = Some d →
                       k ≠ "" ∧ extract_attr_well_formed d).
  change (I (foldl (fun acc attr =>
                      match ET.get "name" attr with
                      | Some attr_name =>
                          if String.eqb attr_name "" then acc
                          else PyDict.set attr_name (parse_attribute attr simple_types) acc
                      | None => acc
                      end) [] (ET.findall (XS_NS +:+ "attribute") ct))).
  apply (foldl_invariant I).
  - intros acc attr [Hnd Hacc]. destruct (ET.get "name" attr) as [an|]; [|done].
    destruct (String.eqb_spec an "") as [|Han]; [done|].
    split; [by apply dict_set_NoDup|]. intros k d. rewrite dict_get_set.
    destruct (String.eqb_spec k an) as [->|]; [|by apply Hacc].
    intros [= <-]. split; [done|]. by apply parse_attribute_well_formed_extract.
  - split; [constructor|done].
Qed.

Lemma fold_save_raised fs els (dir : files) :
  foldl (save_element fs) (Raised dir) els = Raised dir.
Proof. induction els as [|e els IH]; [done|exact IH]. Qed.

(** a file in which no descriptor of the list is saved is never touched *)
Lemma fold_save_frame fs els p :
  (∀ e, e ∈ els → saved_in p e = false) →
  ∀ st, final_dir (foldl (save_element fs) st els) !! p = final_dir st !! p.
Proof.
  induction els as [|e els IH]; intros Hp st; [done|].
  change (foldl (save_element fs) st (e :: els))
    with (foldl (save_element fs) (save_element fs st e) els).
  rewrite IH by (intros e' He'; by apply Hp, list_elem_of_further).
  assert (element_path (name e) ≠ p) as Hne.
  { pose proof (Hp e (list_elem_of_here _ _)) as He. unfold saved_in in He.
    by apply bool_decide_eq_false in He. }
  destruct st as [[] dir|dir]; [|done]. unfold save_element.
  destruct (fs (element_path (name e))); simpl;
    [by rewrite lookup_insert_ne|done|by rewrite lookup_insert_ne..].
Qed.

(** when every file can be written, each file ends up with the last
    descriptor saved in it *)
Lemma fold_save_element fs els :
  (∀ e, e ∈ els → fs (element_path (name e)) = Written) →
  ∀ (dir : files),
    ∃ dir',
      foldl (save_element fs) (Done tt dir) els = Done tt dir'
      ∧ ∀ p, dir' !! p
             = match last (List.filter (saved_in p) els) with
               | Some e => Some (JsonDescriptor e)
               | None => dir !! p
               end.
Proof.
  induction els as [|e els IH]; intros Hfs dir; [by exists dir|].
  change (foldl (save_element fs) (Done tt dir) (e :: els))
    with (foldl (save_element fs) (save_element fs (Done tt dir) e) els).
  unfold save_element at 2. rewrite (Hfs e) by apply list_elem_of_here.
  destruct (IH (fun e' H => Hfs e' (list_elem_of_further _ _ _ H))
               (<[element_path (name e) := JsonDescriptor e]> dir))
    as (dir' & Hrun & Hfiles).
  exists dir'. split; [exact Hrun|]. intros p. rewrite Hfiles.
  cbn [List.filter]. unfold saved_in at 2.
  case_bool_decide as Hp.
  - rewrite last_cons. destruct (last (List.filter (saved_in p) els)); [done|].
    by rewrite Hp, lookup_insert_eq.
  - destruct (last (List.filter (saved_in p) els)); [done|].
    by rewrite lookup_insert_ne.
Qed.

End Extract.

(** X17. Every descriptor extract-xsd.py extracts from a document is
    complete: a non-empty name, namespace [wix], version [v4], a
    description, the documentation link of its name, no parents, children
    without repetition, and attributes under distinct non-empty names, each
    with a kind, a required flag, a description, a default only when it is
    not empty, and values, at least one and none empty, exactly when it is
    an enumeration. *)
Theorem extract_xsd_descriptor_is_complete {tables : PyStr.CaseMapping}
    (root : xml) (e : Descriptor) :
  e ∈ extracted_from root → extract_descriptor_well_formed e.
Proof.
  unfold extracted_from, ExtractXsd.extract_elements.
  intros (elem & _ & He)%list_elem_of_omap.
  eapply parse_element_well_formed_extract; [|exact He].
  apply extract_simple_types_well_formed.
Qed.

Lemma extract_xsd_descriptor_is_complete_witness :
  let tables := PyStr.ascii_case in
  ∃ e,
    extracted_from Sample2.foo_schema = [e]
    ∧ attr_values <$> PyDict.get "Baz" (default [] (attributes e))
      = Some (Some ["a"; "b"])
    ∧ extract_descriptor_well_formed e.
Proof.
  intros tables. eexists. split; [vm_compute; reflexivity|].
  split; [vm_compute; reflexivity|].
  apply (extract_xsd_descriptor_is_complete Sample2.foo_schema).
  vm_compute. apply list_elem_of_here.
Defined.



(** X19. A namespace prefix of a type reference is ignored by
    [parse_type_name] of extract-xsd.py, and the result is always one of
    string, integer, yesno, guid and version. *)
Theorem parse_type_name_ignores_prefix (prefix t : string) (o : option string) :
  ExtractXsd.parse_type_name (Some (prefix +:+ ":" +:+ t))
  = ExtractXsd.parse_type_name (Some t)
  ∧ ExtractXsd.parse_type_name o ∈ base_kinds.
Proof.
  split; [|apply parse_type_name_kind].
  unfold ExtractXsd.parse_type_name, PyStr.last_segment at 1.
  by rewrite last_segment_go_prefix.
Qed.

(** X20. The enumeration table of extract-xsd.py holds, under a non-empty
    name, the values of a simple type of that name found anywhere in the
    document: at least one value, none of them empty. *)
Theorem extract_xsd_enum_table (root : xml) (n : string) (vs : list string) :
  ExtractXsd.extract_simple_types root !! n = Some vs →
  n ≠ "" ∧ vs ≠ [] ∧ ("" ∉ vs)
  ∧ ∃ st, st ∈ ET.findall (ExtractXsd.XS_NS +:+ "simpleType") root
          ∧ ET.get "name" st = Some n
          ∧ ExtractXsd.parse_enum_values st = vs.
Proof.
  intros Hn. pose proof (extract_simple_types_table root) as Htable.
  exact (Htable n vs Hn).
Qed.

Lemma extract_xsd_enum_table_witness :
  ExtractXsd.extract_simple_types Sample2.foo_schema !! "BazType" = Some ["a"; "b"]
  ∧ "" ∉ ["a"; "b"].
Proof.
  split; [vm_compute; reflexivity|].
  destruct (extract_xsd_enum_table Sample2.foo_schema "BazType" ["a"; "b"])
    as (_ & _ & Hvs & _); [vm_compute; reflexivity|exact Hvs].
Defined.

(** ** Documentation text *)

Section Whitespace.

Lemma string_app_cons x (a b : string) : String x a +:+ b = String x (a +:+ b).
Proof. reflexivity. Qed.

Lemma string_app_assoc (a b c : string) : (a +:+ b) +:+ c = a +:+ (b +:+ c).
Proof. induction a as [|x a IH]; [done|]. rewrite !string_app_cons. by f_equal. Qed.

Lemma string_app_nil_r (a : string) : a +:+ "" = a.
Proof. induction a as [|x a IH]; [done|]. rewrite string_app_cons. by f_equal. Qed.

(** [split_go], one character at a time *)
Lemma split_go_eq cur c s :
  PyStr.split_go cur (String c s)
  = match PyStr.skip_space (String c s) with
    | Some rest => PyStr.flush cur ++ PyStr.split_go "" rest
    | None => PyStr.split_go (cur +:+ String c "") s
    end.
Proof.
  destruct s as [|c2 [|c3 s3]]; cbn [PyStr.split_go PyStr.skip_space].
  - by destruct (PyStr.is_space1 c).
  - destruct (PyStr.is_space1 c); [done|]. by destruct (PyStr.is_space2 c c2).
  - destruct (PyStr.is_space1 c); [done|]. destruct (PyStr.is_space2 c c2); [done|].
    by destruct (PyStr.is_space3 c c2 c3).
Qed.

Lemma skip_space_shorter s rest :
  PyStr.skip_space s = Some rest → (String.length rest < String.length s)%nat.
Proof.
  destruct s as [|c1 [|c2 [|c3 s3]]]; cbn [PyStr.skip_space]; [done|..].
  - destruct (PyStr.is_space1 c1); [|done]. intros [= <-]. simpl. lia.
  - destruct (PyStr.is_space1 c1); [intros [= <-]; simpl; lia|].
    destruct (PyStr.is_space2 c1 c2); [|done]. intros [= <-]. simpl. lia.
  - destruct (PyStr.is_space1 c1); [intros [= <-]; simpl; lia|].
    destruct (PyStr.is_space2 c1 c2); [intros [= <-]; simpl; lia|].
    destruct (PyStr.is_space3 c1 c2 c3); [|done]. intros [= <-]. simpl. lia.
Qed.

(** no white-space character has a blank as its second or third byte *)
Lemma is_space2_blank c : PyStr.is_space2 c " " = false.
Proof. unfold PyStr.is_space2. by destruct (Ascii.eqb c "194"). Qed.

Lemma is_space3_blank2 c1 c3 : PyStr.is_space3 c1 " " c3 = false.
Proof.
  unfold PyStr.is_space3.
  by destruct (Ascii.eqb c1 "225"), (Ascii.eqb c1 "226"), (Ascii.eqb c1 "227").
Qed.

Lemma is_space3_blank3 c1 c2 : PyStr.is_space3 c1 c2 " " = false.
Proof.
  unfold PyStr.is_space3.
  destruct (Ascii.eqb c1 "225"), (Ascii.eqb c1 "226"), (Ascii.eqb c1 "227"),
    (Ascii.eqb c2 "154"), (Ascii.eqb c2 "128"), (Ascii.eqb c2 "129"); reflexivity.
Qed.

(** what follows a text matters to [skip_space] only as far as it completes
    a white-space character: it never undoes one, and a blank never
    completes one *)
Lemma skip_space_prefix u s :
  u ≠ "" → PyStr.skip_space (u +:+ s) = None → PyStr.skip_space u = None.
Proof.
  destruct u as [|c1 [|c2 [|c3 u3]]]; [done|..]; intros _;
    rewrite ?string_app_cons; change ("" +:+ s) with s.
  - destruct s as [|c2 [|c3 s]]; cbn [PyStr.skip_space];
      by destruct (PyStr.is_space1 c1).
  - destruct s as [|c3 s]; cbn [PyStr.skip_space];
      destruct (PyStr.is_space1 c1); try done; by destruct (PyStr.is_space2 c1 c2).
  - cbn [PyStr.skip_space].
    by destruct (PyStr.is_space1 c1), (PyStr.is_space2 c1 c2),
      (PyStr.is_space3 c1 c2 c3).
Qed.

Lemma skip_space_blank u rest :
  u ≠ "" → PyStr.skip_space u = None →
  PyStr.skip_space (u +:+ String " " rest) = None.
Proof.
  destruct u as [|c1 [|c2 [|c3 u3]]]; [done|..]; intros _;
    rewrite ?string_app_cons; change ("" +:+ String " " rest) with (String " " rest);
    cbn [PyStr.skip_space].
  - destruct (PyStr.is_space1 c1); [done|]. intros _. rewrite is_space2_blank.
    destruct rest as [|c3 rest]; [done|]. by rewrite is_space3_blank2.
  - destruct (PyStr.is_space1 c1); [done|].
    destruct (PyStr.is_space2 c1 c2); [done|]. intros _.
    by rewrite is_space3_blank3.
  - cbn [PyStr.skip_space].
    by destruct (PyStr.is_space1 c1), (PyStr.is_space2 c1 c2),
      (PyStr.is_space3 c1 c2 c3).
Qed.

Lemma clear_prefix w s : clear w s = true → clear w "" = true.
Proof.
  induction w as [|c w IH]; [done|]. cbn [clear].
  intros [Hc Hw]%andb_true_iff. apply andb_true_iff. split; [|by apply IH].
  rewrite string_app_nil_r.
  destruct (PyStr.skip_space (String c w +:+ s)) eqn:Hs; [done|].
  by rewrite (skip_space_prefix (String c w) s).
Qed.

Lemma clear_blank w rest : clear w "" = true → clear w (String " " rest) = true.
Proof.
  induction w as [|c w IH]; [done|]. cbn [clear].
  intros [Hc Hw]%andb_true_iff. apply andb_true_iff. split; [|by apply IH].
  rewrite string_app_nil_r in Hc.
  destruct (PyStr.skip_space (String c w)) eqn:Hs; [done|].
  by rewrite (skip_space_blank (String c w) rest).
Qed.

Lemma clear_snoc cur c s :
  clear cur (String c s) = true → PyStr.skip_space (String c s) = None →
  clear (cur +:+ String c "") s = true.
Proof.
  intros Hcur Hc. induction cur as [|x cur IH].
  - change (clear ("" +:+ String c "") s)
      with (negb (is_some (PyStr.skip_space (String c s))) && true).
    by rewrite Hc.
  - rewrite string_app_cons. cbn [clear] in Hcur |- *.
    apply andb_true_iff in Hcur as [Hx Hcur]. apply andb_true_iff.
    split; [|by apply IH].
    rewrite <- string_app_cons, string_app_assoc.
    exact Hx.
Qed.

Lemma flush_words cur : clear cur "" = true → Forall is_word (PyStr.flush cur).
Proof.
  intros Hcur. unfold PyStr.flush. destruct (String.eqb_spec cur ""); [constructor|].
  by repeat constructor.
Qed.

(** the words [split_go] returns have no white space in them *)
Lemma split_go_words n :
  ∀ s cur, (String.length s ≤ n)%nat → clear cur s = true →
           Forall is_word (PyStr.split_go cur s).
Proof.
  induction n as [|n IH]; intros s cur Hlen Hcur.
  { destruct s; [|simpl in Hlen; lia]. by apply flush_words. }
  destruct s as [|c s]; [by apply flush_words|].
  rewrite split_go_eq. destruct (PyStr.skip_space (String c s)) as [rest|] eqn:Hs.
  - apply Forall_app. split.
    + apply flush_words. by apply clear_prefix in Hcur.
    + apply IH; [|done]. apply skip_space_shorter in Hs. simpl in Hlen, Hs. lia.
  - apply IH; [simpl in Hlen; lia|]. by apply clear_snoc.
Qed.

(** a word followed by the end of the text or by a blank is read as a
    whole *)
Lemma split_go_word w rest :
  clear w rest = true →
  ∀ cur, PyStr.split_go cur (w +:+ rest) = PyStr.split_go (cur +:+ w) rest.
Proof.
  induction w as [|c w IH]; intros Hw cur.
  - by rewrite string_app_nil_r.
  - cbn [clear] in Hw. apply andb_true_iff in Hw as [Hc Hw].
    rewrite string_app_cons in Hc |- *. rewrite split_go_eq.
    destruct (PyStr.skip_space (String c (w +:+ rest))); [done|].
    rewrite (IH Hw), string_app_assoc. done.
Qed.

Lemma split_concat ws :
  Forall is_word ws → PyStr.split (String.concat " " ws) = ws.
Proof.
  unfold PyStr.split. induction ws as [|w ws IH]; intros Hws; [done|].
  apply Forall_cons in Hws as [[Hne Hw] Hws].
  assert (PyStr.flush w = [w]) as Hflush.
  { unfold PyStr.flush. by destruct (String.eqb_spec w ""). }
  destruct ws as [|w2 ws].
  - cbn [String.concat]. rewrite <- (string_app_nil_r w) at 1.
    by rewrite (split_go_word w "" Hw).
  - change (String.concat " " (w :: w2 :: ws))
      with (w +:+ String " " (String.concat " " (w2 :: ws))).
    rewrite (split_go_word w _ (clear_blank w _ Hw)), split_go_eq.
    change (PyStr.skip_space (String " " (String.concat " " (w2 :: ws))))
      with (Some (String.concat " " (w2 :: ws))).
    change ("" +:+ w) with w. rewrite Hflush, (IH Hws). done.
Qed.

Lemma collapse_ws_again s : PyStr.collapse_ws (PyStr.collapse_ws s) = PyStr.collapse_ws s.
Proof.
  unfold PyStr.collapse_ws. rewrite split_concat; [done|].
  by apply (split_go_words (String.length s)).
Qed.

Lemma collapse_ws_words s :
  ∃ ws, Forall is_word ws ∧ PyStr.collapse_ws s = String.concat " " ws.
Proof.
  exists (PyStr.split s). split; [|done].
  by apply (split_go_words (String.length s)).
Qed.

End Whitespace.

(** X21. Documentation text is normalised in both scripts: the text
    [_get_documentation] returns, when it returns one, and the text
    [parse_documentation] returns are made of words, each non-empty and
    free of the white space of Unicode, separated by single blanks, so that
    splitting them at white space and joining the words with single blanks
    gives them back. *)
Theorem documentation_is_normalised (elem : xml) :
  (∀ s, XsdParser._get_documentation elem = Some s →
        (∃ ws, Forall is_word ws ∧ s = String.concat " " ws)
        ∧ PyStr.collapse_ws s = s)
  ∧ (∃ ws, Forall is_word ws
           ∧ ExtractXsd.parse_documentation elem = String.concat " " ws)
  ∧ PyStr.collapse_ws (ExtractXsd.parse_documentation elem)
    = ExtractXsd.parse_documentation elem.
Proof.
  split; [|split].
  - intros s. unfold XsdParser._get_documentation.
    destruct (ET.find _ elem) as [doc_elem|]; [|done].
    destruct (PyStr.truthy (text_of doc_elem)); [|done].
    destruct (text_of doc_elem) as [text|]; [|done].
    intros [= <-]. split; [apply collapse_ws_words|apply collapse_ws_again].
  - unfold ExtractXsd.parse_documentation.
    destruct (ET.find_child _ elem) as [annotation|]; [|by exists []].
    destruct (ET.find_child _ annotation) as [documentation|]; [|by exists []].
    apply collapse_ws_words.
  - unfold ExtractXsd.parse_documentation.
    destruct (ET.find_child _ elem) as [annotation|]; [|done].
    destruct (ET.find_child _ annotation) as [documentation|]; [|done].
    apply collapse_ws_again.
Qed.

Lemma documentation_is_normalised_witness :
  XsdParser._get_documentation Sample2.documented = Some "The Foo element."
  ∧ PyStr.collapse_ws "The Foo element." = "The Foo element."
  ∧ ExtractXsd.parse_documentation Sample2.marked_up = "bold text tail"
  ∧ PyStr.collapse_ws "bold text tail" = "bold text tail".
Proof.
  split; [vm_compute; reflexivity|]. split.
  - apply (proj1 (documentation_is_normalised Sample2.documented)).
    vm_compute. reflexivity.
  - split; [vm_compute; reflexivity|].
    exact (proj2 (proj2 (documentation_is_normalised Sample2.marked_up))).
Defined.

(** ** The merge and write stage *)

Section MergeStage.
Context {tables : PyStr.CaseMapping}.

(** an attribute of the existing mapping that has no description gets the
    description of the extracted attribute of its name *)
Lemma fold_merge_attr_tree_fills (its : PyDict.dict AttrDef) :
  NoDup (PyDict.keys its) →
  ∀ acc k d0 d,
    PyDict.get k acc = Some d0 →
    PyStr.truthy (attr_description d0) = false →
    PyDict.get k its = Some d →
    PyDict.get k (foldl merge_attr_tree acc its)
    = Some (set_attr_description (Some (default "" (attr_description d))) d0).
Proof.
  induction its as [|[n0 dn] its IH]; intros Hnd acc k d0 d Hacc Hempty Hits;
    [done|].
  change (PyDict.keys ((n0, dn) :: its)) with (n0 :: PyDict.keys its) in Hnd.
  apply NoDup_cons in Hnd as [Hn0 Hnd].
  change (foldl merge_attr_tree acc ((n0, dn) :: its))
    with (foldl merge_attr_tree (merge_attr_tree acc (n0, dn)) its).
  cbn [PyDict.get] in Hits. destruct (String.eqb_spec k n0) as [->|Hne].
  - injection Hits as ->.
    assert (PyDict.get n0 its = None) as Hrest.
    { destruct (PyDict.get n0 its) eqn:Hg; [|done].
      by apply dict_get_Some_keys in Hg. }
    rewrite (proj1 (fold_merge_attr_tree_get its _ n0) Hrest).
    unfold merge_attr_tree. rewrite Hacc, Hempty. apply dict_get_set_eq.
  - apply (IH Hnd); [|done..].
    unfold merge_attr_tree. destruct (PyDict.get n0 acc) as [d1|].
    + destruct (PyStr.truthy (attr_description d1)); [done|].
      by rewrite dict_get_set_ne.
    + by rewrite dict_get_set_ne.
Qed.

(** what a merge takes from the extraction *)
Lemma merged_descriptor_takes (existing e : Descriptor) :
  NoDup (PyDict.keys (default [] (attributes e))) →
  takes_extraction existing e (merged_descriptor existing e).
Proof.
  intros Hnd. rewrite merged_descriptor_tree. unfold takes_extraction.
  split; [|split; [|split; [|split]]].
  - apply sorted_union_spec.
  - apply sorted_union_spec.
  - intros k Hk. unfold merge_element_tree. simpl.
    by apply fold_merge_attr_tree_get.
  - intros k d0 d Hk Hempty Hd. unfold merge_element_tree. simpl.
    rewrite (fold_merge_attr_tree_fills _ Hnd _ k d0 d Hk Hempty Hd).
    by eexists.
  - intros Hempty Hsome. unfold merge_element_tree. simpl.
    by rewrite Hempty, bool_decide_eq_true_2.
Qed.

(** the fields a merge does not touch *)
Lemma merged_descriptor_fields (existing e : Descriptor) :
  name (merged_descriptor existing e) = name existing
  ∧ namespace (merged_descriptor existing e) = namespace existing
  ∧ since (merged_descriptor existing e) = since existing
  ∧ documentation (merged_descriptor existing e) = documentation existing.
Proof.
  rewrite merged_descriptor_tree. unfold merge_element_tree.
  by destruct (bool_decide (is_Some (description e))
               && negb (PyStr.truthy (description existing))).
Qed.

End MergeStage.




(** ** Names that nothing defines *)

Section UnknownNames.
Context {tables : PyStr.CaseMapping}.
Import XsdParser.

Lemma second_pass_tables ns l :
  ∀ s, types (foldl (second_pass_step ns) s l) = types s
       ∧ groups (foldl (second_pass_step ns) s l) = groups s.
Proof.
  induction l as [|x l IH]; intros s; [done|].
  change (foldl (second_pass_step ns) s (x :: l))
    with (foldl (second_pass_step ns) (second_pass_step ns s x) l).
  destruct (IH (second_pass_step ns s x)) as [-> ->].
  apply second_pass_step_tables.
Qed.

(** the first pass adds to the type table the names of the types of the
    document, and no other *)
Lemma first_pass_types_None s root t :
  types s !! t = None → t ∉ type_names root →
  types (first_pass s root) !! t = None.
Proof.
  intros Hs Ht. unfold first_pass.
  apply (foldl_invariant (fun s => types s !! t = None)); [by intros|].
  apply (foldl_invariant_elem (fun s => types s !! t = None)).
  { intros s0 x Hx Hs0. simpl. rewrite lookup_insert_ne; [done|].
    intros <-. apply Ht. unfold type_names. rewrite fmap_app.
    apply elem_of_app. right. apply list_elem_of_fmap. by exists x. }
  apply (foldl_invariant_elem (fun s => types s !! t = None)); [|done].
  intros s0 x Hx Hs0. simpl. rewrite lookup_insert_ne; [done|].
  intros <-. apply Ht. unfold type_names. rewrite fmap_app.
  apply elem_of_app. left. apply list_elem_of_fmap. by exists x.
Qed.

Lemma first_pass_groups_None s root G :
  groups s !! G = None → G ∉ group_names root →
  groups (first_pass s root) !! G = None.
Proof.
  intros Hs HG. unfold first_pass.
  apply (foldl_invariant_elem (fun s => groups s !! G = None)).
  { intros s0 x Hx Hs0. simpl. rewrite lookup_insert_ne; [done|].
    intros <-. apply HG. unfold group_names. apply list_elem_of_fmap. by exists x. }
  apply (foldl_invariant (fun s => groups s !! G = None)); [by intros|].
  apply (foldl_invariant (fun s => groups s !! G = None)); [by intros|done].
Qed.

Lemma parse_file_tables s root ns :
  types (parse_file s (Document root) ns) = types (first_pass s root)
  ∧ groups (parse_file s (Document root) ns) = groups (first_pass s root).
Proof. rewrite parse_file_passes. apply second_pass_tables. Qed.

(** the tables of a run hold no name that no document of the run defines *)
Lemma parse_from_undefined (docs : list (parsed * string)) :
  ∀ s,
    (∀ t, types s !! t = None → t ∉ defined_types docs →
          types (foldl (fun self '(doc, ns) => parse_file self doc ns) s docs) !! t
          = None)
    ∧ (∀ G, groups s !! G = None → G ∉ defined_groups docs →
            groups (foldl (fun self '(doc, ns) => parse_file self doc ns) s docs) !! G
            = None).
Proof.
  induction docs as [|[doc ns] docs IH]; intros s; [done|].
  change (foldl (fun self '(doc, ns) => parse_file self doc ns) s ((doc, ns) :: docs))
    with (foldl (fun self '(doc, ns) => parse_file self doc ns)
                (parse_file s doc ns) docs).
  destruct (IH (parse_file s doc ns)) as [IHt IHg].
  split.
  - intros t Hs Ht. unfold defined_types in Ht. simpl in Ht.
    apply not_elem_of_app in Ht as [Hdoc Hrest]. apply IHt; [|done].
    destruct doc as [|root]; [done|].
    rewrite (proj1 (parse_file_tables s root ns)).
    by apply first_pass_types_None.
  - intros G Hs HG. unfold defined_groups in HG. simpl in HG.
    apply not_elem_of_app in HG as [Hdoc Hrest]. apply IHg; [|done].
    destruct doc as [|root]; [done|].
    rewrite (proj2 (parse_file_tables s root ns)).
    by apply first_pass_groups_None.
Qed.

Lemma parse_all_undefined_type docs t :
  t ∉ defined_types docs → types (parse_all docs) !! t = None.
Proof. intros Ht. by apply (parse_from_undefined docs init). Qed.

Lemma parse_all_undefined_group docs G :
  G ∉ defined_groups docs → groups (parse_all docs) !! G = None.
Proof. intros HG. by apply (parse_from_undefined docs init). Qed.

Lemma parse_all_snoc docs doc ns :
  parse_all (docs ++ [(doc, ns)]) = parse_file (parse_all docs) doc ns.
Proof. unfold parse_all. by rewrite foldl_app. Qed.

(** documents that do not declare [n] leave its entry as it is *)
Lemma parse_from_undeclared n (docs : list (parsed * string)) :
  Forall (fun d => declared_in n d = false) docs →
  ∀ s, PyDict.get n (elements (foldl (fun self '(doc, ns) => parse_file self doc ns)
                                     s docs))
       = PyDict.get n (elements s).
Proof.
  induction 1 as [|[doc ns] docs Hdoc _ IH]; intros s; [done|].
  change (foldl (fun self '(doc, ns) => parse_file self doc ns) s ((doc, ns) :: docs))
    with (foldl (fun self '(doc, ns) => parse_file self doc ns)
                (parse_file s doc ns) docs).
  rewrite IH. destruct doc as [|root]; [done|].
  rewrite parse_file_last_wins_lemma.
  unfold declared_in in Hdoc. simpl in Hdoc.
  destruct (List.filter (declares n) (top_elements root)) as [|x l] eqn:Hf; [done|].
  exfalso. assert (x ∈ List.filter (declares n) (top_elements root)) as Hx
    by (rewrite Hf; apply elem_of_cons; by left).
  apply list_elem_of_In, filter_In in Hx as [Hin Hx].
  assert (existsb (declares n) (top_elements root) = true) as Hex
    by (apply existsb_exists; by exists x).
  congruence.
Qed.

(** the entry of [n] after a run: built from the last declaration of [n]
    in the last document that declares it, with the tables as they are
    after the first pass over that document *)
Lemma parse_all_entry before root ns after n elem :
  last (List.filter (declares n) (top_elements root)) = Some elem →
  Forall (fun d => declared_in n d = false) after →
  PyDict.get n (elements (parse_all ((before ++ [(Document root, ns)]) ++ after)))
  = _parse_element (parse_all (before ++ [(Document root, ns)])) elem ns.
Proof.
  intros Hlast Hafter. unfold parse_all at 1. rewrite foldl_app.
  rewrite (parse_from_undeclared n after Hafter).
  fold (parse_all (before ++ [(Document root, ns)])).
  rewrite parse_all_snoc, parse_file_last_wins_lemma, Hlast.
  apply parse_element_ext; symmetry; apply parse_file_tables.
Qed.

(** the attribute table of a complex type: the last declaration of a name
    wins *)
Lemma fold_attributes_get tys a (l : list xml) :
  ∀ acc : PyDict.dict AttrDef,
    PyDict.get a (foldl (fun acc attr =>
                           match _parse_attribute tys attr with
                           | Some (n, d) => PyDict.set n d acc
                           | None => acc
                           end) acc l)
    = match last (List.filter (declares_attribute a) l) with
      | Some attr => snd <$> _parse_attribute tys attr
      | None => PyDict.get a acc
      end.
Proof.
  induction l as [|x l IH]; intros acc; [done|].
  cbn [foldl]. rewrite IH. cbn [List.filter].
  assert (PyDict.get a match _parse_attribute tys x with
                       | Some (n, d) => PyDict.set n d acc
                       | None => acc
                       end
          = if declares_attribute a x then snd <$> _parse_attribute tys x
            else PyDict.get a acc) as Hstep.
  { unfold declares_attribute, _parse_attribute.
    destruct (ET.get "name" x) as [nm|]; [|done].
    destruct (String.eqb_spec nm "") as [->|Hnm].
    - destruct (bool_decide_reflect (Some "" = Some a)) as [[= <-]|]; done.
    - rewrite dict_get_set. destruct (String.eqb_spec a nm) as [->|Hne].
      + rewrite bool_decide_eq_true_2 by done.
        destruct (String.eqb_spec nm ""); done.
      + rewrite bool_decide_eq_false_2 by congruence. done. }
  destruct (declares_attribute a x) eqn:Hdecl.
  - rewrite last_cons. destruct (last _); [done|]. exact Hstep.
  - destruct (last _); [done|]. exact Hstep.
Qed.

(** no entry of the fixed table is the enumeration kind *)
Lemma type_mapping_not_enum ty :
  String.eqb (default "string" (PyDict.get ty type_mapping)) "enum" = false.
Proof.
  unfold type_mapping. cbn [PyDict.get].
  repeat (destruct (String.eqb ty _); [reflexivity|]). reflexivity.
Qed.

(** an attribute whose declared type no document defines: the kind of the
    fixed table, plain string for a name that is not in it, and no value
    list *)
Lemma parse_attribute_undefined tys attr a :
  declares_attribute a attr = true →
  tys !! ET.get_or "type" "string" attr = None →
  ∃ ad, _parse_attribute tys attr = Some (a, ad)
        ∧ attr_type ad
          = Some (default "string"
                    (PyDict.get (ET.get_or "type" "string" attr) type_mapping))
        ∧ attr_values ad = None.
Proof.
  unfold declares_attribute. intros [Hname Hne]%andb_prop Hty.
  apply bool_decide_eq_true in Hname. apply negb_true_iff in Hne.
  unfold _parse_attribute. rewrite Hname, Hne. eexists. split; [reflexivity|].
  unfold mapped_type. rewrite Hty. cbn [attr_type attr_values].
  split; [done|]. by rewrite type_mapping_not_enum.
Qed.

End UnknownNames.

Section UnknownNamesRun.
Context {tables : PyStr.CaseMapping}.
Import XsdParser.

(** the entry a run has for an element whose type, if it declares one, no
    document parsed so far defines *)
Lemma parse_all_entry_undefined before root ns after n elem :
  let seen := before ++ [(Document root, ns)] in
  last (List.filter (declares n) (top_elements root)) = Some elem →
  Forall (fun d => declared_in n d = false) after →
  (∀ t, ET.get "type" elem = Some t → t ∉ defined_types seen) →
  ∃ d, PyDict.get n (elements (resolve_relationships (parse_all (seen ++ after))))
       = Some d
       ∧ name d = n
       ∧ children d
         = Some (from_option type_children []
                   (_parse_complex_type (parse_all seen)
                      <$> ET.find_child (XS +:+ "complexType") elem))
       ∧ attributes d
         = Some (from_option type_attributes []
                   (_parse_complex_type (parse_all seen)
                      <$> ET.find_child (XS +:+ "complexType") elem)).
Proof.
  intros seen Hlast Hafter Htype.
  pose proof (parse_all_entry before root ns after n elem Hlast Hafter) as Hentry.
  fold seen in Hentry.
  apply last_Some_elem_of, list_elem_of_In, filter_In in Hlast as [_ Hdecl].
  unfold declares in Hdecl. apply andb_prop in Hdecl as [Hname Hne].
  apply bool_decide_eq_true in Hname. apply negb_true_iff in Hne.
  assert (match ET.get "type" elem with
          | Some type_name =>
              if String.eqb type_name "" then None
              else types (parse_all seen) !! type_name
          | None => None
          end = None) as Hnone.
  { destruct (ET.get "type" elem) as [t|] eqn:Ht; [|done].
    destruct (String.eqb t ""); [done|].
    by apply parse_all_undefined_type, Htype. }
  unfold _parse_element in Hentry. rewrite Hname, Hne, Hnone in Hentry.
  destruct (fold_resolve_frame (PyDict.keys (elements (parse_all (seen ++ after))))
                               (elements (parse_all (seen ++ after)))) as [_ Hg].
  specialize (Hg n). rewrite Hentry in Hg.
  inversion Hg as [e0 d Hd He0 Hget|]; subst. exists d. split; [done|].
  rewrite Hd. by simpl.
Qed.

(** an element that no document of the run declares has no entry *)
Lemma parse_all_undeclared docs c :
  Forall (fun d => declared_in c d = false) docs →
  PyDict.get c (elements (resolve_relationships (parse_all docs))) = None.
Proof.
  intros Hdocs.
  destruct (fold_resolve_frame (PyDict.keys (elements (parse_all docs)))
                               (elements (parse_all docs))) as [_ Hg].
  specialize (Hg c).
  assert (PyDict.get c (elements (parse_all docs)) = None) as Hnone
    by apply (parse_from_undeclared c docs Hdocs init).
  rewrite Hnone in Hg. by inversion Hg.
Qed.

End UnknownNamesRun.

Section UnknownNamesExtract.
Context {tables : PyStr.CaseMapping}.
Import ExtractXsd.

Lemma all_elements_undefined (l : list xml) k :
  k ∉ omap (ET.get "name") l →
  ∀ acc : gmap string xml,
    acc !! ("type:" +:+ k) = None →
    foldl (fun acc complex_type =>
             match ET.get "name" complex_type with
             | Some name =>
                 if String.eqb name "" then acc
                 else <["type:" +:+ name := complex_type]> acc
             | None => acc
             end) acc l !! ("type:" +:+ k) = None.
Proof.
  intros Hk acc Hacc.
  apply (foldl_invariant_elem (fun acc : gmap string xml => acc !! ("type:" +:+ k) = None));
    [|done].
  intros acc0 x Hx H0. destruct (ET.get "name" x) as [nm|] eqn:Hnm; [|done].
  destruct (String.eqb nm ""); [done|]. rewrite lookup_insert_ne; [done|].
  intros Heq. apply (inj (String.append "type:")) in Heq. subst nm.
  apply Hk. apply list_elem_of_omap. by exists x.
Qed.

Lemma simple_types_undefined root k :
  k ∉ simple_type_names root → extract_simple_types root !! k = None.
Proof.
  intros Hk. destruct (extract_simple_types root !! k) as [vs|] eqn:Hl; [|done].
  destruct (extract_simple_types_table root k vs Hl) as (_&_&_&st&Hst&Hname&_).
  exfalso. apply Hk. apply list_elem_of_omap. by exists st.
Qed.

Lemma fold_extract_attributes_get st a (l : list xml) :
  ∀ acc : PyDict.dict AttrDef,
    PyDict.get a (foldl (fun acc attr =>
                           match ET.get "name" attr with
                           | Some attr_name =>
                               if String.eqb attr_name "" then acc
                               else PyDict.set attr_name (parse_attribute attr st) acc
                           | None => acc
                           end) acc l)
    = match last (List.filter (declares_attribute a) l) with
      | Some attr => Some (parse_attribute attr st)
      | None => PyDict.get a acc
      end.
Proof.
  induction l as [|x l IH]; intros acc; [done|].
  cbn [foldl]. rewrite IH. cbn [List.filter].
  assert (PyDict.get a match ET.get "name" x with
                       | Some attr_name =>
                           if String.eqb attr_name "" then acc
                           else PyDict.set attr_name (parse_attribute x st) acc
                       | None => acc
                       end
          = if declares_attribute a x then Some (parse_attribute x st)
            else PyDict.get a acc) as Hstep.
  { unfold declares_attribute.
    destruct (ET.get "name" x) as [nm|]; [|done].
    destruct (String.eqb_spec nm "") as [->|Hnm].
    - destruct (bool_decide_reflect (Some "" = Some a)) as [[= <-]|]; done.
    - rewrite dict_get_set. destruct (String.eqb_spec a nm) as [->|Hne].
      + rewrite bool_decide_eq_true_2 by done.
        destruct (String.eqb_spec nm ""); done.
      + rewrite bool_decide_eq_false_2 by congruence. done. }
  destruct (declares_attribute a x) eqn:Hdecl.
  - rewrite last_cons. destruct (last _); [done|]. exact Hstep.
  - destruct (last _); [done|]. exact Hstep.
Qed.

(** an attribute whose type is no enumeration of the document and that has
    no inline type: the kind of the fixed table, plain string for a name
    that is not in it, and no value list *)
Lemma parse_attribute_undefined_extract st attr :
  st !! PyStr.last_segment (ET.get_or "type" "string" attr) = None →
  ET.find_child (XS_NS +:+ "simpleType") attr = None →
  attr_type (parse_attribute attr st)
  = Some (default "string"
            (PyDict.get (PyStr.last_segment (ET.get_or "type" "string" attr)) type_map))
  ∧ attr_values (parse_attribute attr st) = None.
Proof.
  intros Hst Hin. unfold parse_attribute. rewrite Hin, Hst.
  cbn [attr_type attr_values]. by destruct (String.eqb _ "").
Qed.

(** the descriptor extract-xsd.py builds for a declaration whose type, if
    it declares one, is not a complex type at the top of the document *)
Lemma extract_entry_undefined root elem n :
  elem ∈ ET.children (XS_NS +:+ "element") root →
  declares n elem = true →
  (∀ t, ET.get "type" elem = Some t → PyStr.last_segment t ∉ top_type_names root) →
  ∃ d, d ∈ extracted_from root
       ∧ name d = n
       ∧ description d = Some (parse_documentation elem)
       ∧ match ET.find_child (XS_NS +:+ "complexType") elem with
         | None => attributes d = Some [] ∧ children d = Some []
         | Some ct =>
             ∀ a attr,
               last (List.filter (declares_attribute a)
                                 (ET.findall (XS_NS +:+ "attribute") ct)) = Some attr →
               PyStr.last_segment (ET.get_or "type" "string" attr)
                 ∉ simple_type_names root →
               ET.find_child (XS_NS +:+ "simpleType") attr = None →
               ∃ ad, PyDict.get a (default [] (attributes d)) = Some ad
                     ∧ attr_type ad
                       = Some (default "string"
                                 (PyDict.get
                                    (PyStr.last_segment (ET.get_or "type" "string" attr))
                                    type_map))
                     ∧ attr_values ad = None
         end.
Proof.
  intros Hin Hdecl Htype. unfold declares in Hdecl.
  apply andb_prop in Hdecl as [Hname Hne].
  apply bool_decide_eq_true in Hname. apply negb_true_iff in Hne.
  unfold extracted_from, extract_elements. cbv zeta.
  match goal with
  | |- context [omap (fun elem => parse_element elem _ ?t)] => set (all := t)
  end.
  assert (∀ t, ET.get "type" elem = Some t →
               all !! ("type:" +:+ PyStr.last_segment t) = None) as Hall.
  { intros t Ht. apply all_elements_undefined; [|done]. by apply Htype. }
  destruct (parse_element elem (extract_simple_types root) all) as [d|] eqn:Hd;
    [|by unfold parse_element in Hd; rewrite Hname, Hne in Hd].
  exists d. split; [apply list_elem_of_omap; by exists elem|].
  unfold parse_element in Hd. rewrite Hname, Hne in Hd. injection Hd as <-.
  cbn [name description attributes children]. split; [done|]. split; [done|].
  destruct (ET.find_child (XS_NS +:+ "complexType") elem) as [ct|].
  - intros a attr Hlast Hty Hinline.
    pose proof (fold_extract_attributes_get
                  (extract_simple_types root) a
                  (ET.findall (XS_NS +:+ "attribute") ct) []) as Hfold.
    rewrite Hlast in Hfold. eexists. split; [exact Hfold|].
    apply parse_attribute_undefined_extract; [|done].
    by apply simple_types_undefined.
  - destruct (ET.get "type" elem) as [t|] eqn:Ht; [|done].
    destruct (String.eqb t ""); [done|]. by rewrite (Hall t).
Qed.

End UnknownNamesExtract.



